(** * A shallow embedding of coverage.pytracer.PyTracer

    The pure-Python raw data tracer of coverage.py is a state machine driven
    by the interpreter's trace events.  This development embeds the class
    [PyTracer] of [coverage/pytracer.py] attribute by attribute, its methods
    [__repr__], [_trace], [start], [stop] and [get_stats] as executable
    functions over an explicit tracer state and an explicit world (the
    interpreter state the methods read and write through [sys], [threading]
    and the collaborators injected by the collector), and proves properties
    of the recorder. *)

From Stdlib Require Import ZArith HexString.
From stdpp Require Import base option gmap sets list strings numbers pretty.

Local Open Scope Z_scope.
Local Open Scope string_scope.

(** ** Python values that appear in the tracer *)

(** A code object, as far as the tracer reads it. *)
Record code := { co_filename : string; co_firstlineno : Z }.

(** A frame object.  Frames are compared by identity ([frame ==
    self.last_exc_back]); [f_id] is that identity and [f_back] the identity
    of the calling frame, [None] for the outermost frame. *)
Record frame := {
  f_id : nat;
  f_back : option nat;
  f_code : code;
  f_lineno : Z
}.

(** The trace events.  The interpreter passes a string; any string other
    than the four below falls through the [if]/[elif] chain. *)
Inductive event := EvCall | EvLine | EvReturn | EvException | EvOther.

(** A file tracer plugin: [__name__], [dynamic_source_file_name()], which
    returns a function or [None], and [line_number_range(frame)]. *)
Record file_plugin := {
  plugin_name : string;
  dynamic_source_file_name : option (option string -> frame -> option string);
  line_number_range : frame -> Z * Z
}.

(** The object returned by [should_trace]: [disp.trace],
    [disp.source_filename] and [disp.plugin]. *)
Record disposition := {
  disp_trace : bool;
  disp_source_filename : option string;
  disp_plugin : option file_plugin
}.

(** An attribute that [__init__] sets to the empty list [[]], and that later
    holds [None] or an object. *)
Inductive slot (A : Type) := SInit | SNone | SObj (a : A).
Arguments SInit {A}.
Arguments SNone {A}.
Arguments SObj {A} a.

(** [self.last_line]: the list [[0]] set by [__init__], or an integer. *)
Inductive lineval := LInit | LNo (n : Z).

(** Keys of a per-file dict: a line number, or an arc (a pair of line
    numbers).  Every value stored is [None], so a per-file dict is the set
    of its keys. *)
Inductive key := KLine (n : Z) | KArc (a b : Z).

#[global] Instance key_eq_dec : EqDecision key.
Proof. solve_decision. Defined.

Definition key_enc (k : key) : Z + Z * Z :=
  match k with KLine n => inl n | KArc a b => inr (a, b) end.

Definition key_dec (s : Z + Z * Z) : key :=
  match s with inl n => KLine n | inr (a, b) => KArc a b end.

#[global] Instance key_countable : Countable key.
Proof. apply (inj_countable' key_enc key_dec). by intros []. Defined.

(** What [data_stack.append] saves: [(self.plugin, self.cur_file_dict,
    self.last_line)].  [cur_file_dict] is a reference to the dict stored in
    [self.data] under a file name; since entries of [self.data] are never
    removed or replaced, the reference is modelled by that name, and every
    write through it is a write to [self.data[name]]. *)
Definition context : Type := slot file_plugin * slot string * lineval.

(** [self.data_stack] is either the list made by [__init__] or an alias of
    one of the lists of [self.data_stacks]. *)
Inductive stack_ref := StackOwn | StackOf (c : nat).

(** Callables that can sit in the [sys.settrace] slot: the bound method
    [_trace] of the tracer with a given identity, or something else.  Bound
    methods compare equal when they are bound to the same object. *)
Inductive pyfun := TraceOf (self : nat) | OtherFun (n : nat).

#[global] Instance pyfun_eq_dec : EqDecision pyfun.
Proof. solve_decision. Defined.

(** ** The world outside the tracer *)

(** What the methods reach through [sys], [self.threading], the coroutine
    id function, [self.warn] and [self.should_trace]. *)
Record world := {
  current_thread : nat;                    (* threading.currentThread() *)
  current_coroutine : nat;                 (* the running coroutine *)
  has_gettrace : bool;                     (* hasattr(sys, "gettrace") *)
  trace_hooks : gmap nat pyfun;            (* per-thread sys.settrace slot *)
  warnings : list (option pyfun);          (* calls of self.warn, newest first *)
  oracle_calls : list (string * frame)     (* calls of self.should_trace, newest first *)
}.

Definition set_trace_hooks (v : gmap nat pyfun) (w : world) : world :=
  {| current_thread := current_thread w; current_coroutine := current_coroutine w;
     has_gettrace := has_gettrace w; trace_hooks := v; warnings := warnings w;
     oracle_calls := oracle_calls w |}.

Definition set_warnings (v : list (option pyfun)) (w : world) : world :=
  {| current_thread := current_thread w; current_coroutine := current_coroutine w;
     has_gettrace := has_gettrace w; trace_hooks := trace_hooks w; warnings := v;
     oracle_calls := oracle_calls w |}.

Definition set_oracle_calls (v : list (string * frame)) (w : world) : world :=
  {| current_thread := current_thread w; current_coroutine := current_coroutine w;
     has_gettrace := has_gettrace w; trace_hooks := trace_hooks w; warnings := warnings w;
     oracle_calls := v |}.

Definition set_current_coroutine (v : nat) (w : world) : world :=
  {| current_thread := current_thread w; current_coroutine := v;
     has_gettrace := has_gettrace w; trace_hooks := trace_hooks w; warnings := warnings w;
     oracle_calls := oracle_calls w |}.

Definition set_current_thread (v : nat) (w : world) : world :=
  {| current_thread := v; current_coroutine := current_coroutine w;
     has_gettrace := has_gettrace w; trace_hooks := trace_hooks w; warnings := warnings w;
     oracle_calls := oracle_calls w |}.

(** ** The tracer object *)

(** The attributes of [PyTracer], in the order of [__init__].  [obj_id] is
    the identity of the object ([id(self)]).  [warn] records whether a warn
    callback is set; its calls are logged in the world.  [check_include] is
    not assigned by [__init__] but read by [_trace]; like the other
    collaborators it is set from the collector.  [own_stack] holds the
    contents of the list [__init__] binds to [self.data_stack]; the head of a
    stack is the last element of the Python list.  [coroutine_id_func]
    records whether the function is set; what it returns when called is the
    world's [current_coroutine]. *)
Record PyTracer := {
  obj_id : nat;
  data : gmap string (gset key);
  arcs : bool;
  should_trace : string -> frame -> disposition;
  should_trace_cache : gmap string disposition;
  warn : bool;
  plugin_data : gmap string string;
  check_include : string -> bool;
  threading : bool;
  plugin : slot file_plugin;
  cur_file_dict : slot string;
  last_line : lineval;
  data_stack : stack_ref;
  own_stack : list context;
  data_stacks : gmap nat (list context);
  last_exc_back : option nat;
  last_exc_firstlineno : Z;
  thread : option nat;
  stopped : bool;
  coroutine_id_func : bool;
  last_coroutine : option nat
}.

(** Attribute assignment, one function per attribute the methods assign. *)

Definition set_data (v : gmap string (gset key)) (t : PyTracer) : PyTracer :=
  {| obj_id := obj_id t; data := v; arcs := arcs t; should_trace := should_trace t;
     should_trace_cache := should_trace_cache t; warn := warn t;
     plugin_data := plugin_data t; check_include := check_include t;
     threading := threading t; plugin := plugin t; cur_file_dict := cur_file_dict t;
     last_line := last_line t; data_stack := data_stack t; own_stack := own_stack t;
     data_stacks := data_stacks t; last_exc_back := last_exc_back t;
     last_exc_firstlineno := last_exc_firstlineno t; thread := thread t;
     stopped := stopped t; coroutine_id_func := coroutine_id_func t;
     last_coroutine := last_coroutine t |}.

Definition set_should_trace_cache (v : gmap string disposition) (t : PyTracer) : PyTracer :=
  {| obj_id := obj_id t; data := data t; arcs := arcs t; should_trace := should_trace t;
     should_trace_cache := v; warn := warn t; plugin_data := plugin_data t;
     check_include := check_include t; threading := threading t; plugin := plugin t;
     cur_file_dict := cur_file_dict t; last_line := last_line t; data_stack := data_stack t;
     own_stack := own_stack t; data_stacks := data_stacks t;
     last_exc_back := last_exc_back t; last_exc_firstlineno := last_exc_firstlineno t;
     thread := thread t; stopped := stopped t; coroutine_id_func := coroutine_id_func t;
     last_coroutine := last_coroutine t |}.

Definition set_plugin_data (v : gmap string string) (t : PyTracer) : PyTracer :=
  {| obj_id := obj_id t; data := data t; arcs := arcs t; should_trace := should_trace t;
     should_trace_cache := should_trace_cache t; warn := warn t; plugin_data := v;
     check_include := check_include t; threading := threading t; plugin := plugin t;
     cur_file_dict := cur_file_dict t; last_line := last_line t; data_stack := data_stack t;
     own_stack := own_stack t; data_stacks := data_stacks t;
     last_exc_back := last_exc_back t; last_exc_firstlineno := last_exc_firstlineno t;
     thread := thread t; stopped := stopped t; coroutine_id_func := coroutine_id_func t;
     last_coroutine := last_coroutine t |}.

Definition set_plugin (v : slot file_plugin) (t : PyTracer) : PyTracer :=
  {| obj_id := obj_id t; data := data t; arcs := arcs t; should_trace := should_trace t;
     should_trace_cache := should_trace_cache t; warn := warn t;
     plugin_data := plugin_data t; check_include := check_include t;
     threading := threading t; plugin := v; cur_file_dict := cur_file_dict t;
     last_line := last_line t; data_stack := data_stack t; own_stack := own_stack t;
     data_stacks := data_stacks t; last_exc_back := last_exc_back t;
     last_exc_firstlineno := last_exc_firstlineno t; thread := thread t;
     stopped := stopped t; coroutine_id_func := coroutine_id_func t;
     last_coroutine := last_coroutine t |}.

Definition set_cur_file_dict (v : slot string) (t : PyTracer) : PyTracer :=
  {| obj_id := obj_id t; data := data t; arcs := arcs t; should_trace := should_trace t;
     should_trace_cache := should_trace_cache t; warn := warn t;
     plugin_data := plugin_data t; check_include := check_include t;
     threading := threading t; plugin := plugin t; cur_file_dict := v;
     last_line := last_line t; data_stack := data_stack t; own_stack := own_stack t;
     data_stacks := data_stacks t; last_exc_back := last_exc_back t;
     last_exc_firstlineno := last_exc_firstlineno t; thread := thread t;
     stopped := stopped t; coroutine_id_func := coroutine_id_func t;
     last_coroutine := last_coroutine t |}.

Definition set_last_line (v : lineval) (t : PyTracer) : PyTracer :=
  {| obj_id := obj_id t; data := data t; arcs := arcs t; should_trace := should_trace t;
     should_trace_cache := should_trace_cache t; warn := warn t;
     plugin_data := plugin_data t; check_include := check_include t;
     threading := threading t; plugin := plugin t; cur_file_dict := cur_file_dict t;
     last_line := v; data_stack := data_stack t; own_stack := own_stack t;
     data_stacks := data_stacks t; last_exc_back := last_exc_back t;
     last_exc_firstlineno := last_exc_firstlineno t; thread := thread t;
     stopped := stopped t; coroutine_id_func := coroutine_id_func t;
     last_coroutine := last_coroutine t |}.

Definition set_data_stack (v : stack_ref) (t : PyTracer) : PyTracer :=
  {| obj_id := obj_id t; data := data t; arcs := arcs t; should_trace := should_trace t;
     should_trace_cache := should_trace_cache t; warn := warn t;
     plugin_data := plugin_data t; check_include := check_include t;
     threading := threading t; plugin := plugin t; cur_file_dict := cur_file_dict t;
     last_line := last_line t; data_stack := v; own_stack := own_stack t;
     data_stacks := data_stacks t; last_exc_back := last_exc_back t;
     last_exc_firstlineno := last_exc_firstlineno t; thread := thread t;
     stopped := stopped t; coroutine_id_func := coroutine_id_func t;
     last_coroutine := last_coroutine t |}.

Definition set_own_stack (v : list context) (t : PyTracer) : PyTracer :=
  {| obj_id := obj_id t; data := data t; arcs := arcs t; should_trace := should_trace t;
     should_trace_cache := should_trace_cache t; warn := warn t;
     plugin_data := plugin_data t; check_include := check_include t;
     threading := threading t; plugin := plugin t; cur_file_dict := cur_file_dict t;
     last_line := last_line t; data_stack := data_stack t; own_stack := v;
     data_stacks := data_stacks t; last_exc_back := last_exc_back t;
     last_exc_firstlineno := last_exc_firstlineno t; thread := thread t;
     stopped := stopped t; coroutine_id_func := coroutine_id_func t;
     last_coroutine := last_coroutine t |}.

Definition set_data_stacks (v : gmap nat (list context)) (t : PyTracer) : PyTracer :=
  {| obj_id := obj_id t; data := data t; arcs := arcs t; should_trace := should_trace t;
     should_trace_cache := should_trace_cache t; warn := warn t;
     plugin_data := plugin_data t; check_include := check_include t;
     threading := threading t; plugin := plugin t; cur_file_dict := cur_file_dict t;
     last_line := last_line t; data_stack := data_stack t; own_stack := own_stack t;
     data_stacks := v; last_exc_back := last_exc_back t;
     last_exc_firstlineno := last_exc_firstlineno t; thread := thread t;
     stopped := stopped t; coroutine_id_func := coroutine_id_func t;
     last_coroutine := last_coroutine t |}.

Definition set_last_exc_back (v : option nat) (t : PyTracer) : PyTracer :=
  {| obj_id := obj_id t; data := data t; arcs := arcs t; should_trace := should_trace t;
     should_trace_cache := should_trace_cache t; warn := warn t;
     plugin_data := plugin_data t; check_include := check_include t;
     threading := threading t; plugin := plugin t; cur_file_dict := cur_file_dict t;
     last_line := last_line t; data_stack := data_stack t; own_stack := own_stack t;
     data_stacks := data_stacks t; last_exc_back := v;
     last_exc_firstlineno := last_exc_firstlineno t; thread := thread t;
     stopped := stopped t; coroutine_id_func := coroutine_id_func t;
     last_coroutine := last_coroutine t |}.

Definition set_last_exc_firstlineno (v : Z) (t : PyTracer) : PyTracer :=
  {| obj_id := obj_id t; data := data t; arcs := arcs t; should_trace := should_trace t;
     should_trace_cache := should_trace_cache t; warn := warn t;
     plugin_data := plugin_data t; check_include := check_include t;
     threading := threading t; plugin := plugin t; cur_file_dict := cur_file_dict t;
     last_line := last_line t; data_stack := data_stack t; own_stack := own_stack t;
     data_stacks := data_stacks t; last_exc_back := last_exc_back t;
     last_exc_firstlineno := v; thread := thread t; stopped := stopped t;
     coroutine_id_func := coroutine_id_func t; last_coroutine := last_coroutine t |}.

Definition set_thread (v : option nat) (t : PyTracer) : PyTracer :=
  {| obj_id := obj_id t; data := data t; arcs := arcs t; should_trace := should_trace t;
     should_trace_cache := should_trace_cache t; warn := warn t;
     plugin_data := plugin_data t; check_include := check_include t;
     threading := threading t; plugin := plugin t; cur_file_dict := cur_file_dict t;
     last_line := last_line t; data_stack := data_stack t; own_stack := own_stack t;
     data_stacks := data_stacks t; last_exc_back := last_exc_back t;
     last_exc_firstlineno := last_exc_firstlineno t; thread := v; stopped := stopped t;
     coroutine_id_func := coroutine_id_func t; last_coroutine := last_coroutine t |}.

Definition set_stopped (v : bool) (t : PyTracer) : PyTracer :=
  {| obj_id := obj_id t; data := data t; arcs := arcs t; should_trace := should_trace t;
     should_trace_cache := should_trace_cache t; warn := warn t;
     plugin_data := plugin_data t; check_include := check_include t;
     threading := threading t; plugin := plugin t; cur_file_dict := cur_file_dict t;
     last_line := last_line t; data_stack := data_stack t; own_stack := own_stack t;
     data_stacks := data_stacks t; last_exc_back := last_exc_back t;
     last_exc_firstlineno := last_exc_firstlineno t; thread := thread t; stopped := v;
     coroutine_id_func := coroutine_id_func t; last_coroutine := last_coroutine t |}.

Definition set_last_coroutine (v : option nat) (t : PyTracer) : PyTracer :=
  {| obj_id := obj_id t; data := data t; arcs := arcs t; should_trace := should_trace t;
     should_trace_cache := should_trace_cache t; warn := warn t;
     plugin_data := plugin_data t; check_include := check_include t;
     threading := threading t; plugin := plugin t; cur_file_dict := cur_file_dict t;
     last_line := last_line t; data_stack := data_stack t; own_stack := own_stack t;
     data_stacks := data_stacks t; last_exc_back := last_exc_back t;
     last_exc_firstlineno := last_exc_firstlineno t; thread := thread t;
     stopped := stopped t; coroutine_id_func := coroutine_id_func t; last_coroutine := v |}.

(** ** A state and exception monad for the methods

    A method either returns a value or raises; in both cases the mutations
    done so far stay in the tracer and the world. *)

Inductive exn := IndexError | TypeError.

Inductive outcome (A : Type) :=
| Ok (a : A) (t : PyTracer) (w : world)
| Raise (e : exn) (t : PyTracer) (w : world).
Arguments Ok {A} a t w.
Arguments Raise {A} e t w.

Definition M (A : Type) : Type := PyTracer -> world -> outcome A.

Definition ret {A} (a : A) : M A := fun t w => Ok a t w.

Definition bind {A B} (m : M A) (k : A -> M B) : M B :=
  fun t w =>
    match m t w with
    | Ok a t' w' => k a t' w'
    | Raise e t' w' => Raise e t' w'
    end.

Definition raise {A} (e : exn) : M A := fun t w => Raise e t w.
Definition gets {A} (attr : PyTracer -> A) : M A := fun t w => Ok (attr t) t w.
Definition gets_world {A} (attr : world -> A) : M A := fun t w => Ok (attr w) t w.
Definition modify (f : PyTracer -> PyTracer) : M unit := fun t w => Ok tt (f t) w.
Definition modify_world (f : world -> world) : M unit := fun t w => Ok tt t (f w).

Declare Scope py_scope.
Delimit Scope py_scope with py.
Notation "x <- m ;; k" := (bind m (fun x => k))
  (at level 100, m at next level, right associativity) : py_scope.
Notation "m ;;; k" := (bind m (fun _ => k))
  (at level 100, right associativity) : py_scope.

Definition when (b : bool) (m : M unit) : M unit := if b then m else ret tt.

Fixpoint for_each (l : list Z) (body : Z -> M unit) : M unit :=
  match l with
  | [] => ret tt
  | x :: l' => (body x ;;; for_each l' body)%py
  end.

(** The state and the world an outcome ends in. *)
Definition final_tracer {A} (o : outcome A) : PyTracer :=
  match o with Ok _ t _ | Raise _ t _ => t end.
Definition final_world {A} (o : outcome A) : world :=
  match o with Ok _ _ w | Raise _ _ w => w end.

Definition map_outcome {A} (f : PyTracer -> PyTracer) (o : outcome A) : outcome A :=
  match o with
  | Ok a t w => Ok a (f t) w
  | Raise e t w => Raise e (f t) w
  end.

(** ** Python helpers *)

(** Truth value of a string or [None]: [None] and the empty string are
    false. *)
Definition str_truthy (s : option string) : bool :=
  match s with
  | Some s => negb (String.eqb s EmptyString)
  | None => false
  end.

Definition slot_of_option {A} (o : option A) : slot A :=
  match o with Some a => SObj a | None => SNone end.

(** [range(a, b)] over the integers. *)
Definition py_range (a b : Z) : list Z :=
  (fun i => a + Z.of_nat i) <$> seq 0 (Z.to_nat (b - a)).

(** [defaultdict(list).__getitem__] creates the missing entry. *)
Definition touch (c : nat) (m : gmap nat (list context)) : gmap nat (list context) :=
  match m !! c with
  | Some _ => m
  | None => <[c := []]> m
  end.

(** ** The data store *)

(** [d[k] = None] on the dict stored under [name]: set insertion. *)
Definition record_key (name : string) (k : key) (d : gmap string (gset key))
  : gmap string (gset key) :=
  <[name := {[k]} ∪ (d !!! name)]> d.

(** Truth value of [self.cur_file_dict]: the empty list, [None] and an
    empty dict are all false. *)
Definition cur_file_dict_truthy (t : PyTracer) : bool :=
  match cur_file_dict t with
  | SObj name => bool_decide (data t !!! name ≠ (∅ : gset key))
  | _ => false
  end.

(** The tuple [(self.last_line, n)] as a dict key; a tuple that holds the
    list [[0]] is unhashable. *)
Definition arc_key (l : lineval) (n : Z) : option key :=
  match l with
  | LNo a => Some (KArc a n)
  | LInit => None
  end.

(** [self.cur_file_dict[n] = None] for a line number [n].  On the empty
    list of [__init__] every index is out of range. *)
Definition setitem_line (n : Z) : M unit :=
  (d <- gets cur_file_dict ;;
   match d with
   | SObj name => modify (fun t => set_data (record_key name (KLine n) (data t)) t)
   | SInit => raise IndexError
   | SNone => raise TypeError
   end)%py.

(** [self.cur_file_dict[(self.last_line, n)] = None]. *)
Definition setitem_arc (n : Z) : M unit :=
  (d <- gets cur_file_dict ;;
   l <- gets last_line ;;
   match d, arc_key l n with
   | SObj name, Some k => modify (fun t => set_data (record_key name k (data t)) t)
   | _, _ => raise TypeError
   end)%py.

(** ** The context stack *)

Definition cur_stack (t : PyTracer) : list context :=
  match data_stack t with
  | StackOwn => own_stack t
  | StackOf c => data_stacks t !!! c
  end.

Definition set_cur_stack (l : list context) (t : PyTracer) : PyTracer :=
  match data_stack t with
  | StackOwn => set_own_stack l t
  | StackOf c => set_data_stacks (<[c := l]> (data_stacks t)) t
  end.

(** [self.data_stack = self.data_stacks[c]] *)
Definition select_stack (c : nat) (t : PyTracer) : PyTracer :=
  set_data_stack (StackOf c) (set_data_stacks (touch c (data_stacks t)) t).

Definition get_context (t : PyTracer) : context :=
  (plugin t, cur_file_dict t, last_line t).

Definition set_context (c : context) (t : PyTracer) : PyTracer :=
  set_last_line c.2 (set_cur_file_dict c.1.2 (set_plugin c.1.1 t)).

(** [self.data_stack.append((self.plugin, self.cur_file_dict, self.last_line))] *)
Definition push_context : M unit :=
  modify (fun t => set_cur_stack (get_context t :: cur_stack t) t).

(** [self.plugin, self.cur_file_dict, self.last_line = self.data_stack.pop()] *)
Definition pop_context : M unit :=
  (s <- gets cur_stack ;;
   match s with
   | [] => raise IndexError
   | c :: l => modify (fun t => set_context c (set_cur_stack l t))
   end)%py.

(** ** [PyTracer._trace] *)

(** Lines 62-73: a pending exception marker whose frame is the frame of the
    incoming event means that a return event was skipped; it is replayed.
    The marker is cleared whether or not the frames are the same. *)
Definition replay_skipped_return (fr : frame) : M unit :=
  (exc_back <- gets last_exc_back ;;
   match exc_back with
   | Some back =>
       when (Nat.eqb (f_id fr) back)
         (a <- gets arcs ;;
          nonempty <- gets cur_file_dict_truthy ;;
          when (a && nonempty)
            (first <- gets last_exc_firstlineno ;;
             setitem_arc (- first)) ;;;
          id_func <- gets coroutine_id_func ;;
          when id_func
            (c <- gets_world current_coroutine ;;
             modify (select_stack c)) ;;;
          pop_context) ;;;
       modify (set_last_exc_back None)
   | None => ret tt
   end)%py.

(** Lines 85-88: the cache of dispositions, filled from [should_trace]. *)
Definition resolve_disposition (fr : frame) : M disposition :=
  (let filename := co_filename (f_code fr) in
   cached <- gets (fun t => should_trace_cache t !! filename) ;;
   match cached with
   | Some disp => ret disp
   | None =>
       oracle <- gets should_trace ;;
       let disp := oracle filename fr in
       modify_world (fun w => set_oracle_calls ((filename, fr) :: oracle_calls w) w) ;;;
       modify (fun t => set_should_trace_cache (<[filename := disp]> (should_trace_cache t)) t) ;;;
       ret disp
   end)%py.

(** Lines 92-102: the name under which the frame is recorded, if any. *)
Definition tracename_of (include : string -> bool) (disp : disposition) (fr : frame)
  : option string :=
  if disp_trace disp then
    match disp_plugin disp with
    | Some p =>
        match dynamic_source_file_name p with
        | Some dyn_func =>
            match dyn_func (disp_source_filename disp) fr with
            | Some tracename =>
                if str_truthy (Some tracename) then
                  if include tracename then Some tracename else None
                else Some tracename
            | None => None
            end
        | None => disp_source_filename disp
        end
    | None => disp_source_filename disp
    end
  else None.

(** Lines 75-112: the call event. *)
Definition on_call (fr : frame) : M unit :=
  (id_func <- gets coroutine_id_func ;;
   when id_func
     (c <- gets_world current_coroutine ;;
      modify (select_stack c) ;;;
      modify (set_last_coroutine (Some c))) ;;;
   push_context ;;;
   disp <- resolve_disposition fr ;;
   modify (set_plugin SNone) ;;;
   modify (set_cur_file_dict SNone) ;;;
   include <- gets check_include ;;
   match tracename_of include disp fr with
   | Some tracename =>
       when (str_truthy (Some tracename))
         (known <- gets (fun t => bool_decide (is_Some (data t !! tracename))) ;;
          when (negb known)
            (modify (fun t => set_data (<[tracename := ∅]> (data t)) t) ;;;
             match disp_plugin disp with
             | Some p =>
                 modify (fun t => set_plugin_data
                                    (<[tracename := plugin_name p]> (plugin_data t)) t)
             | None => ret tt
             end) ;;;
          modify (set_cur_file_dict (SObj tracename)) ;;;
          modify (set_plugin (slot_of_option (disp_plugin disp))))
   | None => ret tt
   end ;;;
   (* Set the last_line to -1 because the next arc will be entering a
      code block, indicated by (-1, n). *)
   modify (set_last_line (LNo (-1))))%py.

(** Lines 115-118: the lines a line event covers. *)
Definition line_span (p : slot file_plugin) (fr : frame) : Z * Z :=
  match p with
  | SObj p => line_number_range p fr
  | _ => (f_lineno fr, f_lineno fr)
  end.

(** Lines 113-126: the line event. *)
Definition on_line (fr : frame) : M unit :=
  (p <- gets plugin ;;
   let '(lineno_from, lineno_to) := line_span p fr in
   when (negb (Z.eqb lineno_from (-1)))
     (d <- gets cur_file_dict ;;
      when (match d with SNone => false | _ => true end)
        (a <- gets arcs ;;
         if a then setitem_arc lineno_from
         else for_each (py_range lineno_from (lineno_to + 1)) setitem_line) ;;;
      modify (set_last_line (LNo lineno_to))))%py.

(** Lines 127-137: the return event. *)
Definition on_return (fr : frame) : M unit :=
  (a <- gets arcs ;;
   nonempty <- gets cur_file_dict_truthy ;;
   when (a && nonempty)
     (let first := co_firstlineno (f_code fr) in
      setitem_arc (- first)) ;;;
   (* Leaving this function, pop the filename stack. *)
   id_func <- gets coroutine_id_func ;;
   when id_func
     (c <- gets_world current_coroutine ;;
      modify (select_stack c) ;;;
      modify (set_last_coroutine (Some c))) ;;;
   pop_context)%py.

(** Lines 138-140: the exception event. *)
Definition on_exception (fr : frame) : M unit :=
  (modify (set_last_exc_back (f_back fr)) ;;;
   modify (set_last_exc_firstlineno (co_firstlineno (f_code fr))))%py.

Definition handle (fr : frame) (ev : event) : M unit :=
  match ev with
  | EvCall => on_call fr
  | EvLine => on_line fr
  | EvReturn => on_return fr
  | EvException => on_exception fr
  | EvOther => ret tt
  end.

(** The trace function passed to [sys.settrace].  It returns the bound
    method [self._trace], or [None] through the bare [return] taken once
    the tracer is stopped. *)
Definition _trace (fr : frame) (ev : event) : M (option pyfun) :=
  (s <- gets stopped ;;
   if s then ret None
   else
     replay_skipped_return fr ;;;
     handle fr ev ;;;
     self <- gets obj_id ;;
     ret (Some (TraceOf self)))%py.

(** ** [start], [stop], [get_stats] *)

(** [sys.settrace(f)] and [sys.gettrace()] act on the calling thread. *)
Definition sys_settrace (f : option pyfun) : M unit :=
  modify_world (fun w =>
    set_trace_hooks
      (match f with
       | Some g => <[current_thread w := g]> (trace_hooks w)
       | None => delete (current_thread w) (trace_hooks w)
       end) w).

Definition sys_gettrace (w : world) : option pyfun :=
  trace_hooks w !! current_thread w.

Definition start : M pyfun :=
  (th <- gets threading ;;
   when th
     (cur <- gets_world current_thread ;;
      modify (set_thread (Some cur))) ;;;
   self <- gets obj_id ;;
   sys_settrace (Some (TraceOf self)) ;;;
   ret (TraceOf self))%py.

Definition stop : M unit :=
  (modify (set_stopped true) ;;;
   th <- gets threading ;;
   started <- gets thread ;;
   cur <- gets_world current_thread ;;
   if th && bool_decide (started ≠ Some cur) then
     (* Called on a different thread than started us: we can't unhook
        ourselves, but we've set the flag that we should stop. *)
     ret tt
   else
     has <- gets_world has_gettrace ;;
     warn_set <- gets warn ;;
     when (has && warn_set)
       (hook <- gets_world sys_gettrace ;;
        self <- gets obj_id ;;
        when (bool_decide (hook ≠ Some (TraceOf self)))
          (modify_world (fun w => set_warnings (hook :: warnings w) w))) ;;;
     sys_settrace None)%py.

(** [get_stats] returns a dictionary of statistics, or [None]. *)
Definition get_stats (t : PyTracer) : option (gmap string Z) := None.

(** ** [__repr__] *)

(** [format(n, "x")]: lower-case hexadecimal digits, without a prefix. *)
Definition hex (n : nat) : string :=
  match N.of_nat n with
  | N0 => "0"
  | Npos p => HexString.Raw.of_pos p ""
  end.

(** [sum(len(v) for v in self.data.values())] *)
Definition recorded_keys (t : PyTracer) : nat :=
  sum_list_with (fun p => size p.2) (map_to_list (data t)).

(** [__repr__] formats [id(self)], the number of keys over all the records
    and the number of records. *)
Definition __repr__ (t : PyTracer) : string :=
  "<PyTracer at 0x" ++ hex (obj_id t) ++ ": " ++ pretty (recorded_keys t)
    ++ " lines in " ++ pretty (size (data t)) ++ " files>".

(** ** Delivering events *)

(** One delivery of the interpreter: the coroutine running at that moment,
    the frame and the event. *)
Record delivery := {
  dl_coroutine : nat;
  dl_frame : frame;
  dl_event : event
}.

Definition deliver (d : delivery) : M (option pyfun) :=
  fun t w => _trace (dl_frame d) (dl_event d) t (set_current_coroutine (dl_coroutine d) w).

(** The interpreter delivers the events one after the other; a hook that
    raises ends the delivery. *)
Fixpoint run (ds : list delivery) : M unit :=
  match ds with
  | [] => ret tt
  | d :: ds' => (deliver d ;;; run ds')%py
  end.

(** The tracer as [__init__] and the collector leave it: empty data, empty
    cache, and the collaborators given. *)
Definition new_tracer (id : nat) (arcs_flag : bool)
    (oracle : string -> frame -> disposition) (include : string -> bool)
    (with_threading with_warn with_id_func : bool) : PyTracer :=
  {| obj_id := id; data := ∅; arcs := arcs_flag; should_trace := oracle;
     should_trace_cache := ∅; warn := with_warn; plugin_data := ∅;
     check_include := include; threading := with_threading;
     plugin := SInit; cur_file_dict := SInit; last_line := LInit;
     data_stack := StackOwn; own_stack := []; data_stacks := ∅;
     last_exc_back := None; last_exc_firstlineno := 0; thread := None;
     stopped := false; coroutine_id_func := with_id_func; last_coroutine := None |}.

Definition new_world (th : nat) : world :=
  {| current_thread := th; current_coroutine := 0; has_gettrace := true;
     trace_hooks := ∅; warnings := []; oracle_calls := [] |}.

(** * Vocabulary of the properties *)

Definition preserves {X A} (obs : PyTracer -> world -> X) (m : M A) : Prop :=
  forall t w, obs (final_tracer (m t w)) (final_world (m t w)) = obs t w.

(** The attributes no event assigns: the identity of the tracer, the
    collaborators set from the collector, the thread and the stopped flag. *)
Definition settings (t : PyTracer) :=
  (obj_id t, arcs t, warn t, threading t, thread t, stopped t, coroutine_id_func t,
   should_trace t, check_include t).

#[global] Instance stack_ref_eq_dec : EqDecision stack_ref.
Proof. solve_decision. Defined.

#[global] Instance event_eq_dec : EqDecision event.
Proof. solve_decision. Defined.

Definition stack_at (r : stack_ref) (t : PyTracer) : list context :=
  match r with
  | StackOwn => own_stack t
  | StackOf c => data_stacks t !!! c
  end.

(** The stack a call or return event of coroutine [c] works on. *)
Definition active_ref (c : nat) (t : PyTracer) : stack_ref :=
  if coroutine_id_func t then StackOf c else data_stack t.

(** The stack selection at the head of the call and return handlers. *)
Definition selected (c : nat) (remember : bool) (t : PyTracer) : PyTracer :=
  if coroutine_id_func t then
    (if remember then set_last_coroutine (Some c) (select_stack c t) else select_stack c t)
  else t.

(** The tracer after the exit arc [(last_line, -first)] has been recorded, as
    the return handler and the replay of a skipped return record it: only in
    arc mode and only into a record that is not empty. *)
Definition exit_arc_recorded (first : Z) (t : PyTracer) : PyTracer :=
  if arcs t && cur_file_dict_truthy t then
    match cur_file_dict t, last_line t with
    | SObj name, LNo l => set_data (record_key name (KArc l (- first)) (data t)) t
    | _, _ => t
    end
  else t.

(** The tracer after a return event that pops [x] and leaves [l]. *)
Definition returned (fr : frame) (c : nat) (x : context) (l : list context)
    (t : PyTracer) : PyTracer :=
  set_context x (set_cur_stack l
    (selected c true (exit_arc_recorded (co_firstlineno (f_code fr)) t))).

(** The store after a [for] loop has recorded the lines [ls] under [name]. *)
Definition record_lines (name : string) (ls : list Z) (d : gmap string (gset key))
  : gmap string (gset key) :=
  foldl (fun d n => record_key name (KLine n) d) d ls.

(** The tracer after a line event that does not raise. *)
Definition line_recorded (fr : frame) (t : PyTracer) : PyTracer :=
  let '(lineno_from, lineno_to) := line_span (plugin t) fr in
  if Z.eqb lineno_from (-1) then t
  else
    set_last_line (LNo lineno_to)
      match cur_file_dict t, arcs t, last_line t with
      | SObj name, false, _ =>
          set_data (record_lines name (py_range lineno_from (lineno_to + 1)) (data t)) t
      | SObj name, true, LNo l =>
          set_data (record_key name (KArc l lineno_from) (data t)) t
      | _, _, _ => t
      end.

(** The disposition a call event for [fr] resolves to, and the name it is
    recorded under, if any. *)
Definition resolved (t : PyTracer) (fr : frame) : disposition :=
  let filename := co_filename (f_code fr) in
  default (should_trace t filename fr) (should_trace_cache t !! filename).

Definition traced_name (t : PyTracer) (fr : frame) : option string :=
  match tracename_of (check_include t) (resolved t fr) fr with
  | Some tracename => if str_truthy (Some tracename) then Some tracename else None
  | None => None
  end.

(** What a call event that finds no marker pending establishes. *)
Record called (fr : frame) (t : PyTracer) (w : world) (t' : PyTracer) (w' : world)
  : Prop := {
  called_stacks : forall r,
    stack_at r t' =
      if decide (r = active_ref (current_coroutine w) t)
      then get_context t :: stack_at r t else stack_at r t;
  called_data_stack : data_stack t' = active_ref (current_coroutine w) t;
  called_last_line : last_line t' = LNo (-1);
  called_last_coroutine :
    last_coroutine t' =
      if coroutine_id_func t then Some (current_coroutine w) else last_coroutine t;
  called_cache :
    should_trace_cache t' =
      <[co_filename (f_code fr) := resolved t fr]> (should_trace_cache t);
  called_oracle :
    oracle_calls w' =
      match should_trace_cache t !! co_filename (f_code fr) with
      | Some _ => oracle_calls w
      | None => (co_filename (f_code fr), fr) :: oracle_calls w
      end;
  called_dict : cur_file_dict t' = slot_of_option (traced_name t fr);
  called_plugin :
    plugin t' =
      match traced_name t fr with
      | Some _ => slot_of_option (disp_plugin (resolved t fr))
      | None => SNone
      end;
  called_data :
    data t' =
      match traced_name t fr with
      | Some name =>
          match data t !! name with
          | Some _ => data t
          | None => <[name := ∅]> (data t)
          end
      | None => data t
      end
}.

(** The attributes the handlers of line and return events do not assign. *)
Definition untouched_by_events (t : PyTracer) :=
  (settings t, should_trace_cache t, plugin_data t, last_exc_back t, last_exc_firstlineno t).

Definition at_delivery (d : delivery) (w : world) : world :=
  set_current_coroutine (dl_coroutine d) w.

(** [nested b ds]: line events and complete call...return blocks; with the
    coroutine id function set ([b = true]) a return event is delivered in
    the coroutine of its call event. *)
Inductive nested (b : bool) : list delivery -> Prop :=
| nested_nil : nested b []
| nested_line d ds :
    dl_event d = EvLine -> nested b ds -> nested b (d :: ds)
| nested_call c body r ds :
    dl_event c = EvCall -> dl_event r = EvReturn ->
    (b = true -> dl_coroutine r = dl_coroutine c) ->
    nested b body -> nested b ds ->
    nested b (c :: body ++ r :: ds).

(** [blocks b ds]: a sequence of complete call...return blocks, the shape of
    what a hook set outside any traced frame is delivered. *)
Inductive blocks (b : bool) : list delivery -> Prop :=
| blocks_nil : blocks b []
| blocks_call c body r ds :
    dl_event c = EvCall -> dl_event r = EvReturn ->
    (b = true -> dl_coroutine r = dl_coroutine c) ->
    nested b body -> blocks b ds ->
    blocks b (c :: body ++ r :: ds).

(** Inside a call: no marker pending, and the context is not the one
    [__init__] made. *)
Definition inside (t : PyTracer) : Prop :=
  stopped t = false /\ last_exc_back t = None /\
  cur_file_dict t <> SInit /\ last_line t <> LInit.

(** [t'] has the plugin, the per-file dict and the stacks of [t]. *)
Definition restored (t t' : PyTracer) : Prop :=
  plugin t' = plugin t /\ cur_file_dict t' = cur_file_dict t /\
  settings t' = settings t /\
  (coroutine_id_func t = false -> data_stack t' = data_stack t) /\
  (forall r, stack_at r t' = stack_at r t).

(** The line numbers a line event stands for: the line of the frame, or the
    range a file tracer plugin reports; a range that starts at -1 stands
    for no line. *)
Definition lines_of_event (p : slot file_plugin) (d : delivery) : list Z :=
  match dl_event d with
  | EvLine =>
      let '(lineno_from, lineno_to) := line_span p (dl_frame d) in
      if Z.eqb lineno_from (-1) then [] else py_range lineno_from (lineno_to + 1)
  | _ => []
  end.

Definition executed_lines (p : slot file_plugin) (ds : list delivery) : list Z :=
  concat (lines_of_event p <$> ds).

(** The raw file name [fn] has the disposition [dsp]: it is cached, or the
    oracle gives it for every frame. *)
Definition unit_disposition (t : PyTracer) (fn : string) (dsp : disposition) : Prop :=
  match should_trace_cache t !! fn with
  | Some d => d = dsp
  | None => forall fr, should_trace t fn fr = dsp
  end.

(** Every call event of [ds] is a call into the file [fn], recorded under
    [name]. *)
Definition calls_into (include : string -> bool) (fn : string) (dsp : disposition)
    (name : string) (ds : list delivery) : Prop :=
  Forall (fun d => dl_event d = EvCall ->
                   co_filename (f_code (dl_frame d)) = fn /\
                   tracename_of include dsp (dl_frame d) = Some name) ds.

(** [self.data[name]] made if missing. *)
Definition store_with (name : string) (d : gmap string (gset key)) : gmap string (gset key) :=
  match d !! name with
  | Some _ => d
  | None => <[name := ∅]> d
  end.

(** In a frame of the unit: line mode, the record of the unit is the
    live one, with the plugin of its disposition. *)
Definition in_unit (fn name : string) (dsp : disposition) (t : PyTracer) : Prop :=
  arcs t = false /\ unit_disposition t fn dsp /\
  cur_file_dict t = SObj name /\ plugin t = slot_of_option (disp_plugin dsp) /\
  is_Some (data t !! name).

(** The calls of the oracle for the raw file name [fn], newest first. *)
Definition oracle_calls_for (fn : string) (w : world) : list (string * frame) :=
  filter (fun p => p.1 = fn) (oracle_calls w).

Definition is_call_into (fn : string) (d : delivery) : Prop :=
  dl_event d = EvCall /\ co_filename (f_code (dl_frame d)) = fn.

#[global] Instance is_call_into_dec fn d : Decision (is_call_into fn d).
Proof. unfold is_call_into. apply _. Defined.

(** The frame of the first call event of [ds] into the file [fn]. *)
Definition first_call (fn : string) (ds : list delivery) : option frame :=
  dl_frame <$> head (filter (is_call_into fn) ds).

Definition respects {A} (erase : PyTracer -> PyTracer) (m : M A) : Prop :=
  forall t t' w, erase t = erase t' ->
    map_outcome erase (m t w) = map_outcome erase (m t' w).

(** The first line remembered by the exception event is read by the replay
    of a skipped return only. *)
Definition forget_origin (t : PyTracer) : PyTracer := set_last_exc_firstlineno 0 t.

(** The tracer after the replay has popped [x] and left [l]. *)
Definition replayed (c : nat) (x : context) (l : list context) (t : PyTracer) : PyTracer :=
  set_last_exc_back None
    (set_context x (set_cur_stack l
       (selected c false (exit_arc_recorded (last_exc_firstlineno t) t)))).

Definition delivery_of (c : nat) (fr : frame) (ev : event) : delivery :=
  {| dl_coroutine := c; dl_frame := fr; dl_event := ev |}.

(** What is left of the trace function once the replay is done. *)
Definition after_replay (fr : frame) (ev : event) : M (option pyfun) :=
  (handle fr ev ;;; self <- gets obj_id ;; ret (Some (TraceOf self)))%py.

(** The trace function reaches the world through the oracle only. *)
Definition surroundings (w : world) :=
  (current_thread w, current_coroutine w, has_gettrace w, trace_hooks w, warnings w).

(** Whether a computation returned, rather than raised. *)
Definition returns {A} (o : outcome A) : bool :=
  match o with Ok _ _ _ => true | Raise _ _ _ => false end.

(** An oracle that traces every file under its own name, and one that
    traces none. *)
Definition trace_every_file (filename : string) (fr : frame) : disposition :=
  {| disp_trace := true; disp_source_filename := Some filename; disp_plugin := None |}.

Definition trace_no_file (filename : string) (fr : frame) : disposition :=
  {| disp_trace := false; disp_source_filename := None; disp_plugin := None |}.

Definition frame_at (id : nat) (back : option nat) (filename : string) (first line : Z)
  : frame :=
  {| f_id := id; f_back := back;
     f_code := {| co_filename := filename; co_firstlineno := first |};
     f_lineno := line |}.

(** A tracer fresh from [__init__] and the collector, in line mode or arc
    mode, with or without a coroutine id function. *)
Definition fresh_tracer (arcs_flag : bool) (oracle : string -> frame -> disposition)
    (with_id_func : bool) : PyTracer :=
  new_tracer 1 arcs_flag oracle (fun _ => true) false false with_id_func.

(** The module [main.py] calls, from its line 5, the function [f] of
    [f.py], whose body is the lines 10 to 12. *)
Definition main_frame (line : Z) : frame := frame_at 1 None "main.py" 1 line.
Definition f_frame (id : nat) (line : Z) : frame := frame_at id (Some 1%nat) "f.py" 10 line.

Definition call_of_f (id : nat) : list delivery :=
  [ delivery_of 0 (main_frame 5) EvLine;
    delivery_of 0 (f_frame id 10) EvCall;
    delivery_of 0 (f_frame id 10) EvLine;
    delivery_of 0 (f_frame id 11) EvLine;
    delivery_of 0 (f_frame id 12) EvLine;
    delivery_of 0 (f_frame id 12) EvReturn ].

Definition first_call_of_f : list delivery :=
  delivery_of 0 (main_frame 1) EvCall :: call_of_f 2.

Definition second_call_of_f : list delivery :=
  (call_of_f 3 ++ [delivery_of 0 (main_frame 5) EvReturn])%list.

(** The events of [f] alone, called twice. *)
Definition f_called_twice : list delivery :=
  (tail (call_of_f 2) ++ tail (call_of_f 3))%list.

(** Two coroutines: coroutine 1 runs [a] of [a.py] (lines 1 and 2),
    coroutine 2 runs [b] of [b.py] (line 50); coroutine 2 is switched in
    while [a] is between its two lines. *)
Definition a_frame (line : Z) : frame := frame_at 10 None "a.py" 1 line.
Definition b_frame (line : Z) : frame := frame_at 20 None "b.py" 50 line.

Definition stream_a : list delivery :=
  [ delivery_of 1 (a_frame 1) EvCall; delivery_of 1 (a_frame 1) EvLine;
    delivery_of 1 (a_frame 2) EvLine; delivery_of 1 (a_frame 2) EvReturn ].

Definition stream_b : list delivery :=
  [ delivery_of 2 (b_frame 50) EvCall; delivery_of 2 (b_frame 50) EvLine;
    delivery_of 2 (b_frame 50) EvReturn ].

Definition streams_interleaved : list delivery :=
  [ delivery_of 1 (a_frame 1) EvCall; delivery_of 1 (a_frame 1) EvLine;
    delivery_of 2 (b_frame 50) EvCall; delivery_of 2 (b_frame 50) EvLine;
    delivery_of 1 (a_frame 2) EvLine;
    delivery_of 2 (b_frame 50) EvReturn; delivery_of 1 (a_frame 2) EvReturn ].

(** Coroutine 1 runs [m] of [m.py], which calls [a] of [a.py] between its
    lines 1 and 2; coroutine 2 runs [b] of [b.py].  Coroutine 2 is switched
    in while [a] runs and switched out before [b] returns, so the calls of
    [a] and [b] cross: neither is inside the other. *)
Definition m_frame (line : Z) : frame := frame_at 30 None "m.py" 1 line.

Definition streams_crossing : list delivery :=
  [ delivery_of 1 (m_frame 1) EvCall; delivery_of 1 (m_frame 1) EvLine;
    delivery_of 1 (a_frame 1) EvCall; delivery_of 1 (a_frame 1) EvLine;
    delivery_of 2 (b_frame 50) EvCall; delivery_of 2 (b_frame 50) EvLine;
    delivery_of 1 (a_frame 1) EvReturn; delivery_of 1 (m_frame 2) EvLine;
    delivery_of 2 (b_frame 50) EvReturn; delivery_of 1 (m_frame 2) EvReturn ].

(** Two coroutines in the same file: coroutine 1 runs [a] (lines 1 and 2),
    coroutine 2 runs [a2] (line 5), and the line of [a2] is delivered
    between the two lines of [a]. *)
Definition a2_frame (line : Z) : frame := frame_at 11 None "a.py" 5 line.

Definition streams_in_one_unit : list delivery :=
  [ delivery_of 1 (a_frame 1) EvCall; delivery_of 2 (a2_frame 5) EvCall;
    delivery_of 1 (a_frame 1) EvLine; delivery_of 2 (a2_frame 5) EvLine;
    delivery_of 1 (a_frame 2) EvLine;
    delivery_of 1 (a_frame 2) EvReturn; delivery_of 2 (a2_frame 5) EvReturn ].

(** An oracle that looks at the frame: it traces a file for the frame 10,
    and for no other frame. *)
Definition trace_for_frame_10 (filename : string) (fr : frame) : disposition :=
  {| disp_trace := Nat.eqb (f_id fr) 10; disp_source_filename := Some filename;
     disp_plugin := None |}.

(** Coroutine 2 runs [a2] of [a.py] (line 5), from call to return. *)
Definition stream_a2 : list delivery :=
  [ delivery_of 2 (a2_frame 5) EvCall; delivery_of 2 (a2_frame 5) EvLine;
    delivery_of 2 (a2_frame 5) EvReturn ].

(** An exception event in a frame of [x.py] whose caller is the frame of
    [b]. *)
Definition exception_under_b : delivery :=
  delivery_of 2 (frame_at 40 (Some 20%nat) "x.py" 1 1) EvException.

(** A file tracer plugin that reports no line for any frame. *)
Definition silent_plugin : file_plugin :=
  {| plugin_name := "silent"; dynamic_source_file_name := None;
     line_number_range := fun _ => (-1, -1) |}.

Definition trace_with_silent_plugin (filename : string) (fr : frame) : disposition :=
  {| disp_trace := true; disp_source_filename := Some filename;
     disp_plugin := Some silent_plugin |}.

(** A file name resolves to the same disposition whatever the frame: to
    the cached one, or else to the answer of the oracle, which depends on
    the file name alone. *)
Definition oracle_by_file (disp_of : string -> disposition) (t : PyTracer) : Prop :=
  forall fn fr, default (should_trace t fn fr) (should_trace_cache t !! fn) = disp_of fn.

(** The per-file dict and the plugin a call event for [fr] makes live. *)
Definition context_of_call (include : string -> bool) (disp_of : string -> disposition)
    (fr : frame) : slot string * slot file_plugin :=
  let disp := disp_of (co_filename (f_code fr)) in
  match tracename_of include disp fr with
  | Some tracename =>
      if str_truthy (Some tracename)
      then (SObj tracename, slot_of_option (disp_plugin disp))
      else (SNone, SNone)
  | None => (SNone, SNone)
  end.

(** The lines a line event stands for, with the coroutine that delivered
    it and the name of the live per-file dict. *)
Definition lines_under (cur : slot string * slot file_plugin) (d : delivery)
  : list (nat * string * Z) :=
  match cur.1 with
  | SObj name => (fun n => (dl_coroutine d, name, n)) <$> lines_of_event cur.2 d
  | _ => []
  end.

(** The part of a saved context the line handler records under: the
    per-file dict and the plugin. *)
Definition unit_of (x : context) : slot string * slot file_plugin := (x.1.2, x.1.1).

(** [well_switched include disp_of live opened ds]: [live] is the live unit
    context, and [opened] holds for each coroutine its calls still open, the
    innermost first: the unit context that was live when the call event was
    delivered, and the one the call event made live.  A call event makes
    its own unit context live; a return event of a coroutine closes the
    innermost open call of that coroutine, and makes live again the context
    that was live before the call event of that call; a line event of a
    coroutine is delivered inside an open call of that coroutine, while the
    live context is the one that call made live.  No other event is
    delivered. *)
Fixpoint well_switched (include : string -> bool) (disp_of : string -> disposition)
    (live : slot string * slot file_plugin)
    (opened : gmap nat (list ((slot string * slot file_plugin) *
                              (slot string * slot file_plugin))))
    (ds : list delivery) : Prop :=
  match ds with
  | [] => True
  | d :: ds' =>
      let c := dl_coroutine d in
      match dl_event d, opened !!! c with
      | EvCall, calls =>
          let own := context_of_call include disp_of (dl_frame d) in
          well_switched include disp_of own (<[c := (live, own) :: calls]> opened) ds'
      | EvLine, call :: _ =>
          live = call.2 /\ well_switched include disp_of live opened ds'
      | EvReturn, call :: calls =>
          well_switched include disp_of call.1 (<[c := calls]> opened) ds'
      | _, _ => False
      end
  end.

(** The lines of the line events of [ds], each with the coroutine that
    delivered it and the name of the unit context live at its delivery. *)
Fixpoint lines_switched (include : string -> bool) (disp_of : string -> disposition)
    (live : slot string * slot file_plugin)
    (opened : gmap nat (list ((slot string * slot file_plugin) *
                              (slot string * slot file_plugin))))
    (ds : list delivery) : list (nat * string * Z) :=
  match ds with
  | [] => []
  | d :: ds' =>
      let c := dl_coroutine d in
      match dl_event d, opened !!! c with
      | EvCall, calls =>
          let own := context_of_call include disp_of (dl_frame d) in
          lines_switched include disp_of own (<[c := (live, own) :: calls]> opened) ds'
      | EvLine, _ => lines_under live d ++ lines_switched include disp_of live opened ds'
      | EvReturn, call :: calls =>
          lines_switched include disp_of call.1 (<[c := calls]> opened) ds'
      | _, _ => []
      end
  end.

(** The tracer [t] is in the state [live], [opened]: its unit context is
    [live], and the stack of each coroutine holds, above what it held
    before, the contexts saved by the open calls of the coroutine. *)
Definition follows (live : slot string * slot file_plugin)
    (opened : gmap nat (list ((slot string * slot file_plugin) *
                              (slot string * slot file_plugin))))
    (t : PyTracer) : Prop :=
  (cur_file_dict t, plugin t) = live /\
  forall c, (opened !!! c).*1 `prefix_of` unit_of <$> data_stacks t !!! c.

(** The open calls of a coroutine whose events are delivered alone: each
    call event found live the context of the call around it, [first] for
    the outermost. *)
Fixpoint alone_calls (first : slot string * slot file_plugin)
    (owns : list (slot string * slot file_plugin))
  : list ((slot string * slot file_plugin) * (slot string * slot file_plugin)) :=
  match owns with
  | [] => []
  | own :: owns' => (hd first owns', own) :: alone_calls first owns'
  end.

(** Every context an open call made live came from a call event. *)
Definition opened_by_calls
    (opened : gmap nat (list ((slot string * slot file_plugin) *
                              (slot string * slot file_plugin)))) : Prop :=
  forall c,
    Forall (fun e : (slot string * slot file_plugin) * (slot string * slot file_plugin) =>
              e.2.1 <> SInit)
      (opened !!! c).

(** The line keys listed for the name [n]. *)
Definition keys_for (n : string) (ls : list (nat * string * Z)) : gset key :=
  list_to_set ((fun e => KLine e.2) <$> filter (fun e => e.1.2 = n) ls).

(** What the coroutine [s] delivered, of deliveries and of listed lines. *)
Definition of_coroutine (s : nat) (ds : list delivery) : list delivery :=
  filter (fun d => dl_coroutine d = s) ds.

Definition lines_of_coroutine (s : nat) (ls : list (nat * string * Z))
  : list (nat * string * Z) :=
  filter (fun e => e.1.1 = s) ls.

(** [along rel m t w]: running [m] from the tracer [t] ends, whether it
    returns or raises, in a tracer that [rel] relates to [t]. *)
Definition along {A} (rel : PyTracer -> PyTracer -> Prop) (m : M A)
    (t : PyTracer) (w : world) : Prop :=
  rel t (final_tracer (m t w)).

(** Whether a key of a record is an arc rather than a line number. *)
Definition key_is_arc (k : key) : bool :=
  match k with KArc _ _ => true | KLine _ => false end.

(** [grows t t']: the mode is the same, every record of [t] is a record
    of [t'] with at least its keys, and the keys that are new are line
    keys in line mode and arc keys in arc mode. *)
Definition grows (t t' : PyTracer) : Prop :=
  arcs t' = arcs t /\
  (forall n s, data t !! n = Some s -> exists s', data t' !! n = Some s' /\ s ⊆ s') /\
  (forall n k, k ∈ data t' !!! n -> k ∈ data t !!! n \/ key_is_arc k = arcs t).

(** A saved or live context with no per-file dict in it. *)
Definition idle_context (c : context) : Prop :=
  match c.1.2 with SObj _ => False | _ => True end.

(** [idle t]: no record is live or saved on a stack, and the oracle and
    the cache hold no disposition that asks for tracing. *)
Definition idle (t : PyTracer) : Prop :=
  idle_context (get_context t) /\
  (forall r, Forall idle_context (stack_at r t)) /\
  (forall fn fr, disp_trace (should_trace t fn fr) = false) /\
  (forall fn d, should_trace_cache t !! fn = Some d -> disp_trace d = false).

(** From an idle tracer: still idle, with the same data and plugin data. *)
Definition stays_idle (t t' : PyTracer) : Prop :=
  idle t -> idle t' /\ data t' = data t /\ plugin_data t' = plugin_data t.

(** [stacks_kept P t t']: with the coroutine id function set, it stays set,
    the list [__init__] made is as it was, and so is the stack of every
    coroutine outside [P]. *)
Definition stacks_kept (P : nat -> Prop) (t t' : PyTracer) : Prop :=
  coroutine_id_func t = true ->
  coroutine_id_func t' = true /\ own_stack t' = own_stack t /\
  forall c, ~ P c -> data_stacks t' !!! c = data_stacks t !!! c.

(** The arcs between consecutive lines, starting from [l]. *)
Fixpoint arcs_between (l : Z) (ns : list Z) : list key :=
  match ns with
  | [] => []
  | n :: ns' => KArc l n :: arcs_between n ns'
  end.

(** The arcs of one call whose line events are at the lines [ns]: the entry
    arc from -1, the arcs between consecutive lines, and the exit arc to
    minus the first line of the code object. *)
Definition arcs_of_call (ns : list Z) (first : Z) : list key :=
  (arcs_between (-1) ns ++ [KArc (List.last ns (-1)) (- first)])%list.

(** The store after line events at the lines [ns] in arc mode. *)
Fixpoint record_arcs (name : string) (l : Z) (ns : list Z) (d : gmap string (gset key))
  : gmap string (gset key) :=
  match ns with
  | [] => d
  | n :: ns' => record_arcs name n ns' (record_key name (KArc l n) d)
  end.

(** The lines of the frames of the deliveries. *)
Definition line_numbers (ds : list delivery) : list Z :=
  (fun d => f_lineno (dl_frame d)) <$> ds.

(** A plugin that reports, for a frame on line [n], the lines [n] to
    [n + 2], and an oracle that traces every file with it. *)
Definition span_plugin : file_plugin :=
  {| plugin_name := "span"; dynamic_source_file_name := None;
     line_number_range := fun fr => (f_lineno fr, f_lineno fr + 2) |}.

Definition trace_with_span_plugin (filename : string) (fr : frame) : disposition :=
  {| disp_trace := true; disp_source_filename := Some filename;
     disp_plugin := Some span_plugin |}.

(** Every file with an entry in [plugin_data] has a record in [data]. *)
Definition plugin_data_has_records (t : PyTracer) : Prop :=
  forall n, is_Some (plugin_data t !! n) -> is_Some (data t !! n).

(** That stays so, and no entry of [plugin_data] is removed or changed. *)
Definition plugin_data_kept (t t' : PyTracer) : Prop :=
  plugin_data_has_records t ->
  plugin_data_has_records t' /\
  forall n v, plugin_data t !! n = Some v -> plugin_data t' !! n = Some v.

(** The per-file dict of a context, if it has one, is stored in [d]. *)
Definition context_bound (d : gmap string (gset key)) (c : context) : Prop :=
  match c.1.2 with SObj name => is_Some (d !! name) | _ => True end.

(** The live context and every saved one refer to records of the store. *)
Definition well_bound (t : PyTracer) : Prop :=
  context_bound (data t) (get_context t) /\
  forall r, Forall (context_bound (data t)) (stack_at r t).

(** From a well bound tracer, a well bound tracer. *)
Definition stays_bound (t t' : PyTracer) : Prop := well_bound t -> well_bound t'.

(** Every cached disposition of [t] is cached in [t']. *)
Definition cache_kept (t t' : PyTracer) : Prop :=
  forall fn d, should_trace_cache t !! fn = Some d -> should_trace_cache t' !! fn = Some d.

(** [last_coroutine] is assigned by the call and return handlers. *)
Definition forget_last_coroutine (t : PyTracer) : PyTracer := set_last_coroutine None t.

(** * Properties *)

(** ** Attributes a computation leaves alone

    [preserves obs m]: whatever [m] does, and whether it returns or raises,
    the observation [obs] of the tracer and the world is what it was. *)

Section Preserves.
Context {X : Type} (obs : PyTracer -> world -> X).

Lemma preserves_ret {A} (a : A) : preserves obs (ret a).
Proof. by intros t w. Qed.

Lemma preserves_raise {A} (e : exn) : preserves obs (@raise A e).
Proof. by intros t w. Qed.

Lemma preserves_gets {A} (attr : PyTracer -> A) : preserves obs (gets attr).
Proof. by intros t w. Qed.

Lemma preserves_gets_world {A} (attr : world -> A) : preserves obs (gets_world attr).
Proof. by intros t w. Qed.

Lemma preserves_modify f :
  (forall t w, obs (f t) w = obs t w) -> preserves obs (modify f).
Proof. intros H t w. apply H. Qed.

Lemma preserves_modify_world f :
  (forall t w, obs t (f w) = obs t w) -> preserves obs (modify_world f).
Proof. intros H t w. apply H. Qed.

Lemma preserves_bind {A B} (m : M A) (k : A -> M B) :
  preserves obs m -> (forall a, preserves obs (k a)) -> preserves obs (bind m k).
Proof.
  intros Hm Hk t w. unfold bind. specialize (Hm t w).
  destruct (m t w) as [a t' w'|e t' w']; simpl in *; [|done].
  by rewrite Hk.
Qed.

Lemma preserves_when b m : preserves obs m -> preserves obs (when b m).
Proof. intros H. destruct b; [done|]. apply preserves_ret. Qed.

Lemma preserves_for_each l body :
  (forall x, preserves obs (body x)) -> preserves obs (for_each l body).
Proof.
  intros H. induction l as [|x l IH]; simpl.
  - apply preserves_ret.
  - apply preserves_bind; [apply H | by intros _].
Qed.
End Preserves.

(** Assignments to one attribute do not change the others; the stack
    operations assign [own_stack], [data_stacks] and [data_stack] only. *)
Ltac attr_unchanged :=
  intros;
  unfold set_context, select_stack, set_cur_stack, get_context, cur_stack;
  repeat case_match; reflexivity.

Ltac preserves_step :=
  lazymatch goal with
  | |- preserves _ (bind _ _) => apply preserves_bind; [|intros ?]
  | |- preserves _ (ret _) => apply preserves_ret
  | |- preserves _ (raise _) => apply preserves_raise
  | |- preserves _ (gets _) => apply preserves_gets
  | |- preserves _ (gets_world _) => apply preserves_gets_world
  | |- preserves _ (when _ _) => apply preserves_when
  | |- preserves _ (for_each _ _) => apply preserves_for_each; intros ?
  | |- preserves _ (modify _) => apply preserves_modify; attr_unchanged
  | |- preserves _ (modify_world _) => apply preserves_modify_world; attr_unchanged
  | |- preserves _ (match ?x with _ => _ end) => destruct x
  end.

Ltac preserves_auto unfolds := unfolds; repeat preserves_step.

Lemma replay_preserves_settings fr :
  preserves (fun t _ => settings t) (replay_skipped_return fr).
Proof.
  unfold replay_skipped_return, pop_context, setitem_arc. repeat preserves_step.
Qed.

Lemma handle_preserves_settings fr ev :
  preserves (fun t _ => settings t) (handle fr ev).
Proof.
  destruct ev; unfold handle, on_call, on_line, on_return, on_exception,
    push_context, pop_context, resolve_disposition, setitem_arc, setitem_line;
    repeat preserves_step.
Qed.

Lemma trace_preserves_settings fr ev :
  preserves (fun t _ => settings t) (_trace fr ev).
Proof.
  unfold _trace. repeat preserves_step.
  - apply replay_preserves_settings.
  - apply handle_preserves_settings.
Qed.

Lemma settings_eq t t' :
  settings t' = settings t ->
  obj_id t' = obj_id t /\ arcs t' = arcs t /\ stopped t' = stopped t /\
  coroutine_id_func t' = coroutine_id_func t /\ should_trace t' = should_trace t /\
  check_include t' = check_include t.
Proof. unfold settings. intros H. by simplify_eq. Qed.

Lemma trace_stopped fr ev t w : stopped t = true -> _trace fr ev t w = Ok None t w.
Proof. intros H. unfold _trace, bind, gets. by rewrite H. Qed.

Lemma trace_running fr ev t w :
  stopped t = false ->
  _trace fr ev t w =
    ((replay_skipped_return fr ;;; handle fr ev ;;; self <- gets obj_id ;;
      ret (Some (TraceOf self)))%py) t w.
Proof. intros H. unfold _trace at 1, bind at 1, gets at 1. by rewrite H. Qed.

Lemma trace_returns fr ev t w v t' w' :
  _trace fr ev t w = Ok v t' w' ->
  v = (if stopped t then None else Some (TraceOf (obj_id t))) /\ obj_id t' = obj_id t.
Proof.
  intros H.
  pose proof (trace_preserves_settings fr ev t w) as Hs. rewrite H in Hs. simpl in Hs.
  apply settings_eq in Hs as (Hid & _).
  split; [|done].
  destruct (stopped t) eqn:Hst.
  - rewrite trace_stopped in H by done. by simplify_eq.
  - rewrite trace_running in H by done. unfold bind in H.
    destruct (replay_skipped_return fr t w); [|done].
    destruct (handle fr ev t0 w0); [|done].
    unfold gets, ret in H. simplify_eq. by rewrite Hid.
Qed.

Lemma start_spec t w :
  start t w =
    Ok (TraceOf (obj_id t))
       (if threading t then set_thread (Some (current_thread w)) t else t)
       (set_trace_hooks (<[current_thread w := TraceOf (obj_id t)]> (trace_hooks w)) w).
Proof. unfold start, bind, gets, when. destruct t as [? ? ? ? ? ? ? ? []]; reflexivity. Qed.

(** ** The stacks, seen through the reference that selects one *)

Lemma touch_lookup_total c c' m : touch c m !!! c' = m !!! c'.
Proof.
  unfold touch. destruct (m !! c) eqn:E; [done|].
  destruct (decide (c = c')) as [->|Hne].
  - rewrite lookup_total_insert_eq. by rewrite lookup_total_alt, E.
  - by rewrite lookup_total_insert_ne.
Qed.

Lemma stack_at_select r c t : stack_at r (select_stack c t) = stack_at r t.
Proof. destruct r; simpl; [done|]. apply touch_lookup_total. Qed.

Lemma stack_at_set_cur_stack r l t :
  stack_at r (set_cur_stack l t) =
    if decide (r = data_stack t) then l else stack_at r t.
Proof.
  unfold set_cur_stack. destruct (data_stack t) as [|c] eqn:E, r as [|c'];
    case_decide; simplify_eq; simpl; try done.
  - by rewrite lookup_total_insert_eq.
  - rewrite lookup_total_insert_ne; [done|congruence].
Qed.

Lemma cur_stack_at t : cur_stack t = stack_at (data_stack t) t.
Proof. done. Qed.

(** ** What the events do when they do not raise *)

Lemma replay_none fr t w : last_exc_back t = None -> replay_skipped_return fr t w = Ok tt t w.
Proof. intros H. unfold replay_skipped_return, bind, gets. by rewrite H. Qed.

(** With no marker pending the trace function is the handler of the event. *)
Lemma trace_plain fr ev t w :
  stopped t = false -> last_exc_back t = None ->
  _trace fr ev t w =
    match handle fr ev t w with
    | Ok _ t' w' => Ok (Some (TraceOf (obj_id t'))) t' w'
    | Raise e t' w' => Raise e t' w'
    end.
Proof.
  intros Hs Hb. rewrite trace_running by done. unfold bind at 1.
  rewrite replay_none by done. unfold bind. by destruct (handle fr ev t w).
Qed.

Lemma selected_data_stack c b t : data_stack (selected c b t) = active_ref c t.
Proof. unfold selected, active_ref. by destruct (coroutine_id_func t), b. Qed.

Lemma stack_at_selected r c b t : stack_at r (selected c b t) = stack_at r t.
Proof.
  unfold selected. destruct (coroutine_id_func t), b; try done;
    destruct r; simpl; try done; apply touch_lookup_total.
Qed.

Lemma pop_context_ok t w x l :
  cur_stack t = x :: l ->
  pop_context t w = Ok tt (set_context x (set_cur_stack l t)) w.
Proof. intros H. unfold pop_context, bind, gets. by rewrite H. Qed.

(** Symbolic execution of a method body. *)
Ltac exec :=
  repeat (progress (unfold bind, gets, gets_world, when, modify, modify_world, ret, raise;
                    simpl)).

Lemma setitem_arc_ok n t w name l :
  cur_file_dict t = SObj name -> last_line t = LNo l ->
  setitem_arc n t w = Ok tt (set_data (record_key name (KArc l n) (data t)) t) w.
Proof. intros Hd Hl. unfold setitem_arc. exec. by rewrite Hd, Hl. Qed.

Lemma set_data_id t : set_data (data t) t = t.
Proof. by destruct t. Qed.

Lemma exit_arc_recorded_data first t :
  exists d, exit_arc_recorded first t = set_data d t.
Proof.
  unfold exit_arc_recorded.
  destruct (arcs t && cur_file_dict_truthy t), (cur_file_dict t), (last_line t);
    eauto using eq_sym, set_data_id.
Qed.

Lemma select_then_pop c b t w x l :
  stack_at (active_ref c t) t = x :: l ->
  pop_context (selected c b t) w =
    Ok tt (set_context x (set_cur_stack l (selected c b t))) w.
Proof.
  intros H. apply pop_context_ok.
  by rewrite cur_stack_at, selected_data_stack, stack_at_selected.
Qed.

Lemma on_return_ok fr t w x l :
  stack_at (active_ref (current_coroutine w) t) t = x :: l ->
  (arcs t = true -> last_line t <> LInit) ->
  on_return fr t w = Ok tt (returned fr (current_coroutine w) x l t) w.
Proof.
  intros Hst Hl. unfold returned.
  assert (Hsel : forall t' : PyTracer,
    (id_func <- gets coroutine_id_func ;;
     when id_func
       (c <- gets_world current_coroutine ;;
        modify (select_stack c) ;;;
        modify (set_last_coroutine (Some c))) ;;;
     pop_context)%py t' w = pop_context (selected (current_coroutine w) true t') w).
  { intros t'. unfold selected. exec. by destruct (coroutine_id_func t'). }
  unfold on_return. unfold bind at 1 2 3, gets at 1 2. 
  set (t1 := exit_arc_recorded _ t).
  assert (Hrec : when (arcs t && cur_file_dict_truthy t)
                   (setitem_arc (- co_firstlineno (f_code fr))) t w = Ok tt t1 w).
  { subst t1. unfold exit_arc_recorded, when.
    destruct (arcs t && cur_file_dict_truthy t) eqn:Hb; [|done].
    apply andb_true_iff in Hb as [Ha Hb]. unfold cur_file_dict_truthy in Hb.
    destruct (cur_file_dict t) as [| |name] eqn:Hd; try done.
    destruct (last_line t) as [|ll] eqn:Hll; [by destruct Hl|].
    by apply setitem_arc_ok. }
  rewrite Hrec, Hsel.
  apply select_then_pop.
  subst t1. by destruct (exit_arc_recorded_data (co_firstlineno (f_code fr)) t) as [d ->].
Qed.

Lemma for_each_setitem_line ls name t w :
  cur_file_dict t = SObj name ->
  for_each ls setitem_line t w = Ok tt (set_data (record_lines name ls (data t)) t) w.
Proof.
  revert t. induction ls as [|n ls IH]; intros t Hd; simpl.
  - by rewrite set_data_id.
  - unfold bind at 1, setitem_line at 1. exec. rewrite Hd. simpl.
    by rewrite IH.
Qed.

Lemma on_line_ok fr t w :
  cur_file_dict t <> SInit ->
  (arcs t = true -> cur_file_dict t <> SNone -> last_line t <> LInit) ->
  on_line fr t w = Ok tt (line_recorded fr t) w.
Proof.
  intros Hd Hl. unfold on_line, line_recorded. unfold bind at 1, gets at 1.
  destruct (line_span (plugin t) fr) as [a b].
  destruct (Z.eqb a (-1)); simpl; [done|].
  unfold bind at 1 2, gets at 1.
  destruct (cur_file_dict t) as [| |name] eqn:Hdict; [done|done|]. simpl.
  unfold bind at 1, gets at 1.
  destruct (arcs t) eqn:Ha.
  - destruct (last_line t) as [|l] eqn:Hll; [by destruct Hl|].
    by rewrite (setitem_arc_ok _ _ _ name l).
  - by rewrite (for_each_setitem_line _ name).
Qed.

Lemma on_call_ok fr t w :
  exists t' w', on_call fr t w = Ok tt t' w' /\ called fr t w t' w'.
Proof.
  unfold on_call.
  set (c := current_coroutine w).
  assert (Hsel :
    when (coroutine_id_func t)
       (c <- gets_world current_coroutine ;;
        modify (select_stack c) ;;;
        modify (set_last_coroutine (Some c)))%py t w = Ok tt (selected c true t) w).
  { unfold selected. exec. by destruct (coroutine_id_func t). }
  unfold bind at 1, gets at 1. unfold bind at 1. rewrite Hsel.
  unfold bind at 1, push_context at 1, modify at 1.
  set (t1 := set_cur_stack _ _).
  assert (Hst : forall r, stack_at r t1 =
     if decide (r = active_ref c t) then get_context t :: stack_at r t else stack_at r t).
  { intros r. subst t1. rewrite stack_at_set_cur_stack, selected_data_stack.
    rewrite cur_stack_at, selected_data_stack, !stack_at_selected.
    destruct (decide (r = active_ref c t)) as [->|]; [|done].
    unfold get_context, selected. by destruct (coroutine_id_func t) eqn:E. }
  assert (Hds : data_stack t1 = active_ref c t).
  { subst t1. unfold set_cur_stack. rewrite selected_data_stack.
    destruct (active_ref c t) eqn:E; simpl; by rewrite selected_data_stack. }
  assert (Hrest : should_trace_cache t1 = should_trace_cache t /\
                  should_trace t1 = should_trace t /\ check_include t1 = check_include t /\
                  data t1 = data t /\
                  last_coroutine t1 = if coroutine_id_func t then Some c else last_coroutine t).
  { clear. subst t1. unfold set_cur_stack, selected. by repeat case_match. }
  destruct Hrest as (Hcache & Horacle & Hincl & Hdata & Hlc).
  clearbody t1. clear Hsel.
  unfold bind at 1, resolve_disposition at 1, bind at 1, gets at 1.
  rewrite Hcache.
  destruct (should_trace_cache t !! co_filename (f_code fr)) as [disp|] eqn:Hlook; simpl.
  - unfold ret at 1. exec. rewrite Hincl.
    destruct (tracename_of (check_include t) disp fr) as [name|] eqn:Hname; simpl;
      [destruct (negb (String.eqb name "")) eqn:Htruthy; simpl;
       [rewrite Hdata; destruct (data t !! name) as [s|] eqn:Hin; simpl;
        [|destruct (disp_plugin disp) eqn:Hp; simpl]|]|].
    all: eexists _, _; (split; [reflexivity|]).
    all: split; unfold traced_name, resolved; simpl; rewrite ?Hlook; simpl;
      rewrite ?Hname; simpl; rewrite ?Htruthy; simpl;
      rewrite ?Hin, ?Hdata, ?Hcache, ?Hp, ?Hlc, ?(insert_id _ _ _ Hlook); done.
  - exec. rewrite Hincl, Horacle.
    destruct (tracename_of (check_include t) _ fr) as [name|] eqn:Hname; simpl;
      [destruct (negb (String.eqb name "")) eqn:Htruthy; simpl;
       [rewrite Hdata; destruct (data t !! name) as [s|] eqn:Hin; simpl;
        [|destruct (disp_plugin (should_trace t _ fr)) eqn:Hp; simpl]|]|].
    all: eexists _, _; (split; [reflexivity|]).
    all: split; unfold traced_name, resolved; simpl; rewrite ?Hlook; simpl;
      rewrite ?Hname; simpl; rewrite ?Htruthy; simpl;
      rewrite ?Hin, ?Hdata, ?Hcache, ?Hp, ?Hlc; done.
Qed.

Lemma untouched_eq t t' :
  untouched_by_events t' = untouched_by_events t ->
  settings t' = settings t /\ should_trace_cache t' = should_trace_cache t /\
  plugin_data t' = plugin_data t /\ last_exc_back t' = last_exc_back t /\
  last_exc_firstlineno t' = last_exc_firstlineno t.
Proof.
  intros H. split_and!.
  - exact (f_equal (fun p => p.1.1.1.1) H).
  - exact (f_equal (fun p => p.1.1.1.2) H).
  - exact (f_equal (fun p => p.1.1.2) H).
  - exact (f_equal (fun p => p.1.2) H).
  - exact (f_equal (fun p => p.2) H).
Qed.

Lemma returned_attrs fr c x l t :
  let t' := returned fr c x l t in
  get_context t' = x /\
  untouched_by_events t' = untouched_by_events t /\
  data t' = data (exit_arc_recorded (co_firstlineno (f_code fr)) t) /\
  (coroutine_id_func t = false -> data_stack t' = data_stack t) /\
  (forall r, stack_at r t' = if decide (r = active_ref c t) then l else stack_at r t).
Proof.
  simpl. unfold returned.
  destruct (exit_arc_recorded_data (co_firstlineno (f_code fr)) t) as [d ->].
  split_and!.
  - unfold set_context, get_context. by destruct x as [[? ?] ?].
  - unfold set_cur_stack, selected. by repeat case_match.
  - unfold set_cur_stack, selected. by repeat case_match.
  - intros Hc. unfold set_cur_stack, selected. simpl. rewrite Hc. by case_match.
  - intros r.
    change (stack_at r (set_cur_stack l (selected c true (set_data d t))) =
            if decide (r = active_ref c t) then l else stack_at r t).
    rewrite stack_at_set_cur_stack, selected_data_stack, stack_at_selected. done.
Qed.

Lemma line_recorded_attrs fr t :
  let t' := line_recorded fr t in
  plugin t' = plugin t /\ cur_file_dict t' = cur_file_dict t /\
  untouched_by_events t' = untouched_by_events t /\
  data_stack t' = data_stack t /\
  (forall r, stack_at r t' = stack_at r t) /\
  (last_line t <> LInit -> last_line t' <> LInit).
Proof.
  simpl. unfold line_recorded.
  destruct (line_span (plugin t) fr) as [a b].
  destruct (Z.eqb a (-1)); [by split_and!|].
  destruct (cur_file_dict t) eqn:Hd, (arcs t) eqn:Ha, (last_line t) eqn:Hl;
    split_and!; try done.
Qed.

Lemma deliver_plain d t w :
  stopped t = false -> last_exc_back t = None ->
  deliver d t w =
    match handle (dl_frame d) (dl_event d) t (at_delivery d w) with
    | Ok _ t' w' => Ok (Some (TraceOf (obj_id t'))) t' w'
    | Raise e t' w' => Raise e t' w'
    end.
Proof. intros. unfold deliver. by apply trace_plain. Qed.

Lemma handle_preserves_marker fr ev :
  ev <> EvException -> preserves (fun t _ => last_exc_back t) (handle fr ev).
Proof.
  intros Hev.
  destruct ev; try done; unfold handle, on_call, on_line, on_return,
    push_context, pop_context, resolve_disposition, setitem_arc, setitem_line;
    repeat preserves_step.
Qed.

Lemma deliver_line d t w :
  dl_event d = EvLine -> stopped t = false -> last_exc_back t = None ->
  cur_file_dict t <> SInit ->
  (arcs t = true -> cur_file_dict t <> SNone -> last_line t <> LInit) ->
  deliver d t w =
    Ok (Some (TraceOf (obj_id t))) (line_recorded (dl_frame d) t) (at_delivery d w).
Proof.
  intros Hev Hs Hb Hd Hl. rewrite deliver_plain by done. rewrite Hev. simpl.
  rewrite on_line_ok by done.
  destruct (line_recorded_attrs (dl_frame d) t) as (_ & _ & Hu & _).
  apply untouched_eq in Hu as (Hu & _). apply settings_eq in Hu as (-> & _). done.
Qed.

Lemma deliver_return d t w x l :
  dl_event d = EvReturn -> stopped t = false -> last_exc_back t = None ->
  stack_at (active_ref (dl_coroutine d) t) t = x :: l ->
  (arcs t = true -> last_line t <> LInit) ->
  deliver d t w =
    Ok (Some (TraceOf (obj_id t))) (returned (dl_frame d) (dl_coroutine d) x l t)
       (at_delivery d w).
Proof.
  intros Hev Hs Hb Hst Hl. rewrite deliver_plain by done. rewrite Hev. simpl.
  rewrite (on_return_ok _ _ _ x l) by done.
  change (current_coroutine (at_delivery d w)) with (dl_coroutine d).
  destruct (returned_attrs (dl_frame d) (dl_coroutine d) x l t) as (_ & Hu & _).
  apply untouched_eq in Hu as (Hu & _). apply settings_eq in Hu as (-> & _). done.
Qed.

Lemma deliver_call d t w :
  dl_event d = EvCall -> stopped t = false -> last_exc_back t = None ->
  exists t' w',
    deliver d t w = Ok (Some (TraceOf (obj_id t))) t' w' /\
    called (dl_frame d) t (at_delivery d w) t' w' /\
    settings t' = settings t /\ last_exc_back t' = None.
Proof.
  intros Hev Hs Hb. rewrite deliver_plain by done. rewrite Hev. simpl.
  destruct (on_call_ok (dl_frame d) t (at_delivery d w)) as (t' & w' & Hrun & Hc).
  pose proof (handle_preserves_settings (dl_frame d) EvCall t (at_delivery d w)) as Hset.
  pose proof (handle_preserves_marker (dl_frame d) EvCall ltac:(done) t (at_delivery d w))
    as Hm.
  simpl in Hset, Hm. rewrite Hrun in Hset, Hm. simpl in Hset, Hm.
  exists t', w'. rewrite Hrun. split_and!; try done.
  - apply settings_eq in Hset as (-> & _). done.
  - congruence.
Qed.

(** ** Well-paired deliveries *)

Lemma run_cons_ok d ds t w v t1 w1 :
  deliver d t w = Ok v t1 w1 -> run (d :: ds) t w = run ds t1 w1.
Proof. intros H. simpl. unfold bind. by rewrite H. Qed.

Lemma run_app_ok ds1 ds2 t w t1 w1 :
  run ds1 t w = Ok tt t1 w1 -> run (ds1 ++ ds2) t w = run ds2 t1 w1.
Proof.
  revert t w. induction ds1 as [|d ds1 IH]; intros t w H; simpl in *.
  - unfold ret in H. by simplify_eq.
  - unfold bind in *. destruct (deliver d t w); [|done]. by apply IH.
Qed.

Lemma context_eq t t' :
  get_context t' = get_context t ->
  plugin t' = plugin t /\ cur_file_dict t' = cur_file_dict t /\ last_line t' = last_line t.
Proof. unfold get_context. by intros [= -> -> ->]. Qed.

Lemma restored_refl t : restored t t.
Proof. by unfold restored. Qed.

Lemma restored_trans t1 t2 t3 : restored t1 t2 -> restored t2 t3 -> restored t1 t3.
Proof.
  intros (Hp & Hd & Hs & Hr & Hst) (Hp' & Hd' & Hs' & Hr' & Hst').
  pose proof (settings_eq _ _ Hs) as (_ & _ & _ & Hc & _).
  unfold restored. split_and!; [congruence..| |].
  - intros Hf. rewrite Hr' by congruence. by apply Hr.
  - intros r. by rewrite Hst', Hst.
Qed.

Lemma active_ref_restored c t t' : restored t t' -> active_ref c t' = active_ref c t.
Proof.
  intros (_ & _ & Hs & Hr & _).
  pose proof (settings_eq _ _ Hs) as (_ & _ & _ & Hc & _).
  unfold active_ref. rewrite Hc. destruct (coroutine_id_func t); [done|]. by apply Hr.
Qed.

(** A call event, whatever follows it well paired, and its return event
    give back the context and the stacks. *)
Lemma call_body_return b c body r t w :
  (forall t1 w1, coroutine_id_func t1 = b -> inside t1 ->
     exists t2 w2, run body t1 w1 = Ok tt t2 w2 /\ inside t2 /\ restored t1 t2 /\
                   last_line t2 <> LInit) ->
  dl_event c = EvCall -> dl_event r = EvReturn ->
  (b = true -> dl_coroutine r = dl_coroutine c) ->
  coroutine_id_func t = b -> stopped t = false -> last_exc_back t = None ->
  exists t1 w1 t2 w2 t3,
    (deliver c t w = Ok (Some (TraceOf (obj_id t))) t1 w1 /\
     called (dl_frame c) t (at_delivery c w) t1 w1 /\
     settings t1 = settings t /\ inside t1) /\
    (run body t1 w1 = Ok tt t2 w2 /\ inside t2 /\ restored t1 t2) /\
    (deliver r t2 w2 = Ok (Some (TraceOf (obj_id t2))) t3 (at_delivery r w2) /\
     untouched_by_events t3 = untouched_by_events t2 /\
     data t3 = data (exit_arc_recorded (co_firstlineno (f_code (dl_frame r))) t2)) /\
    get_context t3 = get_context t /\ restored t t3.
Proof.
  intros Hbody Hc Hr Hpair Hb Hs Hm.
  destruct (deliver_call c t w Hc Hs Hm) as (t1 & w1 & Hrun1 & Hcalled & Hset1 & Hm1).
  pose proof (settings_eq _ _ Hset1) as (_ & Harcs1 & Hs1 & Hc1 & _).
  assert (Hin1 : inside t1).
  { unfold inside. split_and!; try congruence.
    - rewrite (called_dict _ _ _ _ _ Hcalled). by destruct (traced_name _ _).
    - by rewrite (called_last_line _ _ _ _ _ Hcalled). }
  destruct (Hbody t1 w1 ltac:(congruence) Hin1)
    as (t2 & w2 & Hrun2 & Hin2 & Hres2 & Hl2).
  pose proof Hin2 as (Hs2 & Hm2 & _ & _).
  pose proof Hres2 as (_ & _ & Hset2 & _ & Hst2).
  pose proof (settings_eq _ _ Hset2) as (_ & Harcs2 & _ & Hc2 & _).
  assert (Href2 : active_ref (dl_coroutine r) t2 = active_ref (dl_coroutine c) t).
  { rewrite (active_ref_restored _ _ _ Hres2).
    unfold active_ref. rewrite Hc1.
    destruct (coroutine_id_func t) eqn:E.
    - rewrite Hpair; [done|congruence].
    - rewrite (called_data_stack _ _ _ _ _ Hcalled). unfold active_ref. by rewrite E. }
  assert (Hstack : stack_at (active_ref (dl_coroutine r) t2) t2 =
                   get_context t :: stack_at (active_ref (dl_coroutine c) t) t).
  { rewrite Href2, Hst2, (called_stacks _ _ _ _ _ Hcalled). simpl.
    by rewrite decide_True. }
  pose proof (deliver_return r t2 w2 _ _ Hr Hs2 Hm2 Hstack (fun _ => Hl2)) as Hrun3.
  destruct (returned_attrs (dl_frame r) (dl_coroutine r) (get_context t)
              (stack_at (active_ref (dl_coroutine c) t) t) t2)
    as (Hctx & Hu & Hdata3 & Hds & Hst3).
  pose proof (untouched_eq _ _ Hu) as (Hset3 & _ & _ & Hm3 & _).
  pose proof (settings_eq _ _ Hset3) as (_ & _ & Hs3 & _).
  eexists t1, w1, t2, w2, _. split_and!; try done.
  destruct (context_eq _ _ Hctx) as (Hp3 & Hd3 & Hl3).
  unfold restored. split_and!; [done|done|congruence| |].
  - intros Hf. rewrite Hds by congruence.
    destruct Hres2 as (_ & _ & _ & -> & _); [|congruence].
    rewrite (called_data_stack _ _ _ _ _ Hcalled). unfold active_ref. simpl.
    by rewrite Hf.
  - intros r0. rewrite Hst3, Href2.
    case_decide as Hd; [by subst r0|].
    rewrite Hst2, (called_stacks _ _ _ _ _ Hcalled). simpl.
    by rewrite decide_False.
Qed.

Lemma run_call_body_return c body r ds t w v1 t1 w1 t2 w2 v3 t3 w3 :
  deliver c t w = Ok v1 t1 w1 -> run body t1 w1 = Ok tt t2 w2 ->
  deliver r t2 w2 = Ok v3 t3 w3 ->
  run (c :: body ++ r :: ds) t w = run ds t3 w3.
Proof.
  intros H1 H2 H3. rewrite (run_cons_ok _ _ _ _ _ _ _ H1).
  rewrite (run_app_ok _ _ _ _ _ _ H2). by rewrite (run_cons_ok _ _ _ _ _ _ _ H3).
Qed.

Lemma run_nested b ds :
  nested b ds ->
  forall t w, coroutine_id_func t = b -> inside t ->
    exists t' w', run ds t w = Ok tt t' w' /\ inside t' /\ restored t t' /\
                  last_line t' <> LInit.
Proof.
  induction 1 as [|d ds Hev _ IH|c body r ds Hc Hr Hpair _ IHbody _ IHrest];
    intros t w Hb Hin.
  - exists t, w. split; [done|]. split; [done|].
    split; [apply restored_refl|by destruct Hin as (_ & _ & _ & ?)].
  - destruct Hin as (Hs & Hm & Hd & Hl).
    pose proof (deliver_line d t w Hev Hs Hm Hd (fun _ _ => Hl)) as Hrun.
    destruct (line_recorded_attrs (dl_frame d) t) as (Hp & Hd' & Hu & Hds & Hst & Hl').
    apply untouched_eq in Hu as (Hset & _ & _ & Hm' & _).
    pose proof (settings_eq _ _ Hset) as (_ & _ & Hs' & Hc' & _).
    destruct (IH (line_recorded (dl_frame d) t) (at_delivery d w)) as
      (t' & w' & Hrun' & Hin' & Hres' & Hll'); [congruence| |].
    { unfold inside. split_and!; try congruence. by apply Hl'. }
    exists t', w'. rewrite (run_cons_ok _ _ _ _ _ _ _ Hrun). split_and!; try done.
    eapply restored_trans; [|exact Hres']. unfold restored. by split_and!.
  - destruct Hin as (Hs & Hm & Hd & Hl).
    destruct (call_body_return b c body r t w IHbody Hc Hr Hpair Hb Hs Hm)
      as (t1 & w1 & t2 & w2 & t3 & (Hrun1 & _) & (Hrun2 & (_ & Hm2 & _) & _)
          & (Hrun3 & Hun3 & _) & Hctx & Hres3).
    destruct (context_eq _ _ Hctx) as (Hp3 & Hd3 & Hl3).
    pose proof Hres3 as (_ & _ & Hset3 & _).
    pose proof (settings_eq _ _ Hset3) as (_ & _ & Hs3 & Hc3 & _).
    apply untouched_eq in Hun3 as (_ & _ & _ & Hm3 & _).
    destruct (IHrest t3 (at_delivery r w2)) as (t' & w' & Hrun' & Hin' & Hres' & Hll').
    { congruence. }
    { unfold inside. split_and!; congruence. }
    exists t', w'. split_and!; try done.
    + by rewrite (run_call_body_return _ _ _ _ _ _ _ _ _ _ _ _ _ _ Hrun1 Hrun2 Hrun3).
    + eapply restored_trans; [exact Hres3|exact Hres'].
Qed.

Lemma run_blocks b ds :
  blocks b ds ->
  forall t w, coroutine_id_func t = b -> stopped t = false -> last_exc_back t = None ->
    exists t' w', run ds t w = Ok tt t' w' /\
                  get_context t' = get_context t /\ restored t t' /\
                  stopped t' = false /\ last_exc_back t' = None.
Proof.
  induction 1 as [|c body r ds Hc Hr Hpair Hbody _ IH]; intros t w Hb Hs Hm.
  - exists t, w. split_and!; try done.
  - destruct (call_body_return b c body r t w (run_nested b body Hbody) Hc Hr Hpair Hb Hs Hm)
      as (t1 & w1 & t2 & w2 & t3 & (Hrun1 & _) & (Hrun2 & (_ & Hm2 & _) & _)
          & (Hrun3 & Hun3 & _) & Hctx & Hres3).
    pose proof Hres3 as (_ & _ & Hset3 & _).
    pose proof (settings_eq _ _ Hset3) as (_ & _ & Hs3 & Hc3 & _).
    apply untouched_eq in Hun3 as (_ & _ & _ & Hm3 & _).
    destruct (IH t3 (at_delivery r w2) ltac:(congruence) ltac:(congruence) ltac:(congruence))
      as (t' & w' & Hrun' & Hctx' & Hres' & Hs' & Hm').
    exists t', w'. split_and!; [|congruence| |done|done].
    + by rewrite (run_call_body_return _ _ _ _ _ _ _ _ _ _ _ _ _ _ Hrun1 Hrun2 Hrun3).
    + eapply restored_trans; [exact Hres3|exact Hres'].
Qed.

(** ** Line mode in one traced unit *)

Lemma record_lines_app name l1 l2 d :
  record_lines name (l1 ++ l2) d = record_lines name l2 (record_lines name l1 d).
Proof. apply foldl_app. Qed.

Lemma record_lines_lookup name ls d :
  ls <> [] \/ is_Some (d !! name) ->
  record_lines name ls d !! name = Some (list_to_set (KLine <$> ls) ∪ d !!! name).
Proof.
  revert d. induction ls as [|n ls IH]; intros d H; simpl.
  - destruct H as [|[s Hs]]; [done|]. rewrite lookup_total_alt, Hs. simpl.
    by rewrite (left_id_L ∅ (∪)).
  - rewrite IH.
    + unfold record_key. rewrite lookup_total_insert_eq. f_equal.
      by rewrite (assoc_L (∪)), (comm_L (∪) _ {[KLine n]}).
    + right. unfold record_key. rewrite lookup_insert_eq. eauto.
Qed.

Lemma record_lines_lookup_ne name n ls d :
  n <> name -> record_lines name ls d !! n = d !! n.
Proof.
  intros Hne. revert d. induction ls as [|x ls IH]; intros d; simpl; [done|].
  rewrite IH. unfold record_key. by rewrite lookup_insert_ne.
Qed.

Lemma store_with_lookup name d : store_with name d !! name = Some (d !!! name).
Proof.
  unfold store_with. rewrite lookup_total_alt.
  destruct (d !! name) eqn:E; simpl; [done|]. by rewrite lookup_insert_eq.
Qed.

Lemma store_with_lookup_ne name n d : n <> name -> store_with name d !! n = d !! n.
Proof.
  intros Hne. unfold store_with. destruct (d !! name); [done|]. by rewrite lookup_insert_ne.
Qed.

Lemma store_with_present name d : is_Some (d !! name) -> store_with name d = d.
Proof. intros [s Hs]. unfold store_with. by rewrite Hs. Qed.

Lemma unit_disposition_resolved t fn dsp fr :
  unit_disposition t fn dsp -> co_filename (f_code fr) = fn -> resolved t fr = dsp.
Proof.
  unfold unit_disposition, resolved. intros H <-.
  destruct (should_trace_cache t !! co_filename (f_code fr)); simpl; [done|]. apply H.
Qed.

Section OneUnit.
Variables (fn name : string) (dsp : disposition).
Hypothesis name_truthy : name <> "".

Lemma called_in_unit d t w t' w' :
  dl_event d = EvCall ->
  called (dl_frame d) t w t' w' -> settings t' = settings t ->
  arcs t = false -> unit_disposition t fn dsp ->
  co_filename (f_code (dl_frame d)) = fn ->
  tracename_of (check_include t) dsp (dl_frame d) = Some name ->
  in_unit fn name dsp t' /\ data t' = store_with name (data t).
Proof.
  intros Hev Hc Hset Ha Hu Hfn Htn.
  pose proof (settings_eq _ _ Hset) as (_ & Harcs & _).
  pose proof (unit_disposition_resolved _ _ _ _ Hu Hfn) as Hres.
  assert (Hname : traced_name t (dl_frame d) = Some name).
  { unfold traced_name. rewrite Hres, Htn. simpl.
    destruct (String.eqb_spec name ""); [done|done]. }
  assert (Hdata : data t' = store_with name (data t)).
  { rewrite (called_data _ _ _ _ _ Hc), Hname. done. }
  split; [|done]. unfold in_unit. split_and!.
  - congruence.
  - unfold unit_disposition. rewrite (called_cache _ _ _ _ _ Hc), Hfn, Hres.
    by rewrite lookup_insert_eq.
  - by rewrite (called_dict _ _ _ _ _ Hc), Hname.
  - by rewrite (called_plugin _ _ _ _ _ Hc), Hname, Hres.
  - rewrite Hdata, store_with_lookup. eauto.
Qed.

Lemma executed_lines_cons p d ds :
  executed_lines p (d :: ds) = (lines_of_event p d ++ executed_lines p ds)%list.
Proof. done. Qed.

Lemma executed_lines_app p ds1 ds2 :
  executed_lines p (ds1 ++ ds2) = (executed_lines p ds1 ++ executed_lines p ds2)%list.
Proof. unfold executed_lines. by rewrite fmap_app, concat_app. Qed.

Lemma lines_of_event_not_line p d : dl_event d <> EvLine -> lines_of_event p d = [].
Proof. unfold lines_of_event. by destruct (dl_event d). Qed.

Lemma record_lines_present ls d :
  is_Some (d !! name) -> is_Some (record_lines name ls d !! name).
Proof. intros H. rewrite record_lines_lookup by eauto. eauto. Qed.

Lemma run_nested_lines b ds :
  nested b ds ->
  forall t w t' w',
    coroutine_id_func t = b -> inside t -> in_unit fn name dsp t ->
    calls_into (check_include t) fn dsp name ds ->
    run ds t w = Ok tt t' w' ->
    data t' = record_lines name (executed_lines (plugin t) ds) (data t) /\
    unit_disposition t' fn dsp.
Proof.
  induction 1 as [|d ds Hev _ IH|c body r ds Hc Hr Hpair Hbody IHbody _ IHrest];
    intros t w t' w' Hb Hin Hu Hcalls Hrun.
  - simpl in Hrun. unfold ret in Hrun. simplify_eq. split; [done|].
    by destruct Hu as (_ & ? & _).
  - pose proof Hin as (Hs & Hm & Hd & Hl).
    pose proof Hu as (Ha & Hud & Hdict & Hplug & Hsome).
    pose proof (deliver_line d t w Hev Hs Hm Hd (fun _ _ => Hl)) as Hstep.
    rewrite (run_cons_ok _ _ _ _ _ _ _ Hstep) in Hrun.
    destruct (line_recorded_attrs (dl_frame d) t) as (Hp & Hd' & Hun & Hds & Hst & Hl').
    apply untouched_eq in Hun as (Hset & Hcache & _ & Hm' & _).
    pose proof (settings_eq _ _ Hset) as (_ & Ha' & Hs' & Hc' & Hor' & Hincl').
    assert (Hdata : data (line_recorded (dl_frame d) t) =
                    record_lines name (lines_of_event (plugin t) d) (data t)).
    { unfold line_recorded, lines_of_event. rewrite Hev.
      destruct (line_span (plugin t) (dl_frame d)) as [a e].
      destruct (Z.eqb a (-1)); [done|]. by rewrite Hdict, Ha. }
    apply Forall_inv_tail in Hcalls.
    destruct (IH (line_recorded (dl_frame d) t) (at_delivery d w) t' w') as [Hdata' Hud'];
      try done.
    + congruence.
    + unfold inside. split_and!; try congruence. by apply Hl'.
    + unfold in_unit. split_and!; try congruence.
      * unfold unit_disposition in *. by rewrite Hcache, Hor'.
      * rewrite Hdata. by apply record_lines_present.
    + by rewrite Hincl'.
    + split; [|done].
      rewrite Hdata', Hdata, Hp, executed_lines_cons. by rewrite record_lines_app.
  - pose proof Hin as (Hs & Hm & Hd & Hl).
    pose proof Hu as (Ha & Hud & Hdict & Hplug & Hsome).
    pose proof (Forall_inv Hcalls) as Hcall.
    apply Forall_inv_tail in Hcalls.
    rewrite Forall_app in Hcalls. destruct Hcalls as [Hcalls_body Hcalls_rest].
    apply Forall_inv_tail in Hcalls_rest.
    destruct (Hcall Hc) as [Hfn Htn].
    destruct (call_body_return b c body r t w (run_nested b body Hbody)
                Hc Hr Hpair Hb Hs Hm)
      as (t1 & w1 & t2 & w2 & t3 & (Hrun1 & Hcalled & Hset1 & Hin1)
          & (Hrun2 & Hin2 & Hres2) & (Hrun3 & Hun3 & Hdata3) & Hctx & Hres3).
    rewrite (run_call_body_return _ _ _ ds _ _ _ _ _ _ _ _ _ _ Hrun1 Hrun2 Hrun3) in Hrun.
    pose proof (settings_eq _ _ Hset1) as (_ & Harcs1 & Hs1 & Hc1 & Hor1 & Hincl1).
    destruct (called_in_unit c t _ t1 w1 Hc Hcalled Hset1 Ha Hud Hfn Htn) as [Hu1 Hdata1].
    rewrite store_with_present in Hdata1 by done.
    destruct (IHbody t1 w1 t2 w2 ltac:(congruence) Hin1 Hu1 ltac:(by rewrite Hincl1) Hrun2)
      as [Hdata2 Hud2].
    pose proof Hres2 as (_ & _ & Hset2 & _).
    pose proof (settings_eq _ _ (eq_trans Hset2 Hset1)) as (_ & Harcs2 & _).
    assert (Hdata3' : data t3 = data t2).
    { rewrite Hdata3. unfold exit_arc_recorded.
      replace (arcs t2) with false by congruence. done. }
    apply untouched_eq in Hun3 as (Hset3 & Hcache3 & _ & Hm3 & _).
    pose proof (settings_eq _ _ (eq_trans Hset3 (eq_trans Hset2 Hset1)))
      as (_ & Harcs3 & Hs3 & Hc3 & Hor3 & Hincl3).
    pose proof (settings_eq _ _ Hset3) as (_ & _ & _ & _ & Hor32 & _).
    destruct (context_eq _ _ Hctx) as (Hp3 & Hd3 & Hl3).
    destruct Hu1 as (_ & _ & _ & Hplug1 & _).
    assert (Hdata_t3 : data t3 = record_lines name (executed_lines (plugin t) body) (data t)).
    { rewrite Hdata3', Hdata2, Hdata1. congruence. }
    destruct (IHrest t3 (at_delivery r w2) t' w') as [Hdata' Hud']; try done.
    + congruence.
    + unfold inside. pose proof Hin2 as (? & ? & _). split_and!; congruence.
    + unfold in_unit. split_and!; try congruence.
      * unfold unit_disposition in *. by rewrite Hcache3, Hor32.
      * rewrite Hdata_t3. by apply record_lines_present.
    + replace (check_include t3) with (check_include t) by congruence. done.
    + split; [|done].
      rewrite Hdata', Hdata_t3, Hp3.
      rewrite executed_lines_cons, !executed_lines_app, executed_lines_cons.
      rewrite !(lines_of_event_not_line _ _) by congruence.
      simpl. by rewrite record_lines_app.
Qed.

Lemma run_blocks_lines b ds :
  blocks b ds ->
  forall t w t' w',
    coroutine_id_func t = b -> stopped t = false -> last_exc_back t = None ->
    arcs t = false -> unit_disposition t fn dsp ->
    calls_into (check_include t) fn dsp name ds ->
    run ds t w = Ok tt t' w' ->
    data t' =
      match ds with
      | [] => data t
      | _ => record_lines name (executed_lines (slot_of_option (disp_plugin dsp)) ds)
               (store_with name (data t))
      end.
Proof.
  induction 1 as [|c body r ds Hc Hr Hpair Hbody Hrest IH];
    intros t w t' w' Hb Hs Hm Ha Hud Hcalls Hrun.
  - simpl in Hrun. unfold ret in Hrun. by simplify_eq.
  - pose proof (Forall_inv Hcalls) as Hcall.
    apply Forall_inv_tail in Hcalls.
    rewrite Forall_app in Hcalls. destruct Hcalls as [Hcalls_body Hcalls_rest].
    apply Forall_inv_tail in Hcalls_rest.
    destruct (Hcall Hc) as [Hfn Htn].
    destruct (call_body_return b c body r t w (run_nested b body Hbody)
                Hc Hr Hpair Hb Hs Hm)
      as (t1 & w1 & t2 & w2 & t3 & (Hrun1 & Hcalled & Hset1 & Hin1)
          & (Hrun2 & Hin2 & Hres2) & (Hrun3 & Hun3 & Hdata3) & Hctx & Hres3).
    rewrite (run_call_body_return _ _ _ ds _ _ _ _ _ _ _ _ _ _ Hrun1 Hrun2 Hrun3) in Hrun.
    pose proof (settings_eq _ _ Hset1) as (_ & Harcs1 & Hs1 & Hc1 & Hor1 & Hincl1).
    destruct (called_in_unit c t _ t1 w1 Hc Hcalled Hset1 Ha Hud Hfn Htn) as [Hu1 Hdata1].
    destruct (run_nested_lines b body Hbody t1 w1 t2 w2 ltac:(congruence) Hin1 Hu1
                ltac:(by rewrite Hincl1) Hrun2) as [Hdata2 Hud2].
    pose proof Hres2 as (_ & _ & Hset2 & _).
    pose proof (settings_eq _ _ (eq_trans Hset2 Hset1)) as (_ & Harcs2 & _).
    assert (Hdata3' : data t3 = data t2).
    { rewrite Hdata3. unfold exit_arc_recorded.
      replace (arcs t2) with false by congruence. done. }
    apply untouched_eq in Hun3 as (Hset3 & Hcache3 & _ & Hm3 & _).
    pose proof (settings_eq _ _ (eq_trans Hset3 (eq_trans Hset2 Hset1)))
      as (_ & Harcs3 & Hs3 & Hc3 & Hor3 & Hincl3).
    pose proof (settings_eq _ _ Hset3) as (_ & _ & _ & _ & Hor32 & _).
    destruct Hu1 as (_ & _ & _ & Hplug1 & _).
    pose proof Hin2 as (Hs2 & Hm2 & _).
    set (p := slot_of_option (disp_plugin dsp)) in *.
    assert (Hdata_t3 : data t3 = record_lines name (executed_lines p body)
                                   (store_with name (data t))).
    { rewrite Hdata3', Hdata2, Hdata1. congruence. }
    assert (Hud3 : unit_disposition t3 fn dsp).
    { unfold unit_disposition in *. by rewrite Hcache3, Hor32. }
    specialize (IH t3 (at_delivery r w2) t' w' ltac:(congruence) ltac:(congruence)
                  ltac:(congruence) ltac:(congruence) Hud3).
    rewrite IH; [|by replace (check_include t3) with (check_include t) by congruence|done].
    rewrite Hdata_t3.
    rewrite executed_lines_cons, !executed_lines_app, executed_lines_cons.
    rewrite !(lines_of_event_not_line _ _) by congruence. simpl.
    destruct ds as [|d ds'].
    + unfold executed_lines. simpl. by rewrite app_nil_r.
    + rewrite store_with_present.
      * by rewrite record_lines_app.
      * apply record_lines_present. rewrite store_with_lookup. eauto.
Qed.
End OneUnit.

(** Without a plugin, and with no frame on the impossible line -1, the
    executed lines are the lines of the frames of the line events. *)
Lemma executed_lines_no_plugin ds :
  Forall (fun d => f_lineno (dl_frame d) <> -1) ds ->
  executed_lines SNone ds =
    (fun d => f_lineno (dl_frame d)) <$> filter (fun d => dl_event d = EvLine) ds.
Proof.
  induction 1 as [|d ds Hd _ IH]; [done|].
  rewrite executed_lines_cons, IH, filter_cons.
  unfold lines_of_event. simpl.
  destruct (dl_event d) eqn:Hev; try (rewrite decide_False by done; done).
  rewrite decide_True by done.
  destruct (Z.eqb_spec (f_lineno (dl_frame d)) (-1)); [done|].
  unfold py_range. replace (f_lineno (dl_frame d) + 1 - f_lineno (dl_frame d)) with 1 by lia.
  simpl. by rewrite Z.add_0_r.
Qed.

(** Recording a key that is present changes nothing. *)
Lemma record_key_present (store : gmap string (gset key)) n s k :
  store !! n = Some s -> k ∈ s -> record_key n k store = store.
Proof.
  intros Hs Hk. unfold record_key. apply insert_id.
  rewrite lookup_total_alt, Hs. simpl. f_equal. symmetry.
  apply subseteq_union_1_L. by apply singleton_subseteq_l.
Qed.

(** Recording a key twice is recording it once. *)
Lemma record_key_twice (store : gmap string (gset key)) n k :
  record_key n k (record_key n k store) = record_key n k store.
Proof.
  apply (record_key_present _ _ ({[k]} ∪ store !!! n)).
  - unfold record_key. by rewrite lookup_insert_eq.
  - apply elem_of_union_l. by apply elem_of_singleton.
Qed.

(** ** Line mode: the record of one traced unit *)

(** C1.  Line mode, well-paired call, line and return events that all
    belong to one traced unit: the run does not raise, and the record of the
    unit holds the executed line numbers, each once however often it was
    executed, next to what the record held before; in a store that had no
    record for the unit it holds exactly them.  The other records are left
    alone.  Recording a key that a record already holds leaves the store
    as it is. *)
Theorem line_mode_records_executed_lines fn name dsp ds t w :
  name <> "" ->
  stopped t = false -> last_exc_back t = None -> arcs t = false ->
  unit_disposition t fn dsp ->
  calls_into (check_include t) fn dsp name ds ->
  blocks (coroutine_id_func t) ds -> ds <> [] ->
  let lines := executed_lines (slot_of_option (disp_plugin dsp)) ds in
  exists t' w',
    run ds t w = Ok tt t' w' /\
    data t' !! name = Some (list_to_set (KLine <$> lines) ∪ data t !!! name) /\
    (data t !! name = None -> data t' !! name = Some (list_to_set (KLine <$> lines))) /\
    (forall n, n <> name -> data t' !! n = data t !! n) /\
    (forall (store : gmap string (gset key)) n s k,
       store !! n = Some s -> k ∈ s -> record_key n k store = store).
Proof.
  intros Hname Hs Hm Ha Hud Hcalls Hblocks Hne lines.
  destruct (run_blocks _ ds Hblocks t w eq_refl Hs Hm) as (t' & w' & Hrun & _).
  pose proof (run_blocks_lines fn name dsp Hname _ ds Hblocks t w t' w'
                eq_refl Hs Hm Ha Hud Hcalls Hrun) as Hdata.
  destruct ds as [|d ds']; [done|]. fold lines in Hdata.
  assert (Hlook : data t' !! name = Some (list_to_set (KLine <$> lines) ∪ data t !!! name)).
  { rewrite Hdata, record_lines_lookup by (right; rewrite store_with_lookup; eauto).
    f_equal. f_equal. rewrite lookup_total_alt, store_with_lookup. done. }
  exists t', w'. split_and!; [done|done| | |].
  - intros Hnone. rewrite Hlook, lookup_total_alt, Hnone. simpl.
    by rewrite (right_id_L ∅ (∪)).
  - intros n Hn. by rewrite Hdata, record_lines_lookup_ne, store_with_lookup_ne.
  - apply record_key_present.
Qed.

(** ** The cache of dispositions and the calls of the oracle *)

Lemma replay_preserves_cache fr :
  preserves (fun t w => (should_trace_cache t, oracle_calls w)) (replay_skipped_return fr).
Proof.
  unfold replay_skipped_return, pop_context, setitem_arc. repeat preserves_step.
Qed.

Lemma handle_preserves_cache fr ev :
  ev <> EvCall ->
  preserves (fun t w => (should_trace_cache t, oracle_calls w)) (handle fr ev).
Proof.
  intros Hev.
  destruct ev; try done; unfold handle, on_line, on_return, on_exception,
    pop_context, setitem_arc, setitem_line; repeat preserves_step.
Qed.

(** One delivery to a running tracer: a call event looks the file name of
    its frame up and asks the oracle on a miss; nothing else touches the
    cache or the oracle. *)
Lemma deliver_cache d t w v t' w' :
  stopped t = false -> deliver d t w = Ok v t' w' ->
  settings t' = settings t /\
  match dl_event d with
  | EvCall =>
      let fn := co_filename (f_code (dl_frame d)) in
      should_trace_cache t' = <[fn := resolved t (dl_frame d)]> (should_trace_cache t) /\
      oracle_calls w' =
        match should_trace_cache t !! fn with
        | Some _ => oracle_calls w
        | None => (fn, dl_frame d) :: oracle_calls w
        end
  | _ => should_trace_cache t' = should_trace_cache t /\ oracle_calls w' = oracle_calls w
  end.
Proof.
  intros Hs Hrun.
  pose proof (trace_preserves_settings (dl_frame d) (dl_event d) t (at_delivery d w)) as Hset.
  unfold deliver in Hrun. fold (at_delivery d w) in Hrun.
  rewrite Hrun in Hset. simpl in Hset. split; [done|].
  rewrite trace_running in Hrun by done. unfold bind in Hrun.
  pose proof (replay_preserves_cache (dl_frame d) t (at_delivery d w)) as Hrep.
  pose proof (replay_preserves_settings (dl_frame d) t (at_delivery d w)) as Hrset.
  destruct (replay_skipped_return (dl_frame d) t (at_delivery d w)) as [[] tr wr|];
    [|done].
  simpl in Hrep, Hrset. injection Hrep as Hcache Horacle.
  apply settings_eq in Hrset as (_ & _ & _ & _ & Hor & _).
  destruct (decide (dl_event d = EvCall)) as [Hev|Hev].
  - rewrite Hev in *. simpl in Hrun.
    destruct (on_call_ok (dl_frame d) tr wr) as (t1 & w1 & Hcall & Hcalled).
    rewrite Hcall in Hrun. unfold gets, ret in Hrun.
    injection Hrun as _ <- <-.
    rewrite (called_cache _ _ _ _ _ Hcalled), (called_oracle _ _ _ _ _ Hcalled).
    unfold resolved. rewrite Hcache, Hor, Horacle. done.
  - pose proof (handle_preserves_cache (dl_frame d) _ Hev tr wr) as H.
    destruct (handle (dl_frame d) (dl_event d) tr wr) as [[] th wh|]; [|done].
    simpl in H. injection H as Hc Ho.
    unfold gets, ret in Hrun. injection Hrun as _ <- <-.
    destruct (dl_event d); try done; split; congruence.
Qed.

Lemma run_oracle_calls fn ds :
  forall t w t' w',
    stopped t = false -> run ds t w = Ok tt t' w' ->
    settings t' = settings t /\
    oracle_calls_for fn w' =
      (match should_trace_cache t !! fn, first_call fn ds with
       | None, Some fr => [(fn, fr)]
       | _, _ => []
       end ++ oracle_calls_for fn w)%list /\
    should_trace_cache t' !! fn =
      match should_trace_cache t !! fn with
      | Some d => Some d
      | None => should_trace t fn <$> first_call fn ds
      end.
Proof.
  induction ds as [|d ds IH]; intros t w t' w' Hs Hrun.
  - simpl in Hrun. unfold ret in Hrun. simplify_eq.
    split_and!; [done| |]; by destruct (should_trace_cache t' !! fn).
  - simpl in Hrun. unfold bind in Hrun.
    destruct (deliver d t w) as [v t1 w1|] eqn:Hstep; [|done].
    destruct (deliver_cache d t w v t1 w1 Hs Hstep) as [Hset1 Hstep'].
    pose proof (settings_eq _ _ Hset1) as (_ & _ & Hs1 & _ & Hor1 & _).
    destruct (IH t1 w1 t' w' ltac:(congruence) Hrun) as (Hset' & Hcalls & Hcache).
    split; [congruence|].
    rewrite Hcalls, Hcache, Hor1. clear Hcalls Hcache IH Hrun.
    unfold first_call. rewrite filter_cons.
    destruct (decide (is_call_into fn d)) as [[Hev Hfn]|Hno].
    + rewrite Hev in Hstep'. simpl in Hstep'. rewrite Hfn in Hstep'.
      destruct Hstep' as [-> Horacle]. rewrite lookup_insert_eq. simpl.
      unfold oracle_calls_for at 1. rewrite Horacle.
      unfold resolved. rewrite Hfn.
      destruct (should_trace_cache t !! fn) eqn:Hlook; simpl; [done|].
      rewrite filter_cons, decide_True by done. done.
    + assert (Hsame : should_trace_cache t1 !! fn = should_trace_cache t !! fn /\
                      oracle_calls_for fn w1 = oracle_calls_for fn w).
      { unfold oracle_calls_for, is_call_into in *.
        destruct (dl_event d); try (destruct Hstep' as [-> ->]; done).
        simpl in Hstep'. destruct Hstep' as [-> ->].
        assert (co_filename (f_code (dl_frame d)) <> fn) by naive_solver.
        rewrite lookup_insert_ne by done. split; [done|].
        destruct (should_trace_cache t !! _); [done|].
        by rewrite filter_cons, decide_False. }
      destruct Hsame as [-> ->]. done.
Qed.

(** ** Attributes a computation does not read

    [respects erase m]: started in two tracers that [erase] makes equal,
    [m] ends in two tracers that [erase] makes equal, with the same result
    and the same world. *)

Section Respects.
Variable erase : PyTracer -> PyTracer.

Lemma respects_ret {A} (a : A) : respects erase (ret a).
Proof. intros t t' w H. simpl. by rewrite H. Qed.

Lemma respects_raise {A} (e : exn) : respects erase (@raise A e).
Proof. intros t t' w H. simpl. by rewrite H. Qed.

Lemma respects_gets {A} (attr : PyTracer -> A) :
  (forall t, attr (erase t) = attr t) -> respects erase (gets attr).
Proof.
  intros Hattr t t' w H. unfold gets. simpl.
  rewrite <- (Hattr t), <- (Hattr t'). by rewrite H.
Qed.

Lemma respects_gets_world {A} (attr : world -> A) : respects erase (gets_world attr).
Proof. intros t t' w H. simpl. by rewrite H. Qed.

Lemma respects_modify f :
  (forall t, erase (f (erase t)) = erase (f t)) -> respects erase (modify f).
Proof.
  intros Hf t t' w H. unfold modify. simpl.
  rewrite <- (Hf t), <- (Hf t'). by rewrite H.
Qed.

Lemma respects_modify_world f : respects erase (modify_world f).
Proof. intros t t' w H. simpl. by rewrite H. Qed.

Lemma respects_bind {A B} (m : M A) (k : A -> M B) :
  respects erase m -> (forall a, respects erase (k a)) -> respects erase (bind m k).
Proof.
  intros Hm Hk t t' w H. unfold bind. specialize (Hm t t' w H).
  destruct (m t w) as [a t1 w1|e t1 w1], (m t' w) as [a' t1' w1'|e' t1' w1'];
    simpl in Hm; try done.
  - injection Hm as Ha Ht Hw. subst a' w1'. by apply Hk.
  - injection Hm as He Ht Hw. simpl. by rewrite He, Ht, Hw.
Qed.

Lemma respects_when b m : respects erase m -> respects erase (when b m).
Proof. intros H. destruct b; [done|]. apply respects_ret. Qed.

Lemma respects_for_each l body :
  (forall x, respects erase (body x)) -> respects erase (for_each l body).
Proof.
  intros H. induction l as [|x l IH]; simpl.
  - apply respects_ret.
  - apply respects_bind; [apply H | by intros _].
Qed.
End Respects.

Ltac origin_unused :=
  intros; unfold forget_origin, set_context, select_stack, set_cur_stack, get_context,
    cur_stack, cur_file_dict_truthy; simpl;
  repeat case_match; reflexivity.

Ltac respects_step :=
  lazymatch goal with
  | |- respects _ (bind _ _) => apply respects_bind; [|intros ?]
  | |- respects _ (ret _) => apply respects_ret
  | |- respects _ (raise _) => apply respects_raise
  | |- respects _ (gets _) => apply respects_gets; origin_unused
  | |- respects _ (gets_world _) => apply respects_gets_world
  | |- respects _ (when _ _) => apply respects_when
  | |- respects _ (for_each _ _) => apply respects_for_each; intros ?
  | |- respects _ (modify _) => apply respects_modify; origin_unused
  | |- respects _ (modify_world _) => apply respects_modify_world
  | |- respects _ (match ?x with _ => _ end) => destruct x
  end.

Lemma handle_respects fr ev : respects forget_origin (handle fr ev).
Proof.
  destruct ev; unfold handle, on_call, on_line, on_return, on_exception,
    push_context, pop_context, resolve_disposition, setitem_arc, setitem_line;
    repeat respects_step.
Qed.

(** ** The replay of a skipped return *)

Lemma replay_ok fr t w x l :
  last_exc_back t = Some (f_id fr) ->
  stack_at (active_ref (current_coroutine w) t) t = x :: l ->
  (arcs t = true -> last_line t <> LInit) ->
  replay_skipped_return fr t w = Ok tt (replayed (current_coroutine w) x l t) w.
Proof.
  intros Hb Hst Hl. unfold replay_skipped_return, replayed.
  unfold bind at 1, gets at 1. rewrite Hb. rewrite Nat.eqb_refl. unfold when at 1.
  set (t1 := exit_arc_recorded _ t).
  assert (Hrec : when (arcs t && cur_file_dict_truthy t)
                   (first <- gets last_exc_firstlineno ;;
                    setitem_arc (- first))%py t w = Ok tt t1 w).
  { subst t1. unfold exit_arc_recorded, when.
    destruct (arcs t && cur_file_dict_truthy t) eqn:Hb'; [|done].
    apply andb_true_iff in Hb' as [Ha Hb']. unfold cur_file_dict_truthy in Hb'.
    destruct (cur_file_dict t) as [| |name] eqn:Hd; try done.
    destruct (last_line t) as [|ll] eqn:Hll; [by destruct Hl|].
    unfold bind, gets. by apply setitem_arc_ok. }
  assert (Hsel : (id_func <- gets coroutine_id_func ;;
                  when id_func
                    (c <- gets_world current_coroutine ;;
                     modify (select_stack c)) ;;;
                  pop_context)%py t1 w =
                 pop_context (selected (current_coroutine w) false t1) w).
  { unfold selected. exec. by destruct (coroutine_id_func t1). }
  unfold bind at 1 2 3 4, gets at 1 2. rewrite Hrec, Hsel.
  rewrite (select_then_pop _ _ _ _ x l).
  - done.
  - subst t1. by destruct (exit_arc_recorded_data (last_exc_firstlineno t) t) as [d ->].
Qed.

Lemma replay_clears_marker fr t w t' w' :
  replay_skipped_return fr t w = Ok tt t' w' -> last_exc_back t' = None.
Proof.
  unfold replay_skipped_return. unfold bind at 1, gets at 1.
  destruct (last_exc_back t) as [back|] eqn:Hb.
  - unfold bind. destruct (when _ _ t w); [|done].
    unfold modify. by intros [= <- <-].
  - unfold ret. by intros [= <- <-].
Qed.

(** After an event that returns, the marker is the caller of the frame of
    an exception event, and nothing after any other event: a marker that
    was pending never stays. *)
Lemma deliver_marker d t w v t' w' :
  stopped t = false -> deliver d t w = Ok v t' w' ->
  last_exc_back t' =
    match dl_event d with
    | EvException => f_back (dl_frame d)
    | _ => None
    end.
Proof.
  intros Hs Hrun. unfold deliver in Hrun. rewrite trace_running in Hrun by done.
  unfold bind in Hrun.
  destruct (replay_skipped_return (dl_frame d) t _) as [[] tr wr|] eqn:Hrep; [|done].
  apply replay_clears_marker in Hrep.
  destruct (decide (dl_event d = EvException)) as [Hev|Hev].
  - rewrite Hev in *. simpl in Hrun. unfold on_exception in Hrun.
    unfold bind, modify, gets, ret in Hrun. by injection Hrun as _ <- _.
  - pose proof (handle_preserves_marker (dl_frame d) _ Hev tr wr) as H.
    destruct (handle (dl_frame d) (dl_event d) tr wr) as [[] th wh|]; [|done].
    simpl in H. unfold gets, ret in Hrun. injection Hrun as _ <- _.
    rewrite H, Hrep. by destruct (dl_event d).
Qed.

Lemma run_one d t w :
  run [d] t w =
    match deliver d t w with
    | Ok _ t' w' => Ok tt t' w'
    | Raise e t' w' => Raise e t' w'
    end.
Proof. simpl. unfold bind, ret. by destruct (deliver d t w). Qed.

Lemma after_replay_respects fr ev : respects forget_origin (after_replay fr ev).
Proof.
  unfold after_replay. apply respects_bind; [apply handle_respects|intros _].
  repeat respects_step.
Qed.

(** From a tracer inside a call: an exception event then an event in the
    caller's frame, against a return event then the same event. *)
Lemma exception_then_caller_event g f ev c t w x l :
  stopped t = false -> last_exc_back t = None ->
  f_back g = Some (f_id f) ->
  stack_at (active_ref c t) t = x :: l ->
  (arcs t = true -> last_line t <> LInit) ->
  (coroutine_id_func t = true -> last_coroutine t = Some c) ->
  map_outcome forget_origin
    (run [delivery_of c g EvException; delivery_of c f ev] t w) =
  map_outcome forget_origin
    (run [delivery_of c g EvReturn; delivery_of c f ev] t w).
Proof.
  intros Hs Hm Hback Hst Hl Hlc.
  set (wd := at_delivery (delivery_of c f ev) (at_delivery (delivery_of c g EvReturn) w)).
  (* the return event, then the event in the caller *)
  assert (HB : run [delivery_of c g EvReturn; delivery_of c f ev] t w =
               match after_replay f ev (returned g c x l t) wd with
               | Ok _ t' w' => Ok tt t' w'
               | Raise e t' w' => Raise e t' w'
               end).
  { pose proof (deliver_return (delivery_of c g EvReturn) t w x l eq_refl Hs Hm Hst Hl)
      as Hret.
    destruct (returned_attrs g c x l t) as (_ & Hun & _).
    apply untouched_eq in Hun as (Hset & _ & _ & Hmr & _).
    apply settings_eq in Hset as (_ & _ & Hsr & _).
    rewrite (run_cons_ok _ _ _ _ _ _ _ Hret), run_one.
    unfold deliver. unfold delivery_of, dl_frame, dl_coroutine, dl_event.
    rewrite trace_running by congruence.
    unfold bind at 1. rewrite replay_none by congruence. done. }
  (* the exception event, then the event in the caller *)
  set (te := set_last_exc_firstlineno (co_firstlineno (f_code g))
               (set_last_exc_back (Some (f_id f)) t)).
  assert (HA : run [delivery_of c g EvException; delivery_of c f ev] t w =
               match after_replay f ev (replayed c x l te) wd with
               | Ok _ t' w' => Ok tt t' w'
               | Raise e t' w' => Raise e t' w'
               end).
  { assert (Hexc : deliver (delivery_of c g EvException) t w =
              Ok (Some (TraceOf (obj_id t))) te
                 (at_delivery (delivery_of c g EvReturn) w)).
    { rewrite deliver_plain by done. simpl. unfold on_exception, bind, modify.
      by rewrite Hback. }
    rewrite (run_cons_ok _ _ _ _ _ _ _ Hexc), run_one.
    unfold deliver. rewrite trace_running by done.
    unfold bind at 1.
    rewrite (replay_ok _ _ _ x l); [done|done|exact Hst|exact Hl]. }
  rewrite HA, HB.
  (* the two tracers differ in the remembered first line only *)
  assert (Heq : forget_origin (replayed c x l te) = forget_origin (returned g c x l t)).
  { clear HA HB Hst Hl Hs. subst te.
    unfold replayed, returned, selected, exit_arc_recorded, cur_file_dict_truthy,
      set_context, set_cur_stack, select_stack, forget_origin.
    destruct t as [id store ar oracle cache wn pd incl thr plg dict ll ds own dss
                     back origin th st idf lc]; simpl in *. subst.
    destruct idf; [rewrite Hlc by done|];
      destruct ar, dict, ll, ds; simpl;
      try case_bool_decide; reflexivity. }
  pose proof (after_replay_respects f ev _ _ wd Heq) as Hresp.
  destruct (after_replay f ev (replayed c x l te) wd),
           (after_replay f ev (returned g c x l t) wd); simpl in *; congruence.
Qed.

Lemma replay_mismatch fr t w back :
  last_exc_back t = Some back -> f_id fr <> back ->
  replay_skipped_return fr t w = Ok tt (set_last_exc_back None t) w.
Proof.
  intros Hb Hne. unfold replay_skipped_return, bind at 1, gets at 1. rewrite Hb.
  apply Nat.eqb_neq in Hne. rewrite Hne. done.
Qed.

Lemma replay_preserves_surroundings fr :
  preserves (fun _ w => surroundings w) (replay_skipped_return fr).
Proof.
  unfold replay_skipped_return, pop_context, setitem_arc. repeat preserves_step.
Qed.

Lemma handle_preserves_surroundings fr ev :
  preserves (fun _ w => surroundings w) (handle fr ev).
Proof.
  destruct ev; unfold handle, on_call, on_line, on_return, on_exception,
    push_context, pop_context, resolve_disposition, setitem_arc, setitem_line;
    repeat preserves_step.
Qed.

(** A call event that returns leaves the tracer inside the call, with the
    caller's context on the stack of the coroutine of the event. *)
Lemma deliver_call_pushed d t w v t' w' :
  dl_event d = EvCall -> stopped t = false -> deliver d t w = Ok v t' w' ->
  stopped t' = false /\ last_exc_back t' = None /\ last_line t' = LNo (-1) /\
  (exists x l, stack_at (active_ref (dl_coroutine d) t') t' = x :: l) /\
  (coroutine_id_func t' = true -> last_coroutine t' = Some (dl_coroutine d)).
Proof.
  intros Hev Hs Hrun.
  pose proof (deliver_marker d t w v t' w' Hs Hrun) as Hm. rewrite Hev in Hm.
  pose proof (trace_preserves_settings (dl_frame d) (dl_event d) t (at_delivery d w)) as Hset.
  unfold deliver in Hrun. fold (at_delivery d w) in Hrun.
  rewrite Hrun in Hset. simpl in Hset.
  apply settings_eq in Hset as (_ & _ & Hs' & Hc' & _).
  rewrite trace_running in Hrun by done. unfold bind in Hrun.
  pose proof (replay_preserves_settings (dl_frame d) t (at_delivery d w)) as Hrset.
  destruct (replay_skipped_return (dl_frame d) t (at_delivery d w)) as [[] tr wr|] eqn:Hrep;
    [|done].
  assert (Hwr : current_coroutine wr = dl_coroutine d).
  { pose proof (replay_preserves_surroundings (dl_frame d) t (at_delivery d w)) as H.
    rewrite Hrep in H. simpl in H.
    exact (f_equal (fun p => p.1.1.1.2) H). }
  simpl in Hrset. apply settings_eq in Hrset as (_ & _ & _ & Hcr & _).
  rewrite Hev in Hrun. simpl in Hrun.
  destruct (on_call_ok (dl_frame d) tr wr) as (t1 & w1 & Hcall & Hcalled).
  rewrite Hcall in Hrun. unfold gets, ret in Hrun. injection Hrun as _ <- <-.
  pose proof (called_last_coroutine _ _ _ _ _ Hcalled) as Hlc.
  pose proof (called_stacks _ _ _ _ _ Hcalled (active_ref (dl_coroutine d) tr)) as Hst.
  rewrite Hwr in Hlc, Hst. rewrite decide_True in Hst by done.
  assert (Href : active_ref (dl_coroutine d) t1 = active_ref (dl_coroutine d) tr).
  { unfold active_ref at 1. rewrite Hc', <- Hcr.
    rewrite (called_data_stack _ _ _ _ _ Hcalled), Hwr.
    unfold active_ref. by destruct (coroutine_id_func tr). }
  split_and!; [congruence|done|by rewrite (called_last_line _ _ _ _ _ Hcalled)| |].
  - rewrite Href. eauto.
  - intros Ht. rewrite Hlc. replace (coroutine_id_func tr) with true by congruence. done.
Qed.

(** ** Concrete sessions *)

Lemma blocks_f_called_twice : blocks false f_called_twice.
Proof.
  unfold f_called_twice, call_of_f. simpl.
  apply (blocks_call false _ [_; _; _] _ [_; _; _; _; _]); try done.
  - repeat (apply nested_line; [done|]). apply nested_nil.
  - apply (blocks_call false _ [_; _; _] _ []); try done.
    + repeat (apply nested_line; [done|]). apply nested_nil.
    + apply blocks_nil.
Defined.

Lemma line_mode_records_executed_lines_witness :
  exists t' w',
    run f_called_twice (fresh_tracer false trace_every_file false) (new_world 0)
      = Ok tt t' w' /\
    data t' !! "f.py" = Some {[KLine 10; KLine 11; KLine 12]}.
Proof.
  destruct (line_mode_records_executed_lines "f.py" "f.py"
              (trace_every_file "f.py" (f_frame 2 10)) f_called_twice
              (fresh_tracer false trace_every_file false) (new_world 0))
    as (t' & w' & Hrun & _ & Hexact & _).
  - discriminate.
  - reflexivity.
  - reflexivity.
  - reflexivity.
  - vm_compute. intros fr. reflexivity.
  - unfold calls_into, f_called_twice, call_of_f. simpl.
    repeat (constructor; [intros H; first [discriminate H | split; reflexivity]|]).
    constructor.
  - exact blocks_f_called_twice.
  - discriminate.
  - exists t', w'. split; [exact Hrun|].
    rewrite Hexact by reflexivity. vm_compute. reflexivity.
Defined.

(** C8.  The function [f], body lines 10 to 12, called twice from line 5
    of its caller.  In line mode the record of [f.py] is {10, 11, 12} at the
    end.  In arc mode it is {(-1,10), (10,11), (11,12), (12,-10)} after the
    first call, and the same after the second.  No delivery raises. *)
Theorem f_called_twice_from_line_5 :
  let line_mode := fresh_tracer false trace_every_file false in
  let arc_mode := fresh_tracer true trace_every_file false in
  let both := (first_call_of_f ++ second_call_of_f)%list in
  (returns (run both line_mode (new_world 0)) = true /\
   data (final_tracer (run both line_mode (new_world 0))) !! "f.py"
     = Some {[KLine 10; KLine 11; KLine 12]}) /\
  (returns (run both arc_mode (new_world 0)) = true /\
   data (final_tracer (run first_call_of_f arc_mode (new_world 0))) !! "f.py"
     = Some {[KArc (-1) 10; KArc 10 11; KArc 11 12; KArc 12 (-10)]} /\
   data (final_tracer (run both arc_mode (new_world 0))) !! "f.py"
     = Some {[KArc (-1) 10; KArc 10 11; KArc 11 12; KArc 12 (-10)]}).
Proof. cbv zeta. split_and!; vm_compute; reflexivity. Qed.

(** C2.  Evaluation of the return handler in arc mode on a record that is
    active and still empty: a call into [f.py] whose plugin reports no line
    for the line event, or a call that returns before any line event.  The
    record of [f.py] is the live one when the return event arrives, and
    it is still empty afterwards: no exit arc has been recorded. *)
Theorem return_on_empty_record_records_no_exit_arc :
  let enter := [delivery_of 0 (f_frame 2 10) EvCall; delivery_of 0 (f_frame 2 10) EvLine] in
  let leave := [delivery_of 0 (f_frame 2 10) EvReturn] in
  let with_plugin := fresh_tracer true trace_with_silent_plugin false in
  let without := fresh_tracer true trace_every_file false in
  (let t1 := final_tracer (run enter with_plugin (new_world 0)) in
   arcs t1 = true /\ cur_file_dict t1 = SObj "f.py" /\ data t1 !! "f.py" = Some ∅) /\
  (returns (run (enter ++ leave) with_plugin (new_world 0)) = true /\
   data (final_tracer (run (enter ++ leave) with_plugin (new_world 0))) !! "f.py"
     = Some ∅) /\
  (let t1 := final_tracer (run (take 1 enter) without (new_world 0)) in
   arcs t1 = true /\ cur_file_dict t1 = SObj "f.py" /\ data t1 !! "f.py" = Some ∅) /\
  (returns (run (take 1 enter ++ leave) without (new_world 0)) = true /\
   data (final_tracer (run (take 1 enter ++ leave) without (new_world 0))) !! "f.py"
     = Some ∅).
Proof. cbv zeta. split_and!; vm_compute; reflexivity. Qed.

(** C3.  A call event for the frame [g], an exception event in [g], then
    any event in the frame [f] that called [g]: the outcome is the outcome
    of the same deliveries with a return event in place of the exception
    event - the same result, the same world and the same tracer (data
    store, plugin data, cache, context and stacks), but for the first line
    the exception event remembered.  The replay leaves no marker pending,
    whether the frames are the same or not; when they are not, clearing the
    marker is all it does. *)
Theorem skipped_return_is_replayed t w g f ev c :
  stopped t = false -> f_back g = Some (f_id f) ->
  map_outcome forget_origin
    (run [delivery_of c g EvCall; delivery_of c g EvException; delivery_of c f ev] t w) =
  map_outcome forget_origin
    (run [delivery_of c g EvCall; delivery_of c g EvReturn; delivery_of c f ev] t w) /\
  (forall fr t0 w0 t' w',
     replay_skipped_return fr t0 w0 = Ok tt t' w' -> last_exc_back t' = None) /\
  (forall fr t0 w0 back,
     last_exc_back t0 = Some back -> f_id fr <> back ->
     replay_skipped_return fr t0 w0 = Ok tt (set_last_exc_back None t0) w0).
Proof.
  intros Hs Hback. split_and!.
  - destruct (deliver (delivery_of c g EvCall) t w) as [v t1 w1|e t1 w1] eqn:Hcall.
    + rewrite !(run_cons_ok _ _ _ _ _ _ _ Hcall).
      destruct (deliver_call_pushed (delivery_of c g EvCall) _ _ _ _ _ eq_refl Hs Hcall)
        as (Hs1 & Hm1 & Hl1 & (x & l & Hst1) & Hlc1).
      apply (exception_then_caller_event g f ev c t1 w1 x l); try done.
      intros _. by rewrite Hl1.
    + simpl. unfold bind. by rewrite Hcall.
  - apply replay_clears_marker.
  - apply replay_mismatch.
Qed.

Lemma skipped_return_is_replayed_witness :
  let t := final_tracer (run first_call_of_f (fresh_tracer true trace_every_file false)
                           (new_world 0)) in
  let skipped :=
    run [delivery_of 0 (f_frame 3 10) EvCall; delivery_of 0 (f_frame 3 10) EvException;
         delivery_of 0 (main_frame 6) EvLine] t (new_world 0) in
  let explicit :=
    run [delivery_of 0 (f_frame 3 10) EvCall; delivery_of 0 (f_frame 3 10) EvReturn;
         delivery_of 0 (main_frame 6) EvLine] t (new_world 0) in
  map_outcome forget_origin skipped = map_outcome forget_origin explicit /\
  returns skipped = true /\ returns explicit = true /\
  data t !! "f.py" = Some {[KArc (-1) 10; KArc 10 11; KArc 11 12; KArc 12 (-10)]} /\
  data (final_tracer skipped) !! "f.py"
    = Some {[KArc (-1) 10; KArc 10 11; KArc 11 12; KArc 12 (-10); KArc (-1) (-10)]} /\
  data (final_tracer explicit) !! "f.py"
    = Some {[KArc (-1) 10; KArc 10 11; KArc 11 12; KArc 12 (-10); KArc (-1) (-10)]} /\
  data (final_tracer skipped) !! "main.py" = Some {[KArc (-1) 5; KArc 5 6]} /\
  own_stack (final_tracer skipped) = own_stack t.
Proof.
  cbv zeta.
  destruct (skipped_return_is_replayed
              (final_tracer (run first_call_of_f (fresh_tracer true trace_every_file false)
                               (new_world 0)))
              (new_world 0) (f_frame 3 10) (main_frame 6) EvLine 0%nat)
    as (Heq & _ & _).
  - vm_compute. reflexivity.
  - reflexivity.
  - split; [exact Heq|]. split_and!; vm_compute; reflexivity.
Defined.

(** A line event in a frame that is not traced, after a call into a file
    the oracle rejects: the line of the frame becomes [last_line]. *)
Lemma untraced_line_event_sets_last_line :
  let t := final_tracer (run [delivery_of 0 (f_frame 2 10) EvCall]
                           (fresh_tracer false trace_no_file false) (new_world 0)) in
  let after := final_tracer (_trace (f_frame 2 11) EvLine t (new_world 0)) in
  stopped t = false /\ cur_file_dict t = SNone /\
  last_line t = LNo (-1) /\ last_line after = LNo 11 /\ after <> t.
Proof.
  cbv zeta. split_and!; try (vm_compute; reflexivity).
  intros H. apply (f_equal last_line) in H. vm_compute in H. discriminate H.
Qed.

(** C4 (as amended).  A line event delivered to a running tracer with no
    marker pending and no active per-file dict returns, and leaves the data
    store, the plugin, the per-file dict, the stacks and the world as they
    were; it sets [last_line] to the end of the span of the event, unless
    the span starts at -1, in which case the tracer is unchanged. *)
Theorem line_event_without_record fr t w :
  stopped t = false -> last_exc_back t = None -> cur_file_dict t = SNone ->
  _trace fr EvLine t w =
    Ok (Some (TraceOf (obj_id t)))
       (let '(lineno_from, lineno_to) := line_span (plugin t) fr in
        if Z.eqb lineno_from (-1) then t else set_last_line (LNo lineno_to) t)
       w.
Proof.
  intros Hs Hm Hd. rewrite trace_plain by done. simpl.
  rewrite on_line_ok by (rewrite Hd; done).
  unfold line_recorded. rewrite Hd.
  destruct (line_span (plugin t) fr) as [a b]. by destruct (Z.eqb a (-1)).
Qed.

Lemma line_event_without_record_witness :
  let t := set_last_line (LNo (-1))
             (set_cur_file_dict SNone (fresh_tracer false trace_no_file false)) in
  _trace (f_frame 2 11) EvLine t (new_world 0) =
    Ok (Some (TraceOf 1)) (set_last_line (LNo 11) t) (new_world 0).
Proof.
  apply (line_event_without_record (f_frame 2 11)
           (set_last_line (LNo (-1))
              (set_cur_file_dict SNone (fresh_tracer false trace_no_file false)))
           (new_world 0)); reflexivity.
Defined.

(** C5.  Evaluation of the trace function on a tracer that was started
    and then stopped: for a call event it returns [None], which is not the
    hook [start] registered and returned.  The comment at the head of the
    class says that the trace function must always return itself and cannot
    return [None]. *)
Lemma stopped_trace_returns_none :
  let t0 := new_tracer 1 false trace_every_file (fun _ => true) true false false in
  let started := start t0 (new_world 0) in
  let stopped_t := final_tracer (stop (final_tracer started) (final_world started)) in
  let w := final_world (stop (final_tracer started) (final_world started)) in
  started = Ok (TraceOf 1) (final_tracer started) (final_world started) /\
  stopped stopped_t = true /\
  _trace (f_frame 2 10) EvCall stopped_t w = Ok None stopped_t w /\
  (None : option pyfun) <> Some (TraceOf 1).
Proof. cbv zeta. split_and!; try (vm_compute; reflexivity). discriminate. Qed.

(** While the tracer is not stopped, the trace function returns the hook
    [start] registered: the bare [return] of a stopped tracer is the one
    path that does not.  The identity of the tracer does not change. *)
Lemma trace_returns_itself_until_stopped t0 w0 h t1 w1 fr ev t w v t' w' :
  start t0 w0 = Ok h t1 w1 -> obj_id t = obj_id t0 ->
  _trace fr ev t w = Ok v t' w' ->
  sys_gettrace w1 = Some h /\
  v = (if stopped t then None else Some h) /\
  obj_id t' = obj_id t0.
Proof.
  intros Hstart Hid Hrun. rewrite start_spec in Hstart. injection Hstart as <- <- <-.
  destruct (trace_returns _ _ _ _ _ _ _ Hrun) as [-> Hid'].
  split_and!.
  - unfold sys_gettrace. simpl. by rewrite lookup_insert_eq.
  - by rewrite Hid.
  - congruence.
Qed.

(** C6.  A running tracer whose cache has no entry for the raw file name
    [fn], and deliveries that all return.  The oracle has been called for
    [fn] once if the deliveries hold a call event into [fn] - with the
    frame of the first of them - and not at all otherwise, however many
    call events into [fn] there are; its answer is what the cache holds
    for [fn].  Resolving a file name that is in the cache gives the cached
    disposition and changes neither the tracer nor the world. *)
Theorem oracle_called_once_per_file fn ds t w t' w' :
  stopped t = false -> should_trace_cache t !! fn = None ->
  run ds t w = Ok tt t' w' ->
  oracle_calls_for fn w' =
    (match first_call fn ds with
     | Some fr => [(fn, fr)]
     | None => []
     end ++ oracle_calls_for fn w)%list /\
  should_trace_cache t' !! fn = should_trace t fn <$> first_call fn ds /\
  (forall fr (t0 : PyTracer) w0 disp,
     should_trace_cache t0 !! co_filename (f_code fr) = Some disp ->
     resolve_disposition fr t0 w0 = Ok disp t0 w0).
Proof.
  intros Hs Hnone Hrun.
  destruct (run_oracle_calls fn ds t w t' w' Hs Hrun) as (_ & Hcalls & Hcache).
  rewrite Hnone in Hcalls, Hcache. split_and!.
  - rewrite Hcalls. by destruct (first_call fn ds).
  - done.
  - intros fr t0 w0 disp Hhit. unfold resolve_disposition, bind, gets. by rewrite Hhit.
Qed.

Lemma oracle_called_once_per_file_witness :
  let t := fresh_tracer false trace_every_file false in
  let o := run f_called_twice t (new_world 0) in
  oracle_calls_for "f.py" (final_world o) = [("f.py", f_frame 2 10)] /\
  should_trace_cache (final_tracer o) !! "f.py" = Some (trace_every_file "f.py" (f_frame 2 10)).
Proof.
  destruct (oracle_called_once_per_file "f.py" f_called_twice
              (fresh_tracer false trace_every_file false) (new_world 0)
              (final_tracer (run f_called_twice (fresh_tracer false trace_every_file false)
                               (new_world 0)))
              (final_world (run f_called_twice (fresh_tracer false trace_every_file false)
                              (new_world 0))))
    as (Hcalls & Hcache & _).
  - reflexivity.
  - reflexivity.
  - vm_compute. reflexivity.
  - split; [exact Hcalls|exact Hcache].
Defined.

Lemma stop_spec t w :
  stop t w =
    if threading t && bool_decide (thread t <> Some (current_thread w)) then
      Ok tt (set_stopped true t) w
    else
      Ok tt (set_stopped true t)
         (set_trace_hooks (delete (current_thread w) (trace_hooks w))
            (if has_gettrace w && warn t
                && bool_decide (sys_gettrace w <> Some (TraceOf (obj_id t)))
             then set_warnings (sys_gettrace w :: warnings w) w else w)).
Proof.
  unfold stop. exec.
  destruct (threading t && bool_decide (thread t <> Some (current_thread w))); [done|].
  simpl. destruct (has_gettrace w && warn t); simpl; [|done].
  by destruct (bool_decide (sys_gettrace w <> Some (TraceOf (obj_id t)))).
Qed.

Lemma run_stopped ds t w :
  stopped t = true -> exists w', run ds t w = Ok tt t w'.
Proof.
  intros Hs. revert w. induction ds as [|d ds IH]; intros w; simpl.
  - by exists w.
  - unfold bind, deliver. rewrite trace_stopped by done. apply IH.
Qed.

(** No threading module is set: the tracer was started on thread 0, and
    thread 1 has a hook of its own.  [stop] on thread 1 sets the flag, and it
    also removes the hook of thread 1 and warns about it; the hook the
    tracer registered on thread 0 stays. *)
Lemma stop_without_threading_unhooks_the_caller :
  let t0 := new_tracer 1 false trace_every_file (fun _ => true) false true false in
  let t := final_tracer (start t0 (new_world 0)) in
  let w1 := final_world (start t0 (new_world 0)) in
  let w := set_current_thread 1
             (set_trace_hooks (<[1%nat := OtherFun 7]> (trace_hooks w1)) w1) in
  let w' := final_world (stop t w) in
  thread t = None /\ current_thread w <> 0%nat /\
  final_tracer (stop t w) = set_stopped true t /\
  trace_hooks w !! 1%nat = Some (OtherFun 7) /\
  trace_hooks w' !! 1%nat = None /\
  trace_hooks w' !! 0%nat = Some (TraceOf 1) /\
  warnings w' = [Some (OtherFun 7)] /\
  stop t w <> Ok tt (set_stopped true t) w.
Proof.
  cbv zeta. split_and!; try (vm_compute; reflexivity).
  - vm_compute. discriminate.
  - intros H. apply (f_equal (fun o => warnings (final_world o))) in H.
    vm_compute in H. discriminate H.
Qed.

(** C7 (as amended).  [stop] sets the stopped flag, on whatever thread it
    runs, and changes nothing else of the tracer.  A stopped tracer returns
    from every event with the tracer and the world as they were, one event
    or many.  With the threading module, [start] records the thread it runs
    on, and [stop] on another thread does nothing but set the flag: the
    hooks and the rest of the world are as before.  Without the threading
    module, or on the thread that started the tracer, [stop] removes the
    hook of the thread it runs on, after a warning when [sys.gettrace]
    exists, [warn] is set and the hook found is not the tracer's own trace
    function: without the threading module it does so on whatever thread
    it runs. *)
Theorem stopped_tracer_ignores_events t w :
  let t' := set_stopped true t in
  final_tracer (stop t w) = t' /\ returns (stop t w) = true /\ stopped t' = true /\
  (forall fr ev w2, _trace fr ev t' w2 = Ok None t' w2) /\
  (forall ds w2, exists w3, run ds t' w2 = Ok tt t' w3) /\
  (threading t = true ->
   thread (final_tracer (start t w)) = Some (current_thread w)) /\
  (threading t = true -> thread t <> Some (current_thread w) ->
   stop t w = Ok tt t' w) /\
  (threading t = false \/ thread t = Some (current_thread w) ->
   stop t w =
     Ok tt t'
       (set_trace_hooks (delete (current_thread w) (trace_hooks w))
          (if has_gettrace w && warn t
              && bool_decide (sys_gettrace w <> Some (TraceOf (obj_id t)))
           then set_warnings (sys_gettrace w :: warnings w) w else w))).
Proof.
  cbv zeta. rewrite stop_spec, start_spec. split_and!.
  - by destruct (threading t && _).
  - by destruct (threading t && _).
  - done.
  - intros fr ev w2. by apply trace_stopped.
  - intros ds w2. by apply run_stopped.
  - intros ->. done.
  - intros -> Hth. by rewrite bool_decide_true.
  - intros Hcase. destruct Hcase as [Hth|Hth]; rewrite Hth; [done|].
    rewrite bool_decide_false by (intros H; by apply H).
    by rewrite andb_false_r.
Qed.

Lemma stopped_tracer_ignores_events_witness :
  let t0 := new_tracer 1 false trace_every_file (fun _ => true) true false false in
  let t := final_tracer (start t0 (new_world 0)) in
  let w := set_current_thread 1 (final_world (start t0 (new_world 0))) in
  thread t = Some 0%nat /\ stop t w = Ok tt (set_stopped true t) w /\
  sys_gettrace (set_current_thread 0 w) = Some (TraceOf 1).
Proof.
  cbv zeta.
  destruct (stopped_tracer_ignores_events
              (final_tracer (start (new_tracer 1 false trace_every_file (fun _ => true)
                                      true false false) (new_world 0)))
              (set_current_thread 1
                 (final_world (start (new_tracer 1 false trace_every_file (fun _ => true)
                                        true false false) (new_world 0)))))
    as (_ & _ & _ & _ & _ & _ & Hstop & _).
  split; [reflexivity|]. split; [|vm_compute; reflexivity].
  apply Hstop; [reflexivity|discriminate].
Defined.

(** The coroutine id function is set.  In line mode, coroutine 2 is
    switched in between the two lines of coroutine 1: each coroutine's
    events are well paired, and alone they record lines 1 and 2 for [a.py]
    and line 50 for [b.py]; interleaved, line 2 of [a.py] is recorded for
    [b.py].  In arc mode, two coroutines run in [a.py], so that every call
    makes the same unit context live and the deliveries are well switched;
    the line of coroutine 2 is delivered between the two lines of
    coroutine 1.  Alone the coroutines record the arcs (-1, 1), (1, 2),
    (2, -1) and (-1, 5), (5, -5); interleaved, each arc starts at the line
    the other coroutine executed last: (1, 5) and (5, 2) are recorded, and
    (1, 2), (-1, 5) and (5, -5) are not. *)
Lemma interleaved_streams_share_the_context :
  let t := fresh_tracer false trace_every_file true in
  let w := new_world 0 in
  let t_arcs := fresh_tracer true trace_every_file true in
  blocks true stream_a /\ blocks true stream_b /\
  filter (fun d => dl_coroutine d = 1%nat) streams_interleaved = stream_a /\
  filter (fun d => dl_coroutine d = 2%nat) streams_interleaved = stream_b /\
  data (final_tracer (run stream_a t w)) !! "a.py" = Some {[KLine 1; KLine 2]} /\
  data (final_tracer (run stream_b t w)) !! "b.py" = Some {[KLine 50]} /\
  returns (run streams_interleaved t w) = true /\
  data (final_tracer (run streams_interleaved t w)) !! "a.py" = Some {[KLine 1]} /\
  data (final_tracer (run streams_interleaved t w)) !! "b.py" = Some {[KLine 2; KLine 50]} /\
  well_switched (fun _ => true) (fun fn => trace_every_file fn (a_frame 1))
    (SInit, SInit) ∅ streams_in_one_unit /\
  returns (run streams_in_one_unit t_arcs w) = true /\
  data (final_tracer (run streams_in_one_unit t_arcs w)) !! "a.py"
    = Some {[KArc (-1) 1; KArc 1 5; KArc 5 2; KArc 2 (-1)]} /\
  data (final_tracer (run (of_coroutine 1 streams_in_one_unit) t_arcs w)) !! "a.py"
    = Some {[KArc (-1) 1; KArc 1 2; KArc 2 (-1)]} /\
  data (final_tracer (run (of_coroutine 2 streams_in_one_unit) t_arcs w)) !! "a.py"
    = Some {[KArc (-1) 5; KArc 5 (-5)]}.
Proof.
  cbv zeta. split_and!; try (vm_compute; reflexivity).
  - apply (blocks_call true _ [_; _] _ []); try done.
    + repeat (apply nested_line; [done|]). apply nested_nil.
    + apply blocks_nil.
  - apply (blocks_call true _ [_] _ []); try done.
    + repeat (apply nested_line; [done|]). apply nested_nil.
    + apply blocks_nil.
  - vm_compute. done.
Qed.

(** The answer of the oracle depends on the frame: the first call event
    into [a.py] decides for both coroutines.  Coroutine 2 runs [a2] from
    call to return, then coroutine 1 runs [a]; the frame of [a2] is not
    traced, so nothing is recorded for [a.py], while coroutine 1 alone
    records the lines 1 and 2. *)
Lemma frame_dependent_oracle_decides_for_both :
  let t := fresh_tracer false trace_for_frame_10 true in
  let w := new_world 0 in
  of_coroutine 1 (stream_a2 ++ stream_a) = stream_a /\
  returns (run (stream_a2 ++ stream_a) t w) = true /\
  data (final_tracer (run (stream_a2 ++ stream_a) t w)) !! "a.py" = None /\
  data (final_tracer (run stream_a t w)) !! "a.py" = Some {[KLine 1; KLine 2]}.
Proof. cbv zeta. split_and!; vm_compute; reflexivity. Qed.

(** A marker is pending for the frame of [b] when the deliveries start.
    Coroutine 1 runs [a], then coroutine 2 runs [b]: the first event
    clears the marker, and the lines of both are recorded.  Alone, the
    call event of [b] replays a return on the empty stack of coroutine 2,
    and raises. *)
Lemma pending_marker_is_replayed_by_one_stream :
  let t := final_tracer (run [exception_under_b] (fresh_tracer false trace_every_file true)
                           (new_world 0)) in
  let w := new_world 0 in
  last_exc_back t = Some 20%nat /\
  of_coroutine 2 (stream_a ++ stream_b) = stream_b /\
  returns (run (stream_a ++ stream_b) t w) = true /\
  data (final_tracer (run (stream_a ++ stream_b) t w)) !! "b.py" = Some {[KLine 50]} /\
  run stream_b t w =
    Raise IndexError (final_tracer (run stream_b t w)) (final_world (run stream_b t w)) /\
  data (final_tracer (run stream_b t w)) !! "b.py" = None.
Proof. cbv zeta. split_and!; vm_compute; reflexivity. Qed.

(** C10.  [get_stats] returns [None] for every tracer, and so for the
    tracer any deliveries end in. *)
Theorem get_stats_is_none t w ds :
  get_stats t = None /\ get_stats (final_tracer (run ds t w)) = None.
Proof. split; reflexivity. Qed.

(** ** Interleaved coroutines in line mode *)

Lemma keys_for_app n ls1 ls2 :
  keys_for n (ls1 ++ ls2) = keys_for n ls1 ∪ keys_for n ls2.
Proof.
  unfold keys_for. by rewrite list.filter_app, fmap_app, list_to_set_app_L.
Qed.

Lemma record_lines_lookup_total name ls d n :
  record_lines name ls d !!! n =
    if decide (n = name) then list_to_set (KLine <$> ls) ∪ d !!! n else d !!! n.
Proof.
  revert d. induction ls as [|x ls IH]; intros d; simpl.
  - case_decide; [|done]. by rewrite (left_id_L ∅ (∪)).
  - rewrite IH. unfold record_key. case_decide as Hn.
    + subst n. rewrite lookup_total_insert_eq.
      by rewrite (assoc_L (∪)), (comm_L (∪) _ {[KLine x]}).
    + by rewrite lookup_total_insert_ne.
Qed.

Lemma filter_named c name n (zs : list Z) :
  filter (fun e : nat * string * Z => e.1.2 = n) ((fun z => (c, name, z)) <$> zs) =
    if decide (n = name) then (fun z => (c, name, z)) <$> zs else [].
Proof.
  induction zs as [|z zs IH]; [by case_decide|].
  rewrite fmap_cons, filter_cons, IH. cbn [fst snd].
  destruct (decide (n = name)) as [->|Hn].
  - by rewrite decide_True.
  - rewrite decide_False; [done|congruence].
Qed.

Lemma keys_for_lines_under cur d n :
  keys_for n (lines_under cur d) =
    match cur.1 with
    | SObj name =>
        if decide (n = name) then list_to_set (KLine <$> lines_of_event cur.2 d) else ∅
    | _ => ∅
    end.
Proof.
  unfold keys_for, lines_under. destruct cur.1 as [| |name]; [done|done|].
  rewrite filter_named. case_decide; [|done].
  by rewrite <- list_fmap_compose.
Qed.

(** In line mode a line event that does not raise adds, to the record of
    each name, the lines listed for it. *)
Lemma line_recorded_lookup_total d t n :
  dl_event d = EvLine -> arcs t = false ->
  data (line_recorded (dl_frame d) t) !!! n =
    data t !!! n ∪ keys_for n (lines_under (cur_file_dict t, plugin t) d).
Proof.
  intros Hev Ha. rewrite keys_for_lines_under. simpl.
  unfold line_recorded, lines_of_event. rewrite Ha, Hev.
  destruct (line_span (plugin t) (dl_frame d)) as [a b].
  destruct (Z.eqb a (-1)).
  - destruct (cur_file_dict t); try case_decide; simpl; by rewrite (right_id_L ∅ (∪)).
  - destruct (cur_file_dict t) as [| |name]; simpl; try by rewrite (right_id_L ∅ (∪)).
    rewrite record_lines_lookup_total. case_decide; [|by rewrite (right_id_L ∅ (∪))].
    by rewrite (comm_L (∪)).
Qed.

Lemma store_with_lookup_total name d n : store_with name d !!! n = d !!! n.
Proof.
  unfold store_with. destruct (d !! name) eqn:E; [done|].
  destruct (decide (name = n)) as [->|Hne].
  - rewrite lookup_total_insert_eq. by rewrite lookup_total_alt, E.
  - by rewrite lookup_total_insert_ne.
Qed.

Lemma context_of_call_not_init include disp_of fr :
  (context_of_call include disp_of fr).1 <> SInit.
Proof.
  unfold context_of_call. destruct (tracename_of _ _ _); [|done].
  by destruct (str_truthy _).
Qed.

Section Switched.
Variables (include : string -> bool) (disp_of : string -> disposition).

Lemma oracle_by_file_resolved t fr :
  oracle_by_file disp_of t -> resolved t fr = disp_of (co_filename (f_code fr)).
Proof. intros Hor. apply Hor. Qed.

(** What a call event makes of a tracer that resolves file names by file. *)
Lemma called_by_file fr t w t' w' :
  called fr t w t' w' -> settings t' = settings t ->
  check_include t = include -> oracle_by_file disp_of t ->
  (cur_file_dict t', plugin t') = context_of_call include disp_of fr /\
  oracle_by_file disp_of t' /\
  (forall n, data t' !!! n = data t !!! n).
Proof.
  intros Hc Hset Hincl Hor.
  pose proof (settings_eq _ _ Hset) as (_ & _ & _ & _ & Hst & _).
  pose proof (oracle_by_file_resolved t fr Hor) as Hres.
  pose proof (called_dict _ _ _ _ _ Hc) as Hd.
  pose proof (called_plugin _ _ _ _ _ Hc) as Hp.
  pose proof (called_data _ _ _ _ _ Hc) as Hdata.
  pose proof (called_cache _ _ _ _ _ Hc) as Hcache.
  unfold traced_name in Hd, Hp, Hdata. rewrite Hres, Hincl in Hd, Hp, Hdata.
  rewrite Hres in Hcache.
  split_and!.
  - unfold context_of_call. rewrite Hd, Hp.
    destruct (tracename_of include _ fr) as [name|]; [|done].
    by destruct (str_truthy (Some name)).
  - intros fn fr'. rewrite Hst, Hcache.
    destruct (decide (co_filename (f_code fr) = fn)) as [<-|Hne].
    + by rewrite lookup_insert_eq.
    + rewrite lookup_insert_ne by done. apply Hor.
  - intros n. rewrite Hdata.
    destruct (tracename_of include _ fr) as [name|]; [|done].
    destruct (str_truthy (Some name)); [|done].
    apply (store_with_lookup_total name).
Qed.

(** The code follows the switches: well-switched deliveries do not raise,
    and add to each record the lines listed for its name. *)
Lemma run_switched ds :
  forall live opened t w,
    well_switched include disp_of live opened ds ->
    follows live opened t -> opened_by_calls opened ->
    coroutine_id_func t = true -> arcs t = false ->
    stopped t = false -> last_exc_back t = None ->
    check_include t = include -> oracle_by_file disp_of t ->
    exists t' w',
      run ds t w = Ok tt t' w' /\
      (forall n, data t' !!! n =
                 data t !!! n ∪ keys_for n (lines_switched include disp_of live opened ds)).
Proof.
  induction ds as [|d ds IH]; intros live opened t w Hws [Hlive Hst] Hown Hb Ha Hs Hm Hincl Hor.
  - exists t, w. split; [done|]. intros n. unfold keys_for. simpl.
    by rewrite (right_id_L ∅ (∪)).
  - cbn [well_switched lines_switched] in Hws |- *.
    destruct (dl_event d) eqn:Hev; cbn beta iota zeta in Hws |- *; try done.
    + (* call *)
      destruct (deliver_call d t w Hev Hs Hm) as (t1 & w1 & Hrun & Hcalled & Hset & Hm1).
      pose proof (settings_eq _ _ Hset) as (_ & Ha1 & Hs1 & Hb1 & Hor1 & Hincl1).
      destruct (called_by_file _ _ _ _ _ Hcalled Hset Hincl Hor)
        as (Hctx1 & Hor_1 & Hdata1).
      destruct (IH _ _ t1 w1 Hws) as (t' & w' & Hrun' & Hdata'); try congruence; try assumption.
      { split; [done|]. intros c.
        pose proof (called_stacks _ _ _ _ _ Hcalled (StackOf c)) as Hstack.
        unfold active_ref in Hstack. rewrite Hb in Hstack. simpl in Hstack.
        rewrite Hstack.
        destruct (decide (c = dl_coroutine d)) as [->|Hne].
        - rewrite decide_True by done. rewrite lookup_total_insert_eq.
          rewrite !fmap_cons. simpl.
          replace (unit_of (get_context t)) with live by (by rewrite <- Hlive).
          apply prefix_cons, Hst.
        - rewrite decide_False by congruence.
          rewrite lookup_total_insert_ne by done. apply Hst. }
      { intros c. destruct (decide (c = dl_coroutine d)) as [->|Hne].
        - rewrite lookup_total_insert_eq. constructor; [|apply Hown].
          apply context_of_call_not_init.
        - rewrite lookup_total_insert_ne by done. apply Hown. }
      exists t', w'. rewrite (run_cons_ok _ _ _ _ _ _ _ Hrun). split; [done|].
      intros n. by rewrite Hdata', Hdata1.
    + (* line *)
      destruct (opened !!! dl_coroutine d) as [|[before own] calls] eqn:Hopen; [done|].
      simpl in Hws. destruct Hws as [-> Hws].
      assert (Hd : cur_file_dict t <> SInit).
      { pose proof (Hown (dl_coroutine d)) as Hf. rewrite Hopen in Hf.
        apply Forall_inv in Hf. simpl in Hf.
        intros Hi. apply Hf. by rewrite <- Hlive. }
      pose proof (deliver_line d t w Hev Hs Hm Hd ltac:(congruence)) as Hstep.
      destruct (line_recorded_attrs (dl_frame d) t) as (Hp' & Hd' & Hun & Hds & Hst' & _).
      apply untouched_eq in Hun as (Hset & Hcache & _ & Hm' & _).
      pose proof (settings_eq _ _ Hset) as (_ & Ha' & Hs' & Hb' & Hor' & Hincl').
      destruct (IH own opened (line_recorded (dl_frame d) t) (at_delivery d w) Hws)
        as (t' & w' & Hrun' & Hdata'); try congruence; try assumption.
      { split; [congruence|]. intros c.
        pose proof (Hst' (StackOf c)) as Hstack. simpl in Hstack. rewrite Hstack.
        apply Hst. }
      exists t', w'. rewrite (run_cons_ok _ _ _ _ _ _ _ Hstep). split; [done|].
      intros n. rewrite Hdata', (line_recorded_lookup_total d t n Hev Ha).
      rewrite keys_for_app, Hlive. by rewrite (assoc_L (∪)).
    + (* return *)
      destruct (opened !!! dl_coroutine d) as [|[before own] calls] eqn:Hopen; [done|].
      pose proof (Hst (dl_coroutine d)) as Hpre. rewrite Hopen in Hpre.
      destruct Hpre as [k Hk]. rewrite fmap_cons in Hk. simpl in Hk.
      destruct (data_stacks t !!! dl_coroutine d) as [|x l] eqn:Hstack; [done|].
      rewrite fmap_cons in Hk. injection Hk as Hx Hl.
      assert (Hactive : stack_at (active_ref (dl_coroutine d) t) t = x :: l).
      { unfold active_ref. rewrite Hb. done. }
      pose proof (deliver_return d t w x l Hev Hs Hm Hactive ltac:(congruence)) as Hstep.
      destruct (returned_attrs (dl_frame d) (dl_coroutine d) x l t)
        as (Hctx & Hun & Hdata & _ & Hst').
      apply untouched_eq in Hun as (Hset & Hcache & _ & Hm' & _).
      pose proof (settings_eq _ _ Hset) as (_ & Ha' & Hs' & Hb' & Hor' & Hincl').
      destruct (IH before (<[dl_coroutine d := calls]> opened)
                  (returned (dl_frame d) (dl_coroutine d) x l t) (at_delivery d w) Hws)
        as (t' & w' & Hrun' & Hdata'); try congruence; try assumption.
      { split.
        - rewrite <- Hx, <- Hctx. done.
        - intros c. pose proof (Hst' (StackOf c)) as Hs2. unfold stack_at in Hs2. rewrite Hs2.
          unfold active_ref. rewrite Hb.
          destruct (decide (c = dl_coroutine d)) as [->|Hne].
          + rewrite decide_True by done. rewrite lookup_total_insert_eq.
            exists k. done.
          + rewrite decide_False by congruence.
            rewrite lookup_total_insert_ne by done. apply Hst. }
      { intros c. destruct (decide (c = dl_coroutine d)) as [->|Hne].
        - rewrite lookup_total_insert_eq.
          pose proof (Hown (dl_coroutine d)) as Hf. rewrite Hopen in Hf.
          by apply Forall_inv_tail in Hf.
        - rewrite lookup_total_insert_ne by done. apply Hown. }
      exists t', w'. rewrite (run_cons_ok _ _ _ _ _ _ _ Hstep). split; [done|].
      intros n. rewrite Hdata', Hdata. unfold exit_arc_recorded. by rewrite Ha.
Qed.

End Switched.

(** *** What one coroutine delivered, taken out of the interleaving *)

Lemma lines_of_coroutine_under s cur d :
  lines_of_coroutine s (lines_under cur d) =
    if decide (dl_coroutine d = s) then lines_under cur d else [].
Proof.
  unfold lines_of_coroutine, lines_under. destruct cur.1; try by case_decide.
  induction (lines_of_event cur.2 d) as [|z zs IH]; [by case_decide|].
  rewrite fmap_cons, filter_cons, IH. cbn [fst snd].
  destruct (decide (dl_coroutine d = s)); done.
Qed.

Lemma lines_of_coroutine_app s ls1 ls2 :
  lines_of_coroutine s (ls1 ++ ls2) =
    (lines_of_coroutine s ls1 ++ lines_of_coroutine s ls2)%list.
Proof. apply list.filter_app. Qed.

Section Alone.
Variables (include : string -> bool) (disp_of : string -> disposition).
Variable first : slot string * slot file_plugin.

(** The deliveries of one coroutine, taken out of well-switched deliveries,
    are well switched on their own, and list the lines they listed in the
    interleaving. *)
Lemma switched_of_coroutine s ds :
  forall live opened alone,
    well_switched include disp_of live opened ds ->
    alone !!! s = alone_calls first (opened !!! s).*2 ->
    well_switched include disp_of (hd first (opened !!! s).*2) alone (of_coroutine s ds) /\
    lines_switched include disp_of (hd first (opened !!! s).*2) alone (of_coroutine s ds) =
      lines_of_coroutine s (lines_switched include disp_of live opened ds).
Proof.
  induction ds as [|d ds IH]; intros live opened alone Hws Halone; [done|].
  cbn [well_switched lines_switched] in Hws |- *.
  unfold of_coroutine. rewrite filter_cons. fold (of_coroutine s ds).
  destruct (decide (dl_coroutine d = s)) as [<-|Hc].
  - cbn [well_switched lines_switched].
    destruct (dl_event d) eqn:Hev; cbn beta iota zeta in Hws |- *; try done.
    + specialize (IH _ _
        (<[dl_coroutine d :=
             (hd first (opened !!! dl_coroutine d).*2,
              context_of_call include disp_of (dl_frame d))
             :: alone !!! dl_coroutine d]> alone) Hws).
      rewrite !lookup_total_insert_eq in IH. apply IH.
      rewrite Halone. done.
    + destruct (opened !!! dl_coroutine d) as [|call calls] eqn:Hopen; [done|].
      destruct Hws as [-> Hws]. rewrite Halone. simpl.
      specialize (IH _ _ alone Hws). rewrite Hopen in IH.
      destruct (IH Halone) as [IH1 IH2]. split; [by split|].
      rewrite lines_of_coroutine_app, lines_of_coroutine_under.
      rewrite decide_True by done. by f_equal.
    + destruct (opened !!! dl_coroutine d) as [|call calls] eqn:Hopen; [done|].
      rewrite Halone. simpl.
      specialize (IH _ _ (<[dl_coroutine d := alone_calls first calls.*2]> alone) Hws).
      rewrite !lookup_total_insert_eq in IH. by apply IH.
  - destruct (dl_event d) eqn:Hev; cbn beta iota zeta in Hws |- *; try done.
    + specialize (IH _ _ alone Hws).
      rewrite lookup_total_insert_ne in IH by done. by apply IH.
    + destruct (opened !!! dl_coroutine d) as [|call calls] eqn:Hopen; [done|].
      destruct Hws as [-> Hws].
      rewrite lines_of_coroutine_app, lines_of_coroutine_under.
      rewrite decide_False by done. simpl. by apply (IH _ _ alone Hws).
    + destruct (opened !!! dl_coroutine d) as [|call calls] eqn:Hopen; [done|].
      specialize (IH _ _ alone Hws).
      rewrite lookup_total_insert_ne in IH by done. by apply IH.
Qed.

(** The lines listed come from the line events. *)
Lemma lines_switched_from (P : nat -> Prop) ds :
  forall live opened,
    Forall (fun d => P (dl_coroutine d)) ds ->
    Forall (fun e => P e.1.1) (lines_switched include disp_of live opened ds).
Proof.
  induction ds as [|d ds IH]; intros live opened HP; [constructor|].
  cbn [lines_switched].
  destruct (dl_event d) eqn:Hev; cbn beta iota zeta; try constructor.
  - apply IH. exact (Forall_inv_tail HP).
  - apply Forall_app. split.
    + unfold lines_under. destruct live.1; try constructor.
      apply Forall_fmap, list.Forall_forall. intros z _. simpl. exact (Forall_inv HP).
    + apply IH. exact (Forall_inv_tail HP).
  - destruct (opened !!! dl_coroutine d) as [|call calls]; [constructor|].
    apply IH. exact (Forall_inv_tail HP).
Qed.

End Alone.

Lemma keys_for_two_coroutines n s1 s2 ls :
  Forall (fun e : nat * string * Z => e.1.1 = s1 \/ e.1.1 = s2) ls ->
  keys_for n ls =
    keys_for n (lines_of_coroutine s1 ls) ∪ keys_for n (lines_of_coroutine s2 ls).
Proof.
  induction 1 as [|e ls He _ IH].
  - unfold keys_for. simpl. by rewrite (left_id_L ∅ (∪)).
  - change (e :: ls) with ([e] ++ ls)%list.
    rewrite !lines_of_coroutine_app, !keys_for_app, IH.
    assert (He' : keys_for n [e] =
                  keys_for n (lines_of_coroutine s1 [e]) ∪
                  keys_for n (lines_of_coroutine s2 [e])).
    { unfold lines_of_coroutine. rewrite !filter_cons, !filter_nil.
      destruct (decide (e.1.1 = s1)), (decide (e.1.1 = s2)); try (by destruct He).
      - by rewrite (idemp_L (∪)).
      - unfold keys_for at 3. simpl. by rewrite (right_id_L ∅ (∪)).
      - unfold keys_for at 2. simpl. by rewrite (left_id_L ∅ (∪)). }
    rewrite He'. apply set_eq. intros x. rewrite !elem_of_union. tauto.
Qed.

(** C9 (as amended).  Line mode, the coroutine id function set, no
    exception marker pending, and every file name resolves to the same
    disposition whatever the frame.  The deliveries of two coroutines are
    interleaved so that they are well switched from the unit context of
    the tracer: every line event and every return event of a coroutine has
    an open call of that coroutine, and every line event is delivered
    while the live unit context is the one its innermost open call made
    live.  Then the deliveries do not raise, nor do those of either
    coroutine alone, and for every name the record after the interleaved
    run is the union of the records after the two runs alone. *)
Theorem switched_coroutines_record_as_alone disp_of s1 s2 ds t w :
  coroutine_id_func t = true -> arcs t = false -> last_exc_back t = None ->
  oracle_by_file disp_of t ->
  well_switched (check_include t) disp_of (cur_file_dict t, plugin t) ∅ ds ->
  Forall (fun d => dl_coroutine d = s1 \/ dl_coroutine d = s2) ds ->
  exists t' w' t1 w1 t2 w2,
    run ds t w = Ok tt t' w' /\
    run (of_coroutine s1 ds) t w = Ok tt t1 w1 /\
    run (of_coroutine s2 ds) t w = Ok tt t2 w2 /\
    (forall n, data t' !!! n = data t1 !!! n ∪ data t2 !!! n).
Proof.
  intros Hb Ha Hm Hor Hws Hds.
  destruct (stopped t) eqn:Hs.
  { destruct (run_stopped ds t w Hs) as [w' H].
    destruct (run_stopped (of_coroutine s1 ds) t w Hs) as [w1 H1].
    destruct (run_stopped (of_coroutine s2 ds) t w Hs) as [w2 H2].
    exists t, w', t, w1, t, w2. split_and!; try done.
    intros n. by rewrite (idemp_L (∪)). }
  assert (Hfol : follows (cur_file_dict t, plugin t) ∅ t).
  { split; [done|]. intros c. rewrite lookup_total_empty. apply prefix_nil. }
  assert (Hopen : opened_by_calls ∅).
  { intros c. rewrite lookup_total_empty. constructor. }
  destruct (run_switched _ _ ds _ _ t w Hws Hfol Hopen Hb Ha Hs Hm eq_refl Hor)
    as (t' & w' & Hrun & Hdata).
  pose proof (fun s => switched_of_coroutine (check_include t) disp_of
                         (cur_file_dict t, plugin t) s ds _ _ ∅ Hws) as Halone.
  destruct (Halone s1) as [Hws1 Hls1]; [by rewrite !lookup_total_empty|].
  destruct (Halone s2) as [Hws2 Hls2]; [by rewrite !lookup_total_empty|].
  rewrite lookup_total_empty in Hws1, Hls1, Hws2, Hls2. simpl in Hws1, Hls1, Hws2, Hls2.
  destruct (run_switched _ _ _ _ _ t w Hws1 Hfol Hopen Hb Ha Hs Hm eq_refl Hor)
    as (t1 & w1 & Hrun1 & Hdata1).
  destruct (run_switched _ _ _ _ _ t w Hws2 Hfol Hopen Hb Ha Hs Hm eq_refl Hor)
    as (t2 & w2 & Hrun2 & Hdata2).
  exists t', w', t1, w1, t2, w2. split_and!; try done.
  intros n. rewrite Hdata, Hdata1, Hdata2, Hls1, Hls2.
  rewrite (keys_for_two_coroutines n s1 s2 (lines_switched _ _ _ _ ds))
    by exact (lines_switched_from _ _ (fun c => c = s1 \/ c = s2) ds _ _ Hds).
  apply set_eq. intros x. rewrite !elem_of_union. tauto.
Qed.

(** The crossing calls of [streams_crossing] on a fresh tracer.  With the
    coroutine id function the records are those of the two coroutines
    alone.  Without it the same deliveries record line 2 of [m.py] under
    [a.py], which coroutine 1 alone does not. *)
Lemma switched_coroutines_record_as_alone_witness :
  let t := fresh_tracer false trace_every_file true in
  let bare := fresh_tracer false trace_every_file false in
  (exists t' w' t1 w1 t2 w2,
     run streams_crossing t (new_world 0) = Ok tt t' w' /\
     run (of_coroutine 1 streams_crossing) t (new_world 0) = Ok tt t1 w1 /\
     run (of_coroutine 2 streams_crossing) t (new_world 0) = Ok tt t2 w2 /\
     (forall n, data t' !!! n = data t1 !!! n ∪ data t2 !!! n)) /\
  data (final_tracer (run streams_crossing t (new_world 0))) !! "m.py"
    = Some {[KLine 1; KLine 2]} /\
  data (final_tracer (run streams_crossing t (new_world 0))) !! "a.py"
    = Some {[KLine 1]} /\
  data (final_tracer (run streams_crossing t (new_world 0))) !! "b.py"
    = Some {[KLine 50]} /\
  data (final_tracer (run streams_crossing bare (new_world 0))) !! "m.py"
    = Some {[KLine 1]} /\
  data (final_tracer (run streams_crossing bare (new_world 0))) !! "a.py"
    = Some {[KLine 1; KLine 2]} /\
  data (final_tracer (run (of_coroutine 1 streams_crossing) bare (new_world 0))) !! "m.py"
    = Some {[KLine 1; KLine 2]}.
Proof.
  cbv zeta. split_and!; try (vm_compute; reflexivity).
  apply (switched_coroutines_record_as_alone
           (fun fn => trace_every_file fn (a_frame 1)) 1%nat 2%nat streams_crossing
           (fresh_tracer false trace_every_file true) (new_world 0)).
  - reflexivity.
  - reflexivity.
  - reflexivity.
  - intros fn fr. reflexivity.
  - vm_compute. done.
  - unfold streams_crossing.
    repeat (constructor; [first [left; reflexivity | right; reflexivity]|]).
    constructor.
Defined.

(** ** Relations every delivery keeps *)

Section Along.
Variable rel : PyTracer -> PyTracer -> Prop.
Hypothesis rel_refl : forall t, rel t t.
Hypothesis rel_trans : forall t1 t2 t3, rel t1 t2 -> rel t2 t3 -> rel t1 t3.

Lemma along_ret {A} (a : A) t w : along rel (ret a) t w.
Proof. apply rel_refl. Qed.

Lemma along_raise {A} e t w : along rel (@raise A e) t w.
Proof. apply rel_refl. Qed.

Lemma along_gets {A} (f : PyTracer -> A) t w : along rel (gets f) t w.
Proof. apply rel_refl. Qed.

Lemma along_modify f t w : rel t (f t) -> along rel (modify f) t w.
Proof. done. Qed.

Lemma along_modify_world f t w : along rel (modify_world f) t w.
Proof. apply rel_refl. Qed.

Lemma along_gets_bind {A B} (f : PyTracer -> A) (k : A -> M B) t w :
  along rel (k (f t)) t w -> along rel (bind (gets f) k) t w.
Proof. done. Qed.

Lemma along_gets_world_bind {A B} (f : world -> A) (k : A -> M B) t w :
  along rel (k (f w)) t w -> along rel (bind (gets_world f) k) t w.
Proof. done. Qed.

Lemma along_modify_bind {B} f (k : unit -> M B) t w :
  rel t (f t) -> along rel (k tt) (f t) w -> along rel (bind (modify f) k) t w.
Proof. unfold along, bind, modify. eauto. Qed.

Lemma along_modify_world_bind {B} f (k : unit -> M B) t w :
  along rel (k tt) t (f w) -> along rel (bind (modify_world f) k) t w.
Proof. done. Qed.

Lemma along_ret_bind {A B} (a : A) (k : A -> M B) t w :
  along rel (k a) t w -> along rel (bind (ret a) k) t w.
Proof. done. Qed.

Lemma along_raise_bind {A B} e (k : A -> M B) t w : along rel (bind (raise e) k) t w.
Proof. apply rel_refl. Qed.

Lemma along_when b m t w : (b = true -> along rel m t w) -> along rel (when b m) t w.
Proof. destruct b; [auto|intros _; apply rel_refl]. Qed.

Lemma along_when_bind {B} b m (k : unit -> M B) t w :
  (b = true -> along rel (bind m k) t w) ->
  (b = false -> along rel (k tt) t w) ->
  along rel (bind (when b m) k) t w.
Proof. destruct b; auto. Qed.

Lemma along_bind_assoc {A B C} (m : M A) (k1 : A -> M B) (k2 : B -> M C) t w :
  along rel (bind m (fun a => bind (k1 a) k2)) t w ->
  along rel (bind (bind m k1) k2) t w.
Proof. unfold along, bind. by destruct (m t w). Qed.

Lemma along_bind {A B} (m : M A) (k : A -> M B) t w :
  along rel m t w ->
  (forall a t' w', m t w = Ok a t' w' -> along rel (k a) t' w') ->
  along rel (bind m k) t w.
Proof.
  unfold along, bind. intros Hm Hk. destruct (m t w) as [a t' w'|e t' w']; [|done].
  eapply rel_trans; [exact Hm|]. by apply Hk.
Qed.

End Along.

Ltac along_step refl trans :=
  lazymatch goal with
  | |- along _ (bind (bind _ _) _) _ _ => apply along_bind_assoc
  | |- along _ (bind (gets _) _) _ _ => apply along_gets_bind; simpl
  | |- along _ (bind (gets_world _) _) _ _ => apply along_gets_world_bind; simpl
  | |- along _ (bind (modify _) _) _ _ => apply (along_modify_bind _ trans); simpl
  | |- along _ (bind (modify_world _) _) _ _ => apply along_modify_world_bind; simpl
  | |- along _ (bind (ret _) _) _ _ => apply along_ret_bind; simpl
  | |- along _ (bind (raise _) _) _ _ => apply (along_raise_bind _ refl)
  | |- along _ (bind (when _ _) _) _ _ => apply along_when_bind; intros ?
  | |- along _ (bind (match ?x with _ => _ end) _) _ _ => destruct x eqn:?
  | |- along _ (ret _) _ _ => apply (along_ret _ refl)
  | |- along _ (raise _) _ _ => apply (along_raise _ refl)
  | |- along _ (gets _) _ _ => apply (along_gets _ refl)
  | |- along _ (modify _) _ _ => apply along_modify; simpl
  | |- along _ (modify_world _) _ _ => apply (along_modify_world _ refl)
  | |- along _ (when _ _) _ _ => apply (along_when _ refl); intros ?
  | |- along _ (match ?x with _ => _ end) _ _ => destruct x eqn:?
  end.

(** An obligation that needs no fact about the tracer it starts from is
    proved for any tracer. *)
Ltac generalize_tracer :=
  lazymatch goal with
  | |- _ ?s _ => generalize s; intros ?
  end.

(** ** The store only grows *)

Lemma grows_refl t : grows t t.
Proof. split_and!; [done| |auto]. intros n s Hs. by exists s. Qed.

Lemma grows_trans t1 t2 t3 : grows t1 t2 -> grows t2 t3 -> grows t1 t3.
Proof.
  intros (Ha1 & Hm1 & Hk1) (Ha2 & Hm2 & Hk2). split_and!.
  - congruence.
  - intros n s Hs. destruct (Hm1 n s Hs) as (s' & Hs' & Hsub).
    destruct (Hm2 n s' Hs') as (s'' & Hs'' & Hsub'). exists s''. split; [done|].
    by etrans.
  - intros n k Hk. destruct (Hk2 n k Hk) as [Hin|Hkind].
    + apply Hk1, Hin.
    + right. congruence.
Qed.

Lemma grows_same t t' : arcs t' = arcs t -> data t' = data t -> grows t t'.
Proof. intros Ha Hd. unfold grows. rewrite Ha, Hd. apply grows_refl. Qed.

Lemma grows_record_key name k t :
  key_is_arc k = arcs t -> grows t (set_data (record_key name k (data t)) t).
Proof.
  intros Hk. split_and!; [done| |]; simpl; unfold record_key.
  - intros n s Hs. destruct (decide (n = name)) as [->|Hn].
    + rewrite lookup_insert_eq. eexists. split; [done|].
      rewrite (lookup_total_correct _ _ _ Hs). apply union_subseteq_r.
    + rewrite lookup_insert_ne by done. by exists s.
  - intros n k' Hk'. destruct (decide (n = name)) as [->|Hn].
    + rewrite lookup_total_insert_eq in Hk'. apply elem_of_union in Hk' as [Hk'|Hk'].
      * apply elem_of_singleton in Hk' as ->. by right.
      * by left.
    + rewrite lookup_total_insert_ne in Hk' by done. by left.
Qed.

Lemma grows_new_record name d t :
  d = data t -> ~ is_Some (d !! name) -> grows t (set_data (<[name := ∅]> d) t).
Proof.
  intros -> Hnone%eq_None_not_Some. split_and!; [done| |]; simpl.
  - intros n s Hs. destruct (decide (n = name)) as [->|Hn]; [congruence|].
    rewrite lookup_insert_ne by done. by exists s.
  - intros n k Hk. destruct (decide (n = name)) as [->|Hn].
    + rewrite lookup_total_insert_eq in Hk. by apply elem_of_empty in Hk.
    + rewrite lookup_total_insert_ne in Hk by done. by left.
Qed.

Ltac grows_step := along_step grows_refl grows_trans.

Lemma arc_key_is_arc l n k : arc_key l n = Some k -> key_is_arc k = true.
Proof. destruct l; simpl; [done|]. by intros [= <-]. Qed.

Lemma record_lines_grows name ls t :
  arcs t = false -> grows t (set_data (record_lines name ls (data t)) t).
Proof.
  revert t. induction ls as [|x ls IH] using rev_ind; intros t Ha.
  - simpl. rewrite set_data_id. apply grows_refl.
  - rewrite record_lines_app. simpl.
    eapply grows_trans; [apply (IH t Ha)|].
    apply (grows_record_key name (KLine x) (set_data (record_lines name ls (data t)) t)).
    simpl. by rewrite Ha.
Qed.

Lemma for_each_setitem_line_grows ls t w :
  arcs t = false -> along grows (for_each ls setitem_line) t w.
Proof.
  intros Ha. unfold along. destruct (cur_file_dict t) as [| |name] eqn:Hd.
  - destruct ls; [apply grows_refl|]. simpl. unfold setitem_line. exec.
    rewrite Hd. apply grows_refl.
  - destruct ls; [apply grows_refl|]. simpl. unfold setitem_line. exec.
    rewrite Hd. apply grows_refl.
  - rewrite (for_each_setitem_line _ name) by done. simpl. by apply record_lines_grows.
Qed.

Ltac grows_done :=
  first [ generalize_tracer; apply grows_same; attr_unchanged
        | apply grows_record_key; simpl;
          first [ congruence
                | match goal with
                  | H : arc_key _ _ = Some _ |- _ => rewrite (arc_key_is_arc _ _ _ H)
                  end;
                  repeat match goal with
                  | H : _ && _ = true |- _ => apply andb_prop in H as [? ?]
                  end; congruence ]
        | match goal with
          | H : negb (bool_decide (is_Some _)) = true |- _ =>
              apply negb_true_iff, bool_decide_eq_false in H;
              apply grows_new_record; [reflexivity|exact H]
          end ].

Ltac grows_auto := repeat first [grows_step | grows_done].

Lemma on_line_grows fr t w : along grows (on_line fr) t w.
Proof.
  unfold on_line, setitem_arc. grows_auto.
  apply (along_bind _ grows_trans).
  - by apply for_each_setitem_line_grows.
  - intros. grows_auto.
Qed.

Lemma pop_context_grows t w : along grows pop_context t w.
Proof. unfold pop_context. grows_auto. Qed.

Lemma on_return_grows fr t w : along grows (on_return fr) t w.
Proof.
  unfold on_return, setitem_arc, pop_context. grows_auto.
Qed.

Lemma replay_grows fr t w : along grows (replay_skipped_return fr) t w.
Proof.
  unfold replay_skipped_return, setitem_arc, pop_context. grows_auto.
Qed.

Lemma on_call_grows fr t w : along grows (on_call fr) t w.
Proof.
  unfold on_call, push_context, resolve_disposition. grows_auto.
Qed.

Lemma handle_grows fr ev t w : along grows (handle fr ev) t w.
Proof.
  destruct ev; simpl.
  - apply on_call_grows.
  - apply on_line_grows.
  - apply on_return_grows.
  - unfold on_exception. grows_auto.
  - grows_auto.
Qed.

Lemma trace_grows fr ev t w : along grows (_trace fr ev) t w.
Proof.
  unfold _trace. grows_step. destruct (stopped t); [grows_auto|].
  apply (along_bind _ grows_trans); [apply replay_grows|]. intros _ t1 w1 _.
  apply (along_bind _ grows_trans); [apply handle_grows|]. intros _ t2 w2 _.
  grows_auto.
Qed.

Lemma run_grows ds t w : along grows (run ds) t w.
Proof.
  revert t w. induction ds as [|d ds IH]; intros t w; simpl.
  - apply grows_refl.
  - apply (along_bind _ grows_trans); [apply trace_grows|]. intros _ t1 w1 _. apply IH.
Qed.

(** ** A tracer whose oracle rejects every file *)

Lemma stays_idle_refl t : stays_idle t t.
Proof. by intros H. Qed.

Lemma stays_idle_trans t1 t2 t3 :
  stays_idle t1 t2 -> stays_idle t2 t3 -> stays_idle t1 t3.
Proof.
  intros H1 H2 Hi. destruct (H1 Hi) as (Hi2 & Hd2 & Hp2).
  destruct (H2 Hi2) as (Hi3 & Hd3 & Hp3). split_and!; [done|congruence|congruence].
Qed.

Lemma stays_idle_frame t t' :
  get_context t' = get_context t -> (forall r, stack_at r t' = stack_at r t) ->
  should_trace t' = should_trace t -> should_trace_cache t' = should_trace_cache t ->
  data t' = data t -> plugin_data t' = plugin_data t ->
  stays_idle t t'.
Proof.
  intros Hc Hs Ho Hca Hd Hp (Hi1 & Hi2 & Hi3 & Hi4). split; [|done].
  unfold idle. split_and!.
  - by rewrite Hc.
  - intros r. by rewrite Hs.
  - intros fn fr. by rewrite Ho.
  - intros fn d. rewrite Hca. apply Hi4.
Qed.

Lemma stays_idle_select c t : stays_idle t (select_stack c t).
Proof. apply stays_idle_frame; try done. intros r. apply stack_at_select. Qed.

Lemma stays_idle_push t :
  stays_idle t (set_cur_stack (get_context t :: cur_stack t) t).
Proof.
  intros (Hi1 & Hi2 & Hi3 & Hi4). split_and!.
  - unfold idle. split_and!.
    + revert Hi1. unfold idle_context, get_context, set_cur_stack. simpl.
      by destruct (data_stack t).
    + intros r. rewrite stack_at_set_cur_stack. case_decide; [|apply Hi2].
      constructor; [done|]. rewrite cur_stack_at. apply Hi2.
    + intros fn fr. unfold set_cur_stack. destruct (data_stack t); apply Hi3.
    + intros fn d. unfold set_cur_stack. destruct (data_stack t); apply Hi4.
  - unfold set_cur_stack. by destruct (data_stack t).
  - unfold set_cur_stack. by destruct (data_stack t).
Qed.

Lemma stays_idle_pop t c l :
  cur_stack t = c :: l -> stays_idle t (set_context c (set_cur_stack l t)).
Proof.
  intros Hst (Hi1 & Hi2 & Hi3 & Hi4).
  assert (Hcl : Forall idle_context (c :: l)).
  { rewrite <- Hst, cur_stack_at. apply Hi2. }
  pose proof (Forall_inv Hcl) as Hc. pose proof (Forall_inv_tail Hcl) as Hl. split_and!.
  - unfold idle. split_and!.
    + revert Hc. unfold idle_context, get_context, set_context. simpl.
      by destruct c as [[p d] ll].
    + intros r.
      assert (stack_at r (set_context c (set_cur_stack l t)) =
              stack_at r (set_cur_stack l t)) as -> by (by destruct r).
      rewrite stack_at_set_cur_stack. case_decide; [done|apply Hi2].
    + intros fn fr. unfold set_cur_stack. destruct (data_stack t); apply Hi3.
    + intros fn d. unfold set_cur_stack. destruct (data_stack t); apply Hi4.
  - unfold set_cur_stack. by destruct (data_stack t).
  - unfold set_cur_stack. by destruct (data_stack t).
Qed.

Lemma stays_idle_cache fn d c t :
  c = should_trace_cache t -> (idle t -> disp_trace d = false) ->
  stays_idle t (set_should_trace_cache (<[fn := d]> c) t).
Proof.
  intros -> Hd Hi. pose proof (Hd Hi) as Hd'. destruct Hi as (Hi1 & Hi2 & Hi3 & Hi4).
  split; [|done]. unfold idle. split_and!; try done.
  intros fn' d'. simpl. destruct (decide (fn' = fn)) as [->|Hne].
  - rewrite lookup_insert_eq. by intros [= <-].
  - rewrite lookup_insert_ne by done. apply Hi4.
Qed.

Lemma stays_idle_context p d l t :
  (idle t -> match d with SObj _ => False | _ => True end) ->
  stays_idle t (set_context (p, d, l) t).
Proof.
  intros Hd Hi. pose proof (Hd Hi) as Hd'. destruct Hi as (Hi1 & Hi2 & Hi3 & Hi4).
  split; [|done]. unfold idle. split_and!; try done.
Qed.

Lemma stays_idle_absurd t t' : (idle t -> False) -> stays_idle t t'.
Proof. intros H Hi. destruct (H Hi). Qed.

Lemma stays_idle_set_plugin p t : stays_idle t (set_plugin p t).
Proof. intros (Hi1 & Hi2 & Hi3 & Hi4). split; [|done]. by unfold idle. Qed.

Lemma stays_idle_set_last_line l t : stays_idle t (set_last_line l t).
Proof. intros (Hi1 & Hi2 & Hi3 & Hi4). split; [|done]. by unfold idle. Qed.

Lemma stays_idle_set_cur_file_dict d t :
  match d with SObj _ => False | _ => True end ->
  stays_idle t (set_cur_file_dict d t).
Proof. intros Hd (Hi1 & Hi2 & Hi3 & Hi4). split; [|done]. by unfold idle. Qed.

Lemma idle_tracename t d fr :
  disp_trace d = false -> tracename_of (check_include t) d fr = None.
Proof. intros Hd. unfold tracename_of. by rewrite Hd. Qed.

Lemma idle_no_record t name : idle t -> cur_file_dict t = SObj name -> False.
Proof. intros (Hi1 & _) Hd. unfold idle_context in Hi1. simpl in Hi1. by rewrite Hd in Hi1. Qed.

Ltac idle_step := along_step stays_idle_refl stays_idle_trans.

Ltac idle_absurd :=
  apply stays_idle_absurd;
  let Hi := fresh "Hi" in
  intros Hi;
  first
    [ exact (proj1 Hi)
    | match goal with
      | H : cur_file_dict _ = SObj _ |- _ => exact (idle_no_record _ _ Hi H)
      end
    | match goal with
      | H : tracename_of _ ?d _ = Some _ |- _ =>
          let Hd := fresh "Hd" in
          assert (Hd : disp_trace d = false)
            by (first [ apply (proj1 (proj2 (proj2 Hi)))
                      | eapply (proj2 (proj2 (proj2 Hi))); eassumption ]);
          unfold tracename_of in H; rewrite Hd in H; discriminate H
      end ].

Lemma stays_idle_set_last_coroutine c t : stays_idle t (set_last_coroutine c t).
Proof. by apply stays_idle_frame. Qed.

Lemma stays_idle_set_last_exc_back b t : stays_idle t (set_last_exc_back b t).
Proof. by apply stays_idle_frame. Qed.

Lemma stays_idle_set_last_exc_firstlineno n t :
  stays_idle t (set_last_exc_firstlineno n t).
Proof. by apply stays_idle_frame. Qed.

Ltac idle_done :=
  lazymatch goal with
  | |- stays_idle _ (select_stack _ _) => generalize_tracer; apply stays_idle_select
  | |- stays_idle _ (set_last_coroutine _ _) =>
      generalize_tracer; apply stays_idle_set_last_coroutine
  | |- stays_idle _ (set_last_exc_back _ _) =>
      generalize_tracer; apply stays_idle_set_last_exc_back
  | |- stays_idle _ (set_last_exc_firstlineno _ _) =>
      generalize_tracer; apply stays_idle_set_last_exc_firstlineno
  | |- stays_idle _ (set_cur_stack (get_context _ :: _) _) =>
      generalize_tracer; apply stays_idle_push
  | |- stays_idle _ (set_context _ (set_cur_stack _ _)) =>
      apply stays_idle_pop; eassumption
  | |- stays_idle _ (set_plugin _ _) => generalize_tracer; apply stays_idle_set_plugin
  | |- stays_idle _ (set_last_line _ _) => generalize_tracer; apply stays_idle_set_last_line
  | |- stays_idle _ (set_cur_file_dict SNone _) =>
      generalize_tracer; apply stays_idle_set_cur_file_dict; exact I
  | |- stays_idle _ (set_should_trace_cache _ _) =>
      apply stays_idle_cache;
      [ reflexivity
      | let Hi := fresh "Hi" in intros Hi; apply (proj1 (proj2 (proj2 Hi))) ]
  | |- stays_idle _ _ => idle_absurd
  end.

Ltac idle_auto := repeat first [idle_step | idle_done].

Lemma on_call_idle fr t w : along stays_idle (on_call fr) t w.
Proof.
  unfold on_call, push_context, resolve_disposition. idle_auto.
Qed.

Lemma for_each_setitem_line_idle ls t w :
  along stays_idle (for_each ls setitem_line) t w.
Proof.
  unfold along. destruct (cur_file_dict t) as [| |name] eqn:Hd.
  - destruct ls; [apply stays_idle_refl|]. simpl. unfold setitem_line. exec.
    rewrite Hd. apply stays_idle_refl.
  - destruct ls; [apply stays_idle_refl|]. simpl. unfold setitem_line. exec.
    rewrite Hd. apply stays_idle_refl.
  - apply stays_idle_absurd. intros Hi. exact (idle_no_record _ _ Hi Hd).
Qed.

Lemma on_line_idle fr t w : along stays_idle (on_line fr) t w.
Proof.
  unfold on_line, setitem_arc. idle_auto.
  apply (along_bind _ stays_idle_trans).
  - apply for_each_setitem_line_idle.
  - intros. idle_auto.
Qed.

Lemma on_return_idle fr t w : along stays_idle (on_return fr) t w.
Proof. unfold on_return, setitem_arc, pop_context. idle_auto. Qed.

Lemma replay_idle fr t w : along stays_idle (replay_skipped_return fr) t w.
Proof. unfold replay_skipped_return, setitem_arc, pop_context. idle_auto. Qed.

Lemma handle_idle fr ev t w : along stays_idle (handle fr ev) t w.
Proof.
  destruct ev; simpl.
  - apply on_call_idle.
  - apply on_line_idle.
  - apply on_return_idle.
  - unfold on_exception. idle_auto.
  - idle_auto.
Qed.

Lemma trace_idle fr ev t w : along stays_idle (_trace fr ev) t w.
Proof.
  unfold _trace. idle_step. destruct (stopped t); [idle_auto|].
  apply (along_bind _ stays_idle_trans); [apply replay_idle|]. intros _ t1 w1 _.
  apply (along_bind _ stays_idle_trans); [apply handle_idle|]. intros _ t2 w2 _.
  idle_auto.
Qed.

Lemma run_idle ds t w : along stays_idle (run ds) t w.
Proof.
  revert t w. induction ds as [|d ds IH]; intros t w; simpl.
  - apply stays_idle_refl.
  - apply (along_bind _ stays_idle_trans); [apply trace_idle|]. intros _ t1 w1 _. apply IH.
Qed.

(** X1.  Whatever events are delivered, in whatever state and whether or
    not a delivery raises, nothing is ever removed from the data store:
    every file that had a record still has one, and every record holds at
    least the keys it held. *)
Theorem recorded_data_is_never_lost ds t w :
  let t' := final_tracer (run ds t w) in
  dom (data t) ⊆ dom (data t') /\ forall n, data t !!! n ⊆ data t' !!! n.
Proof.
  cbv zeta. destruct (run_grows ds t w) as (_ & Hm & _). split.
  - intros n [s Hs]%elem_of_dom. destruct (Hm n s Hs) as (s' & Hs' & _).
    apply elem_of_dom. by exists s'.
  - intros n. destruct (data t !! n) as [s|] eqn:Hs.
    + destruct (Hm n s Hs) as (s' & Hs' & Hsub).
      by rewrite (lookup_total_correct _ _ _ Hs), (lookup_total_correct _ _ _ Hs').
    + rewrite (lookup_total_alt (data t)), Hs. simpl. apply empty_subseteq.
Qed.

(** X2.  The mode never changes, and every key that the deliveries add to
    a record is a line number in line mode and an arc in arc mode. *)
Theorem new_keys_follow_the_mode ds t w n k :
  k ∈ data (final_tracer (run ds t w)) !!! n -> k ∉ data t !!! n ->
  key_is_arc k = arcs t /\ arcs (final_tracer (run ds t w)) = arcs t.
Proof.
  intros Hin Hnew. destruct (run_grows ds t w) as (Ha & _ & Hk). split; [|done].
  by destruct (Hk n k Hin).
Qed.

Lemma new_keys_follow_the_mode_witness :
  key_is_arc (KArc 10 11) = true /\
  arcs (final_tracer (run first_call_of_f (fresh_tracer true trace_every_file false)
                        (new_world 0))) = true.
Proof.
  apply (new_keys_follow_the_mode first_call_of_f
           (fresh_tracer true trace_every_file false) (new_world 0) "f.py" (KArc 10 11)).
  - apply (bool_decide_unpack _). vm_compute. exact I.
  - apply (bool_decide_unpack _). vm_compute. exact I.
Defined.

Lemma fresh_tracer_idle b c : idle (fresh_tracer b trace_no_file c).
Proof.
  unfold idle. split_and!.
  - exact I.
  - intros [|n]; simpl; [constructor|]. rewrite lookup_total_empty. constructor.
  - done.
  - intros fn d. simpl. by rewrite lookup_empty.
Qed.

(** X3.  A tracer whose oracle and cache ask for no file to be traced, and
    that has no record live or saved, never records anything: whatever is
    delivered, the data store and the plugin data stay as they are. *)
Theorem rejected_files_are_never_recorded ds t w :
  idle t ->
  let t' := final_tracer (run ds t w) in
  data t' = data t /\ plugin_data t' = plugin_data t /\ idle t'.
Proof.
  intros Hi. destruct (run_idle ds t w Hi) as (Hi' & Hd & Hp). by split_and!.
Qed.

Lemma rejected_files_are_never_recorded_witness :
  let t := fresh_tracer true trace_no_file false in
  let t' := final_tracer (run (first_call_of_f ++ second_call_of_f) t (new_world 0)) in
  data t' = ∅ /\ plugin_data t' = ∅ /\ idle t'.
Proof.
  apply (rejected_files_are_never_recorded (first_call_of_f ++ second_call_of_f)
           (fresh_tracer true trace_no_file false) (new_world 0)).
  apply fresh_tracer_idle.
Defined.

(** ** The stacks of the coroutines *)

Lemma stacks_kept_refl P t : stacks_kept P t t.
Proof. by intros H. Qed.

Lemma stacks_kept_trans P t1 t2 t3 :
  stacks_kept P t1 t2 -> stacks_kept P t2 t3 -> stacks_kept P t1 t3.
Proof.
  intros H1 H2 Hc. destruct (H1 Hc) as (Hc2 & Ho2 & Hs2).
  destruct (H2 Hc2) as (Hc3 & Ho3 & Hs3). split_and!; [done|congruence|].
  intros c Hn. by rewrite Hs3, Hs2.
Qed.

Lemma stacks_kept_frame P t t' :
  coroutine_id_func t' = coroutine_id_func t -> own_stack t' = own_stack t ->
  data_stacks t' = data_stacks t -> stacks_kept P t t'.
Proof. intros Hc Ho Hs H. rewrite Hc, Ho, Hs. done. Qed.

Lemma stacks_kept_select P c t : stacks_kept P t (select_stack c t).
Proof.
  intros H. split_and!; [done|done|]. intros c' _. simpl. apply touch_lookup_total.
Qed.

Lemma stacks_kept_set_cur_stack (P : nat -> Prop) c l t :
  data_stack t = StackOf c -> P c -> stacks_kept P t (set_cur_stack l t).
Proof.
  intros Hd Hp H. unfold set_cur_stack. rewrite Hd. split_and!; [done|done|].
  intros c' Hn. simpl. rewrite lookup_total_insert_ne; [done|]. by intros ->.
Qed.

Lemma stacks_kept_pop (P : nat -> Prop) c x l t :
  data_stack t = StackOf c -> P c -> stacks_kept P t (set_context x (set_cur_stack l t)).
Proof.
  intros Hd Hp H. unfold set_cur_stack. rewrite Hd. split_and!; [done|done|].
  intros c' Hn. simpl. rewrite lookup_total_insert_ne; [done|]. by intros ->.
Qed.

Lemma stacks_kept_absurd P t t' : coroutine_id_func t = false -> stacks_kept P t t'.
Proof. intros H H'. congruence. Qed.

Ltac stacks_done :=
  lazymatch goal with
  | |- stacks_kept _ _ (select_stack _ _) => generalize_tracer; apply stacks_kept_select
  | |- stacks_kept _ _ (set_cur_stack _ _) =>
      first [ eapply stacks_kept_set_cur_stack; [reflexivity|assumption]
            | apply stacks_kept_absurd; assumption ]
  | |- stacks_kept _ _ (set_context _ (set_cur_stack _ _)) =>
      first [ eapply stacks_kept_pop; [reflexivity|assumption]
            | apply stacks_kept_absurd; assumption ]
  | |- stacks_kept _ _ _ => generalize_tracer; apply stacks_kept_frame; reflexivity
  end.

Section Stacks.
Variables (P : nat -> Prop) (w : world).
Hypothesis running_in_P : P (current_coroutine w).

Ltac stacks_step := along_step (stacks_kept_refl P) (stacks_kept_trans P).
Ltac stacks_auto := repeat first [stacks_step | stacks_done].

Lemma on_call_stacks fr t : along (stacks_kept P) (on_call fr) t w.
Proof. unfold on_call, push_context, resolve_disposition. stacks_auto. Qed.

Lemma for_each_setitem_line_stacks ls t w' :
  along (stacks_kept P) (for_each ls setitem_line) t w'.
Proof.
  unfold along. destruct (cur_file_dict t) as [| |name] eqn:Hd.
  - destruct ls; [apply stacks_kept_refl|]. simpl. unfold setitem_line. exec.
    rewrite Hd. apply stacks_kept_refl.
  - destruct ls; [apply stacks_kept_refl|]. simpl. unfold setitem_line. exec.
    rewrite Hd. apply stacks_kept_refl.
  - rewrite (for_each_setitem_line _ name) by done. simpl. by apply stacks_kept_frame.
Qed.

Lemma on_line_stacks fr t : along (stacks_kept P) (on_line fr) t w.
Proof.
  unfold on_line, setitem_arc. stacks_auto.
  apply (along_bind _ (stacks_kept_trans P)).
  - apply for_each_setitem_line_stacks.
  - intros. stacks_auto.
Qed.

Lemma on_return_stacks fr t : along (stacks_kept P) (on_return fr) t w.
Proof. unfold on_return, setitem_arc, pop_context. stacks_auto. Qed.

Lemma replay_stacks fr t : along (stacks_kept P) (replay_skipped_return fr) t w.
Proof. unfold replay_skipped_return, setitem_arc, pop_context. stacks_auto. Qed.

Lemma handle_stacks fr ev t : along (stacks_kept P) (handle fr ev) t w.
Proof.
  destruct ev; simpl.
  - apply on_call_stacks.
  - apply on_line_stacks.
  - apply on_return_stacks.
  - unfold on_exception. stacks_auto.
  - stacks_auto.
Qed.

End Stacks.

Lemma trace_stacks (P : nat -> Prop) fr ev t w :
  P (current_coroutine w) -> along (stacks_kept P) (_trace fr ev) t w.
Proof.
  intros HP. unfold _trace. apply along_gets_bind.
  destruct (stopped t); [apply stacks_kept_refl|].
  apply (along_bind _ (stacks_kept_trans P)); [by apply replay_stacks|].
  intros [] t1 w1 Hreplay.
  assert (Hw : current_coroutine w1 = current_coroutine w).
  { pose proof (replay_preserves_surroundings fr t w) as Hs. rewrite Hreplay in Hs.
    simpl in Hs. exact (f_equal (fun s => s.1.1.1.2) Hs). }
  apply (along_bind _ (stacks_kept_trans P)); [apply handle_stacks; by rewrite Hw|].
  intros _ t2 w2 _. apply along_gets_bind. apply stacks_kept_refl.
Qed.

Lemma run_stacks (P : nat -> Prop) ds t w :
  Forall (fun d => P (dl_coroutine d)) ds -> along (stacks_kept P) (run ds) t w.
Proof.
  intros Hds. revert t w. induction Hds as [|d ds Hd Hds IH]; intros t w; simpl.
  - apply stacks_kept_refl.
  - apply (along_bind _ (stacks_kept_trans P)); [by apply trace_stacks|].
    intros _ t1 w1 _. apply IH.
Qed.

(** X4.  With the coroutine id function set, the deliveries never push
    to or pop from the list [__init__] bound to [data_stack], and they leave
    the stack of every coroutine that delivered no event as it was:
    whatever is delivered, and whether or not a delivery raises. *)
Theorem other_coroutines_stacks_are_untouched ds t w :
  coroutine_id_func t = true ->
  let t' := final_tracer (run ds t w) in
  own_stack t' = own_stack t /\
  forall c, c ∉ dl_coroutine <$> ds -> data_stacks t' !!! c = data_stacks t !!! c.
Proof.
  intros Hc.
  destruct (run_stacks (fun c => c ∈ dl_coroutine <$> ds) ds t w) as (_ & Ho & Hs).
  - apply list.Forall_forall. intros d Hd. cbv beta. exact (list_elem_of_fmap_2 dl_coroutine ds d Hd).
  - done.
  - split; [done|]. intros c Hn. by apply Hs.
Qed.

Lemma other_coroutines_stacks_are_untouched_witness :
  let t' := final_tracer (run streams_interleaved (fresh_tracer false trace_every_file true)
                            (new_world 0)) in
  own_stack t' = [] /\
  forall c, c ∉ dl_coroutine <$> streams_interleaved ->
            data_stacks t' !!! c = (∅ : gmap nat (list context)) !!! c.
Proof.
  apply (other_coroutines_stacks_are_untouched streams_interleaved
           (fresh_tracer false trace_every_file true) (new_world 0)).
  reflexivity.
Defined.

(** ** Calls that return *)

(** X5.  In line mode and in arc mode alike, a running tracer that is
    delivered complete call...return blocks returns from every delivery and
    ends with the context it started with (plugin, per-file dict and last
    line) and with every stack as it was. *)
Theorem complete_blocks_restore_the_context ds t w :
  blocks (coroutine_id_func t) ds -> stopped t = false -> last_exc_back t = None ->
  exists t' w',
    run ds t w = Ok tt t' w' /\
    get_context t' = get_context t /\
    own_stack t' = own_stack t /\
    (forall c, data_stacks t' !!! c = data_stacks t !!! c) /\
    (coroutine_id_func t = false -> data_stack t' = data_stack t).
Proof.
  intros Hb Hs Hm.
  destruct (run_blocks _ ds Hb t w eq_refl Hs Hm)
    as (t' & w' & Hrun & Hctx & (_ & _ & _ & Hds & Hst) & _).
  exists t', w'. split_and!; [done|done| | |done].
  - exact (Hst StackOwn).
  - intros c. exact (Hst (StackOf c)).
Qed.

Lemma complete_blocks_restore_the_context_witness :
  exists t' w',
    run f_called_twice (fresh_tracer true trace_every_file false) (new_world 0)
      = Ok tt t' w' /\
    get_context t' = (SInit, SInit, LInit) /\ own_stack t' = [].
Proof.
  destruct (complete_blocks_restore_the_context f_called_twice
              (fresh_tracer true trace_every_file false) (new_world 0))
    as (t' & w' & Hrun & Hctx & Hown & _).
  - exact blocks_f_called_twice.
  - reflexivity.
  - reflexivity.
  - exists t', w'. by split_and!.
Defined.

(** ** [start] and [stop] *)

(** X6.  [start] followed by [stop] on the same thread: the hook that
    [start] registered is removed again, no warning is issued, the hooks of
    the other threads are not touched, and the tracer is stopped. *)
Theorem start_then_stop_unhooks t w :
  let started := start t w in
  let stopped_o := stop (final_tracer started) (final_world started) in
  started = Ok (TraceOf (obj_id t)) (final_tracer started) (final_world started) /\
  sys_gettrace (final_world started) = Some (TraceOf (obj_id t)) /\
  returns stopped_o = true /\
  stopped (final_tracer stopped_o) = true /\
  sys_gettrace (final_world stopped_o) = None /\
  warnings (final_world stopped_o) = warnings w /\
  forall th, th <> current_thread w ->
    trace_hooks (final_world stopped_o) !! th = trace_hooks w !! th.
Proof.
  cbv zeta. rewrite start_spec. simpl. rewrite stop_spec.
  assert (Hhook : sys_gettrace
            (set_trace_hooks (<[current_thread w := TraceOf (obj_id t)]> (trace_hooks w)) w)
          = Some (TraceOf (obj_id t))).
  { unfold sys_gettrace. simpl. by rewrite lookup_insert_eq. }
  assert (Hthread :
    threading (if threading t then set_thread (Some (current_thread w)) t else t)
    && bool_decide (thread (if threading t then set_thread (Some (current_thread w)) t else t)
                    <> Some (current_thread
                               (set_trace_hooks
                                  (<[current_thread w := TraceOf (obj_id t)]> (trace_hooks w)) w)))
    = false).
  { destruct (threading t) eqn:Hth; simpl; rewrite Hth; [|done]. simpl.
    rewrite bool_decide_false; [done|]. intros H. by apply H. }
  rewrite Hthread, Hhook.
  assert (Hid : obj_id (if threading t then set_thread (Some (current_thread w)) t else t)
                = obj_id t) by (by destruct (threading t)).
  rewrite Hid, (bool_decide_false (Some _ <> Some _)) by (intros H; by apply H).
  rewrite andb_false_r. simpl. split_and!; try done.
  - unfold sys_gettrace. simpl. by rewrite lookup_delete_eq.
  - intros th Hne. by rewrite lookup_delete_ne, lookup_insert_ne.
Qed.

(** X7.  [stop] on the thread that started the tracer (or on any thread
    when no threading module is configured) always removes the hook of the
    calling thread.  It warns exactly when [sys.gettrace] exists, a [warn]
    callback is set and the registered hook is not the tracer's own trace
    function; the warning carries the hook found. *)
Theorem stop_warns_when_the_hook_was_replaced t w :
  threading t = false \/ thread t = Some (current_thread w) ->
  let w' := final_world (stop t w) in
  sys_gettrace w' = None /\
  (sys_gettrace w = Some (TraceOf (obj_id t)) -> warnings w' = warnings w) /\
  (has_gettrace w = false \/ warn t = false -> warnings w' = warnings w) /\
  (has_gettrace w = true -> warn t = true ->
   sys_gettrace w <> Some (TraceOf (obj_id t)) ->
   warnings w' = sys_gettrace w :: warnings w).
Proof.
  intros Hsame. cbv zeta. rewrite stop_spec.
  assert (Hb : threading t && bool_decide (thread t <> Some (current_thread w)) = false).
  { destruct Hsame as [Hth|Hth]; rewrite Hth; [done|]. rewrite bool_decide_false; [|intros H; by apply H].
    apply andb_false_r. }
  rewrite Hb. simpl. split_and!.
  - unfold sys_gettrace. simpl.
    destruct (has_gettrace w && warn t && _); simpl; by rewrite lookup_delete_eq.
  - intros Hown. rewrite (bool_decide_false (_ <> _)) by (intros H; by apply H).
    by rewrite andb_false_r.
  - intros [Hg|Hw]; [by rewrite Hg|]. by rewrite Hw, andb_false_r.
  - intros -> -> Hne. by rewrite bool_decide_true.
Qed.

Lemma stop_warns_when_the_hook_was_replaced_witness :
  let t := new_tracer 1 false trace_every_file (fun _ => true) false true false in
  let w := set_trace_hooks {[ 0%nat := OtherFun 7 ]} (new_world 0) in
  sys_gettrace (final_world (stop t w)) = None /\
  warnings (final_world (stop t w)) = [Some (OtherFun 7)].
Proof.
  cbv zeta.
  destruct (stop_warns_when_the_hook_was_replaced
              (new_tracer 1 false trace_every_file (fun _ => true) false true false)
              (set_trace_hooks {[ 0%nat := OtherFun 7 ]} (new_world 0)))
    as (Hhook & _ & _ & Hwarn).
  - left. reflexivity.
  - split; [exact Hhook|]. apply Hwarn; [reflexivity|reflexivity|].
    vm_compute. discriminate.
Defined.

(** X8.  [start] does not clear the stopped flag: started again, a stopped
    tracer has its hook registered again but still ignores every event. *)
Theorem start_does_not_resume_a_stopped_tracer t w :
  stopped t = true ->
  let t' := final_tracer (start t w) in
  stopped t' = true /\
  sys_gettrace (final_world (start t w)) = Some (TraceOf (obj_id t)) /\
  (forall fr ev w2, _trace fr ev t' w2 = Ok None t' w2) /\
  (forall ds w2, exists w3, run ds t' w2 = Ok tt t' w3).
Proof.
  intros Hs. cbv zeta. rewrite start_spec. simpl.
  assert (Hs' : stopped (if threading t then set_thread (Some (current_thread w)) t else t)
                = true) by (by destruct (threading t)).
  split_and!.
  - done.
  - unfold sys_gettrace. simpl. by rewrite lookup_insert_eq.
  - intros fr ev w2. by apply trace_stopped.
  - intros ds w2. by apply run_stopped.
Qed.

Lemma start_does_not_resume_a_stopped_tracer_witness :
  let t := set_stopped true (fresh_tracer false trace_every_file false) in
  let t' := final_tracer (start t (new_world 0)) in
  stopped t' = true /\
  _trace (f_frame 2 10) EvCall t' (new_world 0) = Ok None t' (new_world 0).
Proof.
  cbv zeta.
  destruct (start_does_not_resume_a_stopped_tracer
              (set_stopped true (fresh_tracer false trace_every_file false)) (new_world 0))
    as (Hs & _ & Htrace & _).
  - reflexivity.
  - split; [exact Hs|apply Htrace].
Defined.

(** ** Events that do not fit *)

Lemma select_then_pop_empty c b t w :
  stack_at (active_ref c t) t = [] ->
  pop_context (selected c b t) w = Raise IndexError (selected c b t) w.
Proof.
  intros Hst. unfold pop_context. exec.
  rewrite cur_stack_at, selected_data_stack, stack_at_selected, Hst. done.
Qed.

(** X9.  A return event that finds the stack of its coroutine empty
    raises [IndexError] from the [pop]; by then the exit arc has been
    recorded if the tracer is in arc mode and the live record is not
    empty, and the stack of the coroutine has been selected. *)
Theorem unmatched_return_raises_index_error fr t w :
  stopped t = false -> last_exc_back t = None ->
  stack_at (active_ref (current_coroutine w) t) t = [] ->
  (arcs t && cur_file_dict_truthy t = true -> last_line t <> LInit) ->
  _trace fr EvReturn t w =
    Raise IndexError
      (selected (current_coroutine w) true
         (exit_arc_recorded (co_firstlineno (f_code fr)) t)) w.
Proof.
  intros Hs Hm Hst Hl. rewrite trace_plain by done. simpl.
  assert (Hsel : forall t' : PyTracer,
    (id_func <- gets coroutine_id_func ;;
     when id_func
       (c <- gets_world current_coroutine ;;
        modify (select_stack c) ;;;
        modify (set_last_coroutine (Some c))) ;;;
     pop_context)%py t' w = pop_context (selected (current_coroutine w) true t') w).
  { intros t'. unfold selected. exec. by destruct (coroutine_id_func t'). }
  unfold on_return. unfold bind at 1 2 3, gets at 1 2.
  set (t1 := exit_arc_recorded _ t).
  assert (Hrec : when (arcs t && cur_file_dict_truthy t)
                   (setitem_arc (- co_firstlineno (f_code fr))) t w = Ok tt t1 w).
  { subst t1. unfold exit_arc_recorded, when.
    destruct (arcs t && cur_file_dict_truthy t) eqn:Hb; [|done].
    specialize (Hl eq_refl).
    apply andb_true_iff in Hb as [Ha Hb]. unfold cur_file_dict_truthy in Hb.
    destruct (cur_file_dict t) as [| |name] eqn:Hd; try done.
    destruct (last_line t) as [|ll] eqn:Hll; [by destruct Hl|].
    by apply setitem_arc_ok. }
  rewrite Hrec, Hsel, select_then_pop_empty; [done|].
  subst t1. by destruct (exit_arc_recorded_data (co_firstlineno (f_code fr)) t) as [d ->].
Qed.

Lemma unmatched_return_raises_index_error_witness :
  _trace (f_frame 2 12) EvReturn (fresh_tracer true trace_every_file false) (new_world 0) =
    Raise IndexError (fresh_tracer true trace_every_file false) (new_world 0).
Proof.
  apply (unmatched_return_raises_index_error (f_frame 2 12)
           (fresh_tracer true trace_every_file false) (new_world 0));
    [reflexivity|reflexivity|reflexivity|intros H; discriminate H].
Defined.

(** X10.  A line event that arrives while the context is still the one
    [__init__] made - no call event has been delivered yet, or the first
    call has returned - raises from the assignment into the empty list:
    [IndexError] in line mode, [TypeError] in arc mode.  The tracer is left
    as it was. *)
Theorem line_event_before_any_call_raises fr t w :
  stopped t = false -> last_exc_back t = None ->
  plugin t = SInit -> cur_file_dict t = SInit -> f_lineno fr <> -1 ->
  _trace fr EvLine t w = Raise (if arcs t then TypeError else IndexError) t w.
Proof.
  intros Hs Hm Hp Hd Hline. rewrite trace_plain by done. simpl.
  unfold on_line. unfold bind at 1, gets at 1. rewrite Hp. simpl.
  destruct (Z.eqb_spec (f_lineno fr) (-1)) as [|_]; [done|]. simpl.
  unfold bind at 1 2, gets at 1. rewrite Hd. simpl.
  unfold bind at 1, gets at 1. destruct (arcs t).
  - unfold setitem_arc. exec. by rewrite Hd.
  - unfold py_range. replace (f_lineno fr + 1 - f_lineno fr) with 1 by lia.
    simpl. unfold setitem_line. exec. by rewrite Hd.
Qed.

Lemma line_event_before_any_call_raises_witness :
  _trace (main_frame 5) EvLine (fresh_tracer false trace_every_file false) (new_world 0) =
    Raise IndexError (fresh_tracer false trace_every_file false) (new_world 0).
Proof.
  apply (line_event_before_any_call_raises (main_frame 5)
           (fresh_tracer false trace_every_file false) (new_world 0));
    [reflexivity|reflexivity|reflexivity|reflexivity|discriminate].
Defined.

(** X11.  The marker an exception event leaves is looked at once.  When the
    next event is not in the frame that called the raising frame, the two
    deliveries have the outcome of the second one alone - the same result, the
    same world and the same tracer, but for the first line the exception event
    remembered. *)
Theorem exception_marker_is_looked_at_once g f ev c1 c2 t w :
  last_exc_back t = None -> f_back g <> Some (f_id f) ->
  map_outcome forget_origin
    (run [delivery_of c1 g EvException; delivery_of c2 f ev] t w) =
  map_outcome forget_origin (run [delivery_of c2 f ev] t w).
Proof.
  intros Hm Hback. destruct (stopped t) eqn:Hs.
  { simpl. unfold bind, deliver. by rewrite !trace_stopped by done. }
  set (wd := at_delivery (delivery_of c2 f ev) w).
  set (te := set_last_exc_firstlineno (co_firstlineno (f_code g))
               (set_last_exc_back (f_back g) t)).
  assert (HB : run [delivery_of c2 f ev] t w =
               match after_replay f ev t wd with
               | Ok _ t' w' => Ok tt t' w'
               | Raise e t' w' => Raise e t' w'
               end).
  { rewrite run_one. unfold deliver. unfold delivery_of, dl_frame, dl_coroutine, dl_event.
    rewrite trace_running by done. unfold bind at 1. by rewrite replay_none by done. }
  assert (HA : run [delivery_of c1 g EvException; delivery_of c2 f ev] t w =
               match after_replay f ev (set_last_exc_back None te) wd with
               | Ok _ t' w' => Ok tt t' w'
               | Raise e t' w' => Raise e t' w'
               end).
  { assert (Hexc : deliver (delivery_of c1 g EvException) t w =
              Ok (Some (TraceOf (obj_id t))) te (at_delivery (delivery_of c1 g EvException) w)).
    { rewrite deliver_plain by done. done. }
    rewrite (run_cons_ok _ _ _ _ _ _ _ Hexc), run_one.
    unfold deliver. unfold delivery_of at 1 2 3, dl_frame, dl_coroutine, dl_event.
    rewrite trace_running by done. unfold bind at 1.
    destruct (f_back g) as [back|] eqn:Hb.
    - rewrite (replay_mismatch _ _ _ back); [done|by subst te|].
      intros Heq. apply Hback. by rewrite Heq.
    - rewrite replay_none by (by subst te).
      assert (set_last_exc_back None te = te) as -> by (by subst te).
      done. }
  rewrite HA, HB.
  assert (Heq : forget_origin (set_last_exc_back None te) = forget_origin t).
  { subst te. unfold forget_origin. destruct t; simpl in *. by subst. }
  pose proof (after_replay_respects f ev _ _ wd Heq) as Hresp.
  destruct (after_replay f ev (set_last_exc_back None te) wd),
           (after_replay f ev t wd); simpl in *; congruence.
Qed.

Lemma exception_marker_is_looked_at_once_witness :
  let t := final_tracer (run first_call_of_f (fresh_tracer true trace_every_file false)
                           (new_world 0)) in
  map_outcome forget_origin
    (run [delivery_of 0 (f_frame 3 11) EvException; delivery_of 0 (f_frame 3 11) EvLine]
       t (new_world 0)) =
  map_outcome forget_origin (run [delivery_of 0 (f_frame 3 11) EvLine] t (new_world 0)).
Proof.
  apply (exception_marker_is_looked_at_once (f_frame 3 11) (f_frame 3 11) EvLine 0%nat 0%nat
           (final_tracer (run first_call_of_f (fresh_tracer true trace_every_file false)
                            (new_world 0)))
           (new_world 0)).
  - vm_compute. reflexivity.
  - discriminate.
Defined.

(** ** What the trace function leaves alone *)

Lemma trace_preserves_surroundings fr ev :
  preserves (fun _ w => surroundings w) (_trace fr ev).
Proof.
  unfold _trace. apply preserves_bind; [apply preserves_gets|intros s].
  destruct s; [apply preserves_ret|].
  apply preserves_bind; [apply replay_preserves_surroundings|intros _].
  apply preserves_bind; [apply handle_preserves_surroundings|intros _].
  repeat preserves_step.
Qed.

(** X12.  The trace function never reconfigures the tracer and reaches the
    interpreter through the oracle only: whatever the event and whether it
    returns or raises, the identity of the tracer, its mode, its
    collaborators, its thread and its stopped flag are as before, and so
    are the registered hooks, the warnings issued and the current thread
    and coroutine. *)
Theorem trace_leaves_configuration_and_hooks_alone fr ev t w :
  settings (final_tracer (_trace fr ev t w)) = settings t /\
  surroundings (final_world (_trace fr ev t w)) = surroundings w.
Proof.
  split.
  - apply (trace_preserves_settings fr ev t w).
  - apply (trace_preserves_surroundings fr ev t w).
Qed.

(** ** Arc mode: one call *)

Lemma record_arcs_lookup_total name l ns d :
  record_arcs name l ns d !!! name = list_to_set (arcs_between l ns) ∪ d !!! name.
Proof.
  revert l d. induction ns as [|n ns IH]; intros l d; simpl.
  - by rewrite (left_id_L ∅ (∪)).
  - rewrite IH. unfold record_key. rewrite lookup_total_insert_eq.
    apply set_eq. intros x. rewrite !elem_of_union. tauto.
Qed.

Lemma record_arcs_lookup_ne name n l ns d :
  n <> name -> record_arcs name l ns d !! n = d !! n.
Proof.
  intros Hn. revert l d. induction ns as [|x ns IH]; intros l d; simpl; [done|].
  rewrite IH. unfold record_key. by rewrite lookup_insert_ne.
Qed.

Lemma record_arcs_present name l ns d :
  is_Some (d !! name) -> is_Some (record_arcs name l ns d !! name).
Proof.
  revert l d. induction ns as [|x ns IH]; intros l d Hd; simpl; [done|].
  apply IH. unfold record_key. rewrite lookup_insert_eq. by eexists.
Qed.

Lemma last_cons_default (ns : list Z) n l : List.last (n :: ns) l = List.last ns n.
Proof.
  revert n l. induction ns as [|m ns IH]; intros n l; [done|].
  change (List.last (n :: m :: ns) l) with (List.last (m :: ns) l).
  by rewrite !IH.
Qed.

(** Line events in arc mode, in a frame that is traced without a plugin. *)
Lemma run_lines_arcs name ds :
  Forall (fun d => dl_event d = EvLine /\ f_lineno (dl_frame d) <> -1) ds ->
  forall t w l,
    stopped t = false -> last_exc_back t = None -> arcs t = true ->
    cur_file_dict t = SObj name -> plugin t = SNone -> last_line t = LNo l ->
    exists t' w',
      run ds t w = Ok tt t' w' /\
      data t' = record_arcs name l (line_numbers ds) (data t) /\
      last_line t' = LNo (List.last (line_numbers ds) l) /\
      cur_file_dict t' = SObj name /\ arcs t' = true.
Proof.
  induction 1 as [|d ds [Hev Hline] _ IH]; intros t w l Hs Hm Ha Hd Hp Hl.
  - exists t, w. by split_and!.
  - pose proof (deliver_line d t w Hev Hs Hm) as Hrun.
    rewrite Hd, Hl in Hrun. specialize (Hrun ltac:(done) ltac:(done)).
    destruct (line_recorded_attrs (dl_frame d) t) as (Hp1 & Hd1 & Hun1 & _).
    apply untouched_eq in Hun1 as (Hset1 & _ & _ & Hm1 & _).
    apply settings_eq in Hset1 as (_ & Ha1 & Hs1 & _).
    assert (Hrec : data (line_recorded (dl_frame d) t) =
                     record_key name (KArc l (f_lineno (dl_frame d))) (data t) /\
                   last_line (line_recorded (dl_frame d) t) = LNo (f_lineno (dl_frame d))).
    { unfold line_recorded, line_span. rewrite Hp, Hd, Ha, Hl.
      destruct (Z.eqb_spec (f_lineno (dl_frame d)) (-1)); [done|]. done. }
    destruct Hrec as [Hdata1 Hl1].
    destruct (IH (line_recorded (dl_frame d) t) (at_delivery d w) (f_lineno (dl_frame d)))
      as (t' & w' & Hrun' & Hdata' & Hl' & Hd' & Ha'); try congruence.
    exists t', w'. rewrite (run_cons_ok _ _ _ _ _ _ _ Hrun). split_and!; try done.
    + rewrite Hdata', Hdata1. done.
    + rewrite Hl'. unfold line_numbers. rewrite fmap_cons. by rewrite last_cons_default.
Qed.

Lemma line_events_nested b ds :
  Forall (fun d => dl_event d = EvLine /\ f_lineno (dl_frame d) <> -1) ds -> nested b ds.
Proof.
  induction 1 as [|d ds [Hev _] _ IH]; [apply nested_nil|by apply nested_line].
Qed.

(** X13.  Arc mode, one call into a file that is traced without a plugin:
    a call event, line events (at least one) and the return event.  The
    deliveries return, and the record of the file has gained exactly the
    entry arc from -1 to the first line, the arcs between consecutive lines
    and the exit arc from the last line to minus the first line of the code
    object of the returning frame.  The other records are as they were, and
    the context of the caller is live again. *)
Theorem arc_mode_records_the_arcs_of_a_call c lines r name t w :
  stopped t = false -> last_exc_back t = None -> arcs t = true ->
  dl_event c = EvCall -> dl_event r = EvReturn ->
  (coroutine_id_func t = true -> dl_coroutine r = dl_coroutine c) ->
  traced_name t (dl_frame c) = Some name ->
  disp_plugin (resolved t (dl_frame c)) = None ->
  Forall (fun d => dl_event d = EvLine /\ f_lineno (dl_frame d) <> -1) lines ->
  lines <> [] ->
  exists t' w',
    run (c :: lines ++ [r]) t w = Ok tt t' w' /\
    data t' !! name =
      Some (list_to_set (arcs_of_call (line_numbers lines)
                           (co_firstlineno (f_code (dl_frame r))))
            ∪ data t !!! name) /\
    (forall n, n <> name -> data t' !! n = data t !! n) /\
    get_context t' = get_context t.
Proof.
  intros Hs Hm Ha Hc Hr Hpair Hname Hplug Hlines Hne.
  destruct (call_body_return (coroutine_id_func t) c lines r t w
              (run_nested _ lines (line_events_nested _ _ Hlines)) Hc Hr Hpair eq_refl Hs Hm)
    as (t1 & w1 & t2 & w2 & t3 & (Hrun1 & Hcalled & Hset1 & Hin1) & (Hrun2 & _ & _)
        & (Hrun3 & _ & Hdata3) & Hctx & _).
  destruct Hin1 as (Hs1 & Hm1 & _).
  apply settings_eq in Hset1 as (_ & Ha1 & _).
  pose proof (called_dict _ _ _ _ _ Hcalled) as Hd1.
  pose proof (called_plugin _ _ _ _ _ Hcalled) as Hp1.
  pose proof (called_last_line _ _ _ _ _ Hcalled) as Hl1.
  pose proof (called_data _ _ _ _ _ Hcalled) as Hdata1.
  rewrite Hname in Hd1, Hp1, Hdata1. rewrite Hplug in Hp1. simpl in Hd1, Hp1.
  fold (store_with name (data t)) in Hdata1.
  destruct (run_lines_arcs name lines Hlines t1 w1 (-1))
    as (t2' & w2' & Hrun2' & Hdata2 & Hl2 & Hd2 & Ha2); try congruence.
  rewrite Hrun2 in Hrun2'. injection Hrun2' as <- <-.
  assert (Hrec2 : data t2 !!! name =
                    list_to_set (arcs_between (-1) (line_numbers lines)) ∪ data t !!! name).
  { rewrite Hdata2, record_arcs_lookup_total, Hdata1. by rewrite store_with_lookup_total. }
  assert (Htruthy : cur_file_dict_truthy t2 = true).
  { unfold cur_file_dict_truthy. rewrite Hd2. apply bool_decide_eq_true. rewrite Hrec2.
    destruct lines as [|d lines']; [done|]. simpl.
    intros Hempty. apply (not_elem_of_empty (C := gset key) (KArc (-1) (f_lineno (dl_frame d)))).
    rewrite <- Hempty. apply elem_of_union_l, elem_of_union_l. by apply elem_of_singleton. }
  assert (Hexit : data t3 =
            record_key name (KArc (List.last (line_numbers lines) (-1))
                               (- co_firstlineno (f_code (dl_frame r)))) (data t2)).
  { rewrite Hdata3. unfold exit_arc_recorded. by rewrite Ha2, Htruthy, Hd2, Hl2. }
  exists t3, (at_delivery r w2). split_and!.
  - by rewrite (run_call_body_return _ _ _ [] _ _ _ _ _ _ _ _ _ _ Hrun1 Hrun2 Hrun3).
  - rewrite Hexit. unfold record_key. rewrite lookup_insert_eq. f_equal.
    rewrite Hrec2. unfold arcs_of_call. rewrite list_to_set_app_L. simpl.
    apply set_eq. intros x. rewrite !elem_of_union, elem_of_empty. tauto.
  - intros n Hn. rewrite Hexit. unfold record_key. rewrite lookup_insert_ne by done.
    rewrite Hdata2, record_arcs_lookup_ne by done. rewrite Hdata1.
    by apply store_with_lookup_ne.
  - done.
Qed.

Lemma arc_mode_records_the_arcs_of_a_call_witness :
  exists t' w',
    run (tail (call_of_f 2)) (fresh_tracer true trace_every_file false) (new_world 0)
      = Ok tt t' w' /\
    data t' !! "f.py" = Some {[KArc (-1) 10; KArc 10 11; KArc 11 12; KArc 12 (-10)]}.
Proof.
  destruct (arc_mode_records_the_arcs_of_a_call
              (delivery_of 0 (f_frame 2 10) EvCall)
              [delivery_of 0 (f_frame 2 10) EvLine; delivery_of 0 (f_frame 2 11) EvLine;
               delivery_of 0 (f_frame 2 12) EvLine]
              (delivery_of 0 (f_frame 2 12) EvReturn) "f.py"
              (fresh_tracer true trace_every_file false) (new_world 0))
    as (t' & w' & Hrun & Hdata & _); try reflexivity.
  - repeat (apply List.Forall_cons; [split; [reflexivity|simpl; lia]|]).
    apply List.Forall_nil.
  - discriminate.
  - exists t', w'. split; [exact Hrun|]. rewrite Hdata. vm_compute. reflexivity.
Defined.

(** ** Line events of a file tracer plugin *)

Lemma elem_of_py_range n a b : n ∈ py_range a b <-> a <= n < b.
Proof.
  unfold py_range. rewrite list_elem_of_fmap. split.
  - intros (i & -> & Hi). apply elem_of_seq in Hi. lia.
  - intros Hn. exists (Z.to_nat (n - a)). split; [lia|]. apply elem_of_seq. lia.
Qed.

(** X14.  A line event in a frame traced through a file tracer plugin that
    reports the range [(a, b)], [a] not -1.  In line mode the record gains
    every line from [a] to [b], both included, and nothing when [b < a];
    in arc mode it gains the one arc from the last line to [a].  In both
    modes [last_line] becomes [b] and the other records are as they were. *)
Theorem plugin_line_range_is_recorded fr t w p name a b :
  stopped t = false -> last_exc_back t = None ->
  plugin t = SObj p -> cur_file_dict t = SObj name ->
  line_number_range p fr = (a, b) -> a <> -1 ->
  (arcs t = true -> last_line t <> LInit) ->
  exists t',
    _trace fr EvLine t w = Ok (Some (TraceOf (obj_id t))) t' w /\
    last_line t' = LNo b /\
    (forall n, n <> name -> data t' !! n = data t !! n) /\
    forall k, k ∈ data t' !!! name <->
      k ∈ data t !!! name \/
      if arcs t then exists l, last_line t = LNo l /\ k = KArc l a
      else exists n, a <= n <= b /\ k = KLine n.
Proof.
  intros Hs Hm Hp Hd Hrange Ha Hl.
  exists (line_recorded fr t). split.
  { rewrite trace_plain by done. simpl. rewrite on_line_ok; [|by rewrite Hd|].
    - destruct (line_recorded_attrs fr t) as (_ & _ & Hun & _).
      apply untouched_eq in Hun as (Hset & _). apply settings_eq in Hset as (-> & _). done.
    - intros Harcs _. by apply Hl. }
  unfold line_recorded, line_span. rewrite Hp, Hrange, Hd.
  destruct (Z.eqb_spec a (-1)) as [|_]; [done|].
  destruct (arcs t) eqn:Harcs.
  - destruct (last_line t) as [|l] eqn:Hll; [by destruct Hl|]. simpl. split_and!; [done| |].
    + intros n Hn. unfold record_key. by rewrite lookup_insert_ne.
    + intros k. unfold record_key. rewrite lookup_total_insert_eq, elem_of_union, elem_of_singleton.
      split.
      * intros [->|Hk]; [right; by exists l|by left].
      * intros [Hk|(l' & [= <-] & ->)]; [by right|by left].
  - simpl. split_and!; [done| |].
    + intros n Hn. by apply record_lines_lookup_ne.
    + intros k. rewrite record_lines_lookup_total, decide_True by done.
      rewrite elem_of_union, elem_of_list_to_set, list_elem_of_fmap. split.
      * intros [(n & -> & Hn)|Hk]; [|by left]. right. exists n. split; [|done].
        apply elem_of_py_range in Hn. lia.
      * intros [Hk|(n & Hn & ->)]; [by right|]. left. exists n. split; [done|].
        apply elem_of_py_range. lia.
Qed.

Lemma plugin_line_range_is_recorded_witness :
  let t := final_tracer (run [delivery_of 0 (f_frame 2 10) EvCall]
                           (fresh_tracer false trace_with_span_plugin false) (new_world 0)) in
  exists t',
    _trace (f_frame 2 10) EvLine t (new_world 0) = Ok (Some (TraceOf 1)) t' (new_world 0) /\
    last_line t' = LNo 12.
Proof.
  cbv zeta.
  destruct (plugin_line_range_is_recorded (f_frame 2 10)
              (final_tracer (run [delivery_of 0 (f_frame 2 10) EvCall]
                               (fresh_tracer false trace_with_span_plugin false)
                               (new_world 0)))
              (new_world 0) span_plugin "f.py" 10 12)
    as (t' & Hrun & Hl & _); try (vm_compute; reflexivity).
  - discriminate.
  - intros H. vm_compute in H. discriminate H.
  - exists t'. split; [exact Hrun|exact Hl].
Defined.

(** ** The plugin data *)

Lemma plugin_data_kept_refl t : plugin_data_kept t t.
Proof. by intros H. Qed.

Lemma plugin_data_kept_trans t1 t2 t3 :
  plugin_data_kept t1 t2 -> plugin_data_kept t2 t3 -> plugin_data_kept t1 t3.
Proof.
  intros H1 H2 Hi. destruct (H1 Hi) as (Hi2 & Hs2). destruct (H2 Hi2) as (Hi3 & Hs3).
  split; [done|]. intros n v Hn. by apply Hs3, Hs2.
Qed.

Lemma plugin_data_kept_frame t t' :
  data t' = data t -> plugin_data t' = plugin_data t -> plugin_data_kept t t'.
Proof.
  intros Hd Hp Hi. unfold plugin_data_has_records. rewrite Hd, Hp. done.
Qed.

Lemma plugin_data_kept_record_key name k t :
  plugin_data_kept t (set_data (record_key name k (data t)) t).
Proof.
  intros Hi. split; [|done]. intros n Hn. simpl. unfold record_key.
  destruct (decide (n = name)) as [->|Hne].
  - rewrite lookup_insert_eq. by eexists.
  - rewrite lookup_insert_ne by done. by apply Hi.
Qed.

Lemma plugin_data_kept_new_record name d t :
  d = data t -> plugin_data_kept t (set_data (<[name := ∅]> d) t).
Proof.
  intros -> Hi. split; [|done]. intros n Hn. simpl.
  destruct (decide (n = name)) as [->|Hne].
  - rewrite lookup_insert_eq. by eexists.
  - rewrite lookup_insert_ne by done. by apply Hi.
Qed.

Lemma plugin_data_kept_new_plugin name v d pd t :
  d = data t -> pd = plugin_data t -> ~ is_Some (d !! name) ->
  plugin_data_kept t (set_plugin_data (<[name := v]> pd) (set_data (<[name := ∅]> d) t)).
Proof.
  intros -> -> Hnone Hi. split.
  - intros n Hn. simpl in *. destruct (decide (n = name)) as [->|Hne].
    + rewrite lookup_insert_eq. by eexists.
    + rewrite lookup_insert_ne in Hn by done. rewrite lookup_insert_ne by done.
      by apply Hi.
  - intros n v' Hn. simpl. rewrite lookup_insert_ne; [done|].
    intros <-. apply Hnone, Hi. by eexists.
Qed.

Lemma along_modify_twice_bind {B} (rel : PyTracer -> PyTracer -> Prop)
    (rel_trans : forall t1 t2 t3, rel t1 t2 -> rel t2 t3 -> rel t1 t3)
    f g (k : unit -> M B) t w :
  rel t (g (f t)) -> along rel (k tt) (g (f t)) w ->
  along rel (bind (modify f) (fun _ => bind (modify g) k)) t w.
Proof. unfold along, bind, modify. eauto. Qed.

Ltac plugin_data_done :=
  lazymatch goal with
  | |- plugin_data_kept _ (set_data (record_key _ _ _) _) =>
      apply plugin_data_kept_record_key
  | |- plugin_data_kept _ (set_data (<[_ := ∅]> _) _) =>
      apply plugin_data_kept_new_record; reflexivity
  | |- plugin_data_kept _ (set_plugin_data _ (set_data _ _)) =>
      match goal with
      | H : negb (bool_decide (is_Some _)) = true |- _ =>
          apply negb_true_iff, bool_decide_eq_false in H;
          apply plugin_data_kept_new_plugin; [reflexivity|reflexivity|exact H]
      end
  | |- plugin_data_kept _ _ => generalize_tracer; apply plugin_data_kept_frame; attr_unchanged
  end.

Ltac plugin_data_step :=
  lazymatch goal with
  | |- along _ (bind (modify _) (fun _ => bind (match ?o with _ => _ end) _)) _ _ =>
      destruct o eqn:?;
      [ apply (along_modify_twice_bind _ plugin_data_kept_trans); simpl
      | apply (along_modify_bind _ plugin_data_kept_trans); simpl ]
  | |- _ => along_step plugin_data_kept_refl plugin_data_kept_trans
  end.

Ltac plugin_data_auto := repeat first [plugin_data_step | plugin_data_done].

Lemma on_call_plugin_data fr t w : along plugin_data_kept (on_call fr) t w.
Proof. unfold on_call, push_context, resolve_disposition. plugin_data_auto. Qed.

Lemma for_each_setitem_line_plugin_data ls t w :
  along plugin_data_kept (for_each ls setitem_line) t w.
Proof.
  revert t w. induction ls as [|n ls IH]; intros t w; simpl.
  - apply plugin_data_kept_refl.
  - apply (along_bind _ plugin_data_kept_trans).
    + unfold setitem_line. plugin_data_auto.
    + intros _ t1 w1 _. apply IH.
Qed.

Lemma on_line_plugin_data fr t w : along plugin_data_kept (on_line fr) t w.
Proof.
  unfold on_line, setitem_arc. plugin_data_auto.
  apply (along_bind _ plugin_data_kept_trans).
  - apply for_each_setitem_line_plugin_data.
  - intros. plugin_data_auto.
Qed.

Lemma on_return_plugin_data fr t w : along plugin_data_kept (on_return fr) t w.
Proof. unfold on_return, setitem_arc, pop_context. plugin_data_auto. Qed.

Lemma replay_plugin_data fr t w : along plugin_data_kept (replay_skipped_return fr) t w.
Proof. unfold replay_skipped_return, setitem_arc, pop_context. plugin_data_auto. Qed.

Lemma handle_plugin_data fr ev t w : along plugin_data_kept (handle fr ev) t w.
Proof.
  destruct ev; simpl.
  - apply on_call_plugin_data.
  - apply on_line_plugin_data.
  - apply on_return_plugin_data.
  - unfold on_exception. plugin_data_auto.
  - plugin_data_auto.
Qed.

Lemma trace_plugin_data fr ev t w : along plugin_data_kept (_trace fr ev) t w.
Proof.
  unfold _trace. apply along_gets_bind. destruct (stopped t); [apply plugin_data_kept_refl|].
  apply (along_bind _ plugin_data_kept_trans); [apply replay_plugin_data|].
  intros _ t1 w1 _.
  apply (along_bind _ plugin_data_kept_trans); [apply handle_plugin_data|].
  intros _ t2 w2 _. apply along_gets_bind. apply plugin_data_kept_refl.
Qed.

Lemma run_plugin_data ds t w : along plugin_data_kept (run ds) t w.
Proof.
  revert t w. induction ds as [|d ds IH]; intros t w; simpl.
  - apply plugin_data_kept_refl.
  - apply (along_bind _ plugin_data_kept_trans); [apply trace_plugin_data|].
    intros _ t1 w1 _. apply IH.
Qed.

(** X15.  If every file with an entry in the plugin data has a record in
    the data store, this is still so after any deliveries, and no entry of
    the plugin data has been removed or changed: the plugin noted for a file
    is the one of the call that made its record. *)
Theorem plugin_data_is_kept ds t w :
  plugin_data_has_records t ->
  let t' := final_tracer (run ds t w) in
  plugin_data_has_records t' /\
  forall n v, plugin_data t !! n = Some v -> plugin_data t' !! n = Some v.
Proof. intros Hi. exact (run_plugin_data ds t w Hi). Qed.

Lemma plugin_data_is_kept_witness :
  let t' := final_tracer (run (tail (call_of_f 2))
                            (fresh_tracer false trace_with_span_plugin false)
                            (new_world 0)) in
  plugin_data_has_records t' /\ plugin_data t' !! "f.py" = Some "span".
Proof.
  cbv zeta. split; [|vm_compute; reflexivity].
  apply (plugin_data_is_kept (tail (call_of_f 2))
           (fresh_tracer false trace_with_span_plugin false) (new_world 0)).
  intros n [v Hn]. simpl in Hn. by rewrite lookup_empty in Hn.
Defined.

(** ** The live per-file dict is a record of the store *)

Lemma stays_bound_refl t : stays_bound t t.
Proof. by intros H. Qed.

Lemma stays_bound_trans t1 t2 t3 :
  stays_bound t1 t2 -> stays_bound t2 t3 -> stays_bound t1 t3.
Proof. intros H1 H2 Hi. by apply H2, H1. Qed.

Lemma context_bound_mono d d' c :
  (forall n, is_Some (d !! n) -> is_Some (d' !! n)) ->
  context_bound d c -> context_bound d' c.
Proof. unfold context_bound. destruct c.1.2; auto. Qed.

Lemma stays_bound_frame t t' :
  get_context t' = get_context t -> (forall r, stack_at r t' = stack_at r t) ->
  data t' = data t -> stays_bound t t'.
Proof.
  intros Hc Hs Hd [H1 H2]. split.
  - by rewrite Hc, Hd.
  - intros r. by rewrite Hs, Hd.
Qed.

Lemma stays_bound_data d t :
  (forall n, is_Some (data t !! n) -> is_Some (d !! n)) ->
  stays_bound t (set_data d t).
Proof.
  intros Hd [H1 H2]. split.
  - by apply (context_bound_mono (data t)).
  - intros r. assert (stack_at r (set_data d t) = stack_at r t) as -> by (by destruct r).
    eapply List.Forall_impl; [|apply H2]. intros c. by apply context_bound_mono.
Qed.

Lemma stays_bound_record_key name k t :
  stays_bound t (set_data (record_key name k (data t)) t).
Proof.
  apply stays_bound_data. intros n Hn. unfold record_key.
  destruct (decide (n = name)) as [->|Hne].
  - rewrite lookup_insert_eq. by eexists.
  - by rewrite lookup_insert_ne.
Qed.

Lemma stays_bound_new_record name d t :
  d = data t -> stays_bound t (set_data (<[name := ∅]> d) t).
Proof.
  intros ->. apply stays_bound_data. intros n Hn.
  destruct (decide (n = name)) as [->|Hne].
  - rewrite lookup_insert_eq. by eexists.
  - by rewrite lookup_insert_ne.
Qed.

Lemma stays_bound_select c t : stays_bound t (select_stack c t).
Proof. apply stays_bound_frame; try done. intros r. apply stack_at_select. Qed.

Lemma stays_bound_push t :
  stays_bound t (set_cur_stack (get_context t :: cur_stack t) t).
Proof.
  intros [H1 H2].
  assert (Hd : data (set_cur_stack (get_context t :: cur_stack t) t) = data t)
    by (unfold set_cur_stack; by destruct (data_stack t)).
  split; rewrite Hd.
  - revert H1. unfold context_bound, get_context, set_cur_stack. simpl.
    by destruct (data_stack t).
  - intros r. rewrite stack_at_set_cur_stack. case_decide; [|apply H2].
    constructor; [done|]. rewrite cur_stack_at. apply H2.
Qed.

Lemma stays_bound_pop t c l :
  cur_stack t = c :: l -> stays_bound t (set_context c (set_cur_stack l t)).
Proof.
  intros Hst [H1 H2].
  assert (Hcl : Forall (context_bound (data t)) (c :: l)).
  { rewrite <- Hst, cur_stack_at. apply H2. }
  pose proof (Forall_inv Hcl) as Hc. pose proof (Forall_inv_tail Hcl) as Hl.
  assert (Hd : data (set_context c (set_cur_stack l t)) = data t)
    by (unfold set_cur_stack; by destruct (data_stack t)).
  split; rewrite Hd.
  - revert Hc. unfold context_bound, get_context, set_context. simpl.
    by destruct c as [[p d] ll].
  - intros r.
    assert (stack_at r (set_context c (set_cur_stack l t)) =
            stack_at r (set_cur_stack l t)) as -> by (by destruct r).
    rewrite stack_at_set_cur_stack. case_decide; [done|apply H2].
Qed.

Lemma stays_bound_set_plugin p t : stays_bound t (set_plugin p t).
Proof. intros [H1 H2]. by split. Qed.

Lemma stays_bound_set_last_line l t : stays_bound t (set_last_line l t).
Proof. intros [H1 H2]. by split. Qed.

Lemma stays_bound_set_cur_file_dict d t :
  match d with SObj name => is_Some (data t !! name) | _ => True end ->
  stays_bound t (set_cur_file_dict d t).
Proof. intros Hd [H1 H2]. by split. Qed.

Ltac bound_done :=
  lazymatch goal with
  | |- stays_bound _ (select_stack _ _) => generalize_tracer; apply stays_bound_select
  | |- stays_bound _ (set_cur_stack (get_context _ :: _) _) =>
      generalize_tracer; apply stays_bound_push
  | |- stays_bound _ (set_context _ (set_cur_stack _ _)) =>
      apply stays_bound_pop; eassumption
  | |- stays_bound _ (set_plugin _ _) => generalize_tracer; apply stays_bound_set_plugin
  | |- stays_bound _ (set_last_line _ _) => generalize_tracer; apply stays_bound_set_last_line
  | |- stays_bound _ (set_cur_file_dict SNone _) =>
      generalize_tracer; apply stays_bound_set_cur_file_dict; exact I
  | |- stays_bound _ (set_cur_file_dict (SObj _) _) =>
      apply stays_bound_set_cur_file_dict; simpl;
      first [ rewrite lookup_insert_eq; by eexists
            | match goal with
              | H : negb (bool_decide (is_Some _)) = false |- _ =>
                  apply negb_false_iff, bool_decide_eq_true in H; exact H
              end ]
  | |- stays_bound _ (set_data (record_key _ _ _) _) => apply stays_bound_record_key
  | |- stays_bound _ (set_data (<[_ := ∅]> _) _) =>
      apply stays_bound_new_record; reflexivity
  | |- stays_bound _ _ =>
      generalize_tracer; apply stays_bound_frame; [reflexivity| |reflexivity];
      intros []; reflexivity
  end.

Ltac bound_step := along_step stays_bound_refl stays_bound_trans.
Ltac bound_auto := repeat first [bound_step | bound_done].

Lemma on_call_bound fr t w : along stays_bound (on_call fr) t w.
Proof. unfold on_call, push_context, resolve_disposition. bound_auto. Qed.

Lemma for_each_setitem_line_bound ls t w :
  along stays_bound (for_each ls setitem_line) t w.
Proof.
  revert t w. induction ls as [|n ls IH]; intros t w; simpl.
  - apply stays_bound_refl.
  - apply (along_bind _ stays_bound_trans).
    + unfold setitem_line. bound_auto.
    + intros _ t1 w1 _. apply IH.
Qed.

Lemma on_line_bound fr t w : along stays_bound (on_line fr) t w.
Proof.
  unfold on_line, setitem_arc. bound_auto.
  apply (along_bind _ stays_bound_trans).
  - apply for_each_setitem_line_bound.
  - intros. bound_auto.
Qed.

Lemma on_return_bound fr t w : along stays_bound (on_return fr) t w.
Proof. unfold on_return, setitem_arc, pop_context. bound_auto. Qed.

Lemma replay_bound fr t w : along stays_bound (replay_skipped_return fr) t w.
Proof. unfold replay_skipped_return, setitem_arc, pop_context. bound_auto. Qed.

Lemma handle_bound fr ev t w : along stays_bound (handle fr ev) t w.
Proof.
  destruct ev; simpl.
  - apply on_call_bound.
  - apply on_line_bound.
  - apply on_return_bound.
  - unfold on_exception. bound_auto.
  - bound_auto.
Qed.

Lemma trace_bound fr ev t w : along stays_bound (_trace fr ev) t w.
Proof.
  unfold _trace. apply along_gets_bind. destruct (stopped t); [apply stays_bound_refl|].
  apply (along_bind _ stays_bound_trans); [apply replay_bound|]. intros _ t1 w1 _.
  apply (along_bind _ stays_bound_trans); [apply handle_bound|]. intros _ t2 w2 _.
  apply along_gets_bind. apply stays_bound_refl.
Qed.

Lemma run_bound ds t w : along stays_bound (run ds) t w.
Proof.
  revert t w. induction ds as [|d ds IH]; intros t w; simpl.
  - apply stays_bound_refl.
  - apply (along_bind _ stays_bound_trans); [apply trace_bound|]. intros _ t1 w1 _. apply IH.
Qed.

Lemma new_tracer_well_bound id a oracle include th wn idf :
  well_bound (new_tracer id a oracle include th wn idf).
Proof.
  split; [exact I|]. intros [|c]; simpl; [constructor|].
  rewrite lookup_total_empty. constructor.
Qed.

(** X16.  From the tracer [__init__] and the collector make, whatever is
    delivered and whether or not a delivery raises, the live per-file dict
    is always one of the records of the data store, and so is the per-file
    dict of every context saved on a stack: a line or an arc written
    through [cur_file_dict] always lands in [data]. *)
Theorem live_record_is_in_the_store id a oracle include th wn idf ds w :
  let t' := final_tracer (run ds (new_tracer id a oracle include th wn idf) w) in
  (forall name, cur_file_dict t' = SObj name -> is_Some (data t' !! name)) /\
  (forall r p name l, (p, SObj name, l) ∈ stack_at r t' -> is_Some (data t' !! name)).
Proof.
  cbv zeta.
  destruct (run_bound ds _ w (new_tracer_well_bound id a oracle include th wn idf))
    as [H1 H2].
  split.
  - intros name Hd. unfold context_bound, get_context in H1. simpl in H1.
    by rewrite Hd in H1.
  - intros r p name l Hin. specialize (H2 r).
    rewrite list.Forall_forall in H2. exact (H2 _ Hin).
Qed.

(** ** What [__repr__] reports *)

Lemma run_preserves_settings ds : preserves (fun t _ => settings t) (run ds).
Proof.
  induction ds as [|d ds IH]; simpl; [apply preserves_ret|].
  apply preserves_bind; [|by intros _].
  intros t w. apply (trace_preserves_settings (dl_frame d) (dl_event d)).
Qed.

Lemma sum_of_sizes_mono (d d' : gmap string (gset key)) :
  (forall n s, d !! n = Some s -> exists s', d' !! n = Some s' /\ s ⊆ s') ->
  (sum_list_with (fun p => size p.2) (map_to_list d)
   <= sum_list_with (fun p => size p.2) (map_to_list d'))%nat.
Proof.
  revert d'. induction d as [|i x m Hi IH] using map_ind; intros d' Hrel.
  - rewrite map_to_list_empty. simpl. lia.
  - destruct (Hrel i x) as (x' & Hx' & Hsub); [by rewrite lookup_insert_eq|].
    rewrite (map_to_list_insert m i x Hi). simpl.
    rewrite <- (insert_delete_id d' i x' Hx').
    rewrite (map_to_list_insert (delete i d') i x') by apply lookup_delete_eq. simpl.
    apply Nat.add_le_mono; [by apply subseteq_size|].
    apply IH. intros n s Hn.
    assert (Hne : n <> i) by (intros ->; congruence).
    destruct (Hrel n s) as (s' & Hs' & Hsub'); [by rewrite lookup_insert_ne|].
    exists s'. by rewrite lookup_delete_ne.
Qed.

(** X17.  The two numbers [__repr__] reports - the keys over all the
    records and the records - never decrease, whatever is delivered; and as
    long as the data store is the same, so is the text. *)
Theorem repr_counts_never_decrease ds t w :
  let t' := final_tracer (run ds t w) in
  (recorded_keys t <= recorded_keys t')%nat /\
  (size (data t) <= size (data t'))%nat /\
  (data t' = data t -> __repr__ t' = __repr__ t).
Proof.
  cbv zeta. destruct (run_grows ds t w) as (_ & Hm & _). split_and!.
  - by apply sum_of_sizes_mono.
  - rewrite <- !size_dom. apply subseteq_size. intros n [s Hs]%elem_of_dom.
    destruct (Hm n s Hs) as (s' & Hs' & _). apply elem_of_dom. by exists s'.
  - intros Hd. unfold __repr__, recorded_keys. rewrite Hd.
    pose proof (run_preserves_settings ds t w) as Hset. simpl in Hset.
    apply settings_eq in Hset as (-> & _). done.
Qed.

(** The text for the tracer with identity 255 after the two calls of [f]. *)
Lemma repr_after_two_calls :
  __repr__ (final_tracer
              (run f_called_twice
                 (new_tracer 255 false trace_every_file (fun _ => true) false false false)
                 (new_world 0))) =
    "<PyTracer at 0xff: 3 lines in 1 files>".
Proof. vm_compute. reflexivity. Qed.

(** ** The cache of dispositions *)

Lemma cache_kept_refl t : cache_kept t t.
Proof. by intros fn d. Qed.

Lemma cache_kept_trans t1 t2 t3 : cache_kept t1 t2 -> cache_kept t2 t3 -> cache_kept t1 t3.
Proof. intros H1 H2 fn d Hd. by apply H2, H1. Qed.

Lemma cache_kept_frame t t' :
  should_trace_cache t' = should_trace_cache t -> cache_kept t t'.
Proof. intros Hc fn d. by rewrite Hc. Qed.

Lemma cache_kept_miss fn d c t :
  c = should_trace_cache t -> c !! fn = None ->
  cache_kept t (set_should_trace_cache (<[fn := d]> c) t).
Proof.
  intros -> Hnone fn' d' Hd'. simpl. rewrite lookup_insert_ne; [done|]. congruence.
Qed.

Ltac cache_done :=
  lazymatch goal with
  | |- cache_kept _ (set_should_trace_cache _ _) =>
      apply cache_kept_miss; [reflexivity|assumption]
  | |- cache_kept _ _ => generalize_tracer; apply cache_kept_frame; attr_unchanged
  end.

Ltac cache_step := along_step cache_kept_refl cache_kept_trans.
Ltac cache_auto := repeat first [cache_step | cache_done].

Lemma for_each_setitem_line_cache ls t w :
  along cache_kept (for_each ls setitem_line) t w.
Proof.
  revert t w. induction ls as [|n ls IH]; intros t w; simpl.
  - apply cache_kept_refl.
  - apply (along_bind _ cache_kept_trans).
    + unfold setitem_line. cache_auto.
    + intros _ t1 w1 _. apply IH.
Qed.

Lemma handle_cache fr ev t w : along cache_kept (handle fr ev) t w.
Proof.
  destruct ev; simpl.
  - unfold on_call, push_context, resolve_disposition. cache_auto.
  - unfold on_line, setitem_arc. cache_auto.
    apply (along_bind _ cache_kept_trans).
    + apply for_each_setitem_line_cache.
    + intros. cache_auto.
  - unfold on_return, setitem_arc, pop_context. cache_auto.
  - unfold on_exception. cache_auto.
  - cache_auto.
Qed.

Lemma replay_cache fr t w : along cache_kept (replay_skipped_return fr) t w.
Proof. unfold replay_skipped_return, setitem_arc, pop_context. cache_auto. Qed.

Lemma trace_cache fr ev t w : along cache_kept (_trace fr ev) t w.
Proof.
  unfold _trace. apply along_gets_bind. destruct (stopped t); [apply cache_kept_refl|].
  apply (along_bind _ cache_kept_trans); [apply replay_cache|]. intros _ t1 w1 _.
  apply (along_bind _ cache_kept_trans); [apply handle_cache|]. intros _ t2 w2 _.
  apply along_gets_bind. apply cache_kept_refl.
Qed.

Lemma run_cache ds t w : along cache_kept (run ds) t w.
Proof.
  revert t w. induction ds as [|d ds IH]; intros t w; simpl.
  - apply cache_kept_refl.
  - apply (along_bind _ cache_kept_trans); [apply trace_cache|]. intros _ t1 w1 _. apply IH.
Qed.

(** X18.  A disposition that is in the cache stays there: whatever is
    delivered, and whether or not a delivery raises, no entry of the cache
    is removed or replaced, and the domain of the cache only grows. *)
Theorem cached_dispositions_are_never_replaced ds t w :
  let t' := final_tracer (run ds t w) in
  should_trace_cache t ⊆ should_trace_cache t'.
Proof.
  cbv zeta. apply map_subseteq_spec. intros fn d Hd. by apply (run_cache ds t w).
Qed.

(** ** The coroutine last seen *)

Ltac last_coroutine_unused :=
  intros; unfold forget_last_coroutine, set_context, select_stack, set_cur_stack,
    get_context, cur_stack, cur_file_dict_truthy; simpl;
  repeat case_match; reflexivity.

Ltac unread_step :=
  lazymatch goal with
  | |- respects _ (bind _ _) => apply respects_bind; [|intros ?]
  | |- respects _ (ret _) => apply respects_ret
  | |- respects _ (raise _) => apply respects_raise
  | |- respects _ (gets _) => apply respects_gets; last_coroutine_unused
  | |- respects _ (gets_world _) => apply respects_gets_world
  | |- respects _ (when _ _) => apply respects_when
  | |- respects _ (for_each _ _) => apply respects_for_each; intros ?
  | |- respects _ (modify _) => apply respects_modify; last_coroutine_unused
  | |- respects _ (modify_world _) => apply respects_modify_world
  | |- respects _ (match ?x with _ => _ end) => destruct x
  end.

Lemma trace_respects_last_coroutine fr ev :
  respects forget_last_coroutine (_trace fr ev).
Proof.
  unfold _trace, replay_skipped_return, handle, on_call, on_line, on_return, on_exception,
    push_context, pop_context, resolve_disposition, setitem_arc, setitem_line.
  repeat unread_step.
Qed.

Lemma run_respects_last_coroutine ds : respects forget_last_coroutine (run ds).
Proof.
  induction ds as [|d ds IH]; simpl; [apply respects_ret|].
  apply respects_bind; [|by intros _].
  intros t t' w Heq. apply (trace_respects_last_coroutine (dl_frame d) (dl_event d)), Heq.
Qed.

(** X19.  The coroutine last seen is written by the call and return
    handlers and read by nothing: whatever its value, the deliveries have
    the same result, raise the same exception, and end in the same world
    and the same tracer but for [last_coroutine] itself. *)
Theorem last_coroutine_is_never_read ds c t w :
  map_outcome forget_last_coroutine (run ds (set_last_coroutine c t) w) =
  map_outcome forget_last_coroutine (run ds t w).
Proof. by apply run_respects_last_coroutine. Qed.
